(** * AIStack MCP servers: model-router and claude-runner

    A shallow embedding of the two stdio MCP servers of the repository
    ([mcp/model_router/server.ts] and [mcp/claude_runner/server.ts]):
    the Content-Length framed transport, the model gateway, the
    brainstorm/debate/synthesis orchestration, and the sandboxed
    execution bridge.

    Conventions of the embedding.
    - A JavaScript string is a [string]: a sequence of 8-bit characters
      holding the UTF-8 text.  [trim] and [toLowerCase] act on the ASCII
      range only; on header text, which is decoded as 7-bit ASCII, this is
      exact.
    - A [Buffer] is a [list ascii].
    - Lengths and counters are unbounded naturals or integers; IEEE
      rounding of very large numbers is outside the model.
    - Effects (HTTP requests, gateway calls, file system and subprocess
      access) are the events of a small free monad [Prog]; standard input
      is an explicit byte stream. *)

From Stdlib Require Import List String Ascii Bool Arith ZArith QArith Lia.
From Stdlib Require Import Decimal DecimalString DecimalNat.
Import ListNotations.

Local Close Scope Q_scope.
Local Open Scope nat_scope.
Local Open Scope list_scope.
Local Open Scope string_scope.

Set Implicit Arguments.

(* ================================================================== *)
(** * JavaScript string primitives                                     *)
(* ================================================================== *)

Module JsString.

Definition CR : ascii := ascii_of_nat 13.
Definition LF : ascii := ascii_of_nat 10.
Definition CRLF : string := String CR (String LF "").

(** White space recognised by [String.prototype.trim] in the ASCII range:
    TAB, LF, VT, FF, CR and SPACE. *)
Definition is_space (c : ascii) : bool :=
  let n := nat_of_ascii c in
  ((9 <=? n) && (n <=? 13) || (n =? 32))%nat.

Fixpoint trimStart (s : string) : string :=
  match s with
  | "" => ""
  | String c s' => if is_space c then trimStart s' else s
  end.

Fixpoint trimEnd (s : string) : string :=
  match s with
  | "" => ""
  | String c s' =>
      match trimEnd s' with
      | "" => if is_space c then "" else String c ""
      | t => String c t
      end
  end.

Definition trim (s : string) : string := trimEnd (trimStart s).

Definition lower_char (c : ascii) : ascii :=
  let n := nat_of_ascii c in
  if ((65 <=? n) && (n <=? 90))%nat then ascii_of_nat (n + 32) else c.

Fixpoint toLowerCase (s : string) : string :=
  match s with
  | "" => ""
  | String c s' => String (lower_char c) (toLowerCase s')
  end.

(** [s.startsWith(p)] *)
Definition startsWith (s p : string) : bool := String.prefix p s.

(** [s.endsWith(p)] *)
Definition endsWith (s p : string) : bool :=
  let n := String.length s in
  let m := String.length p in
  (m <=? n)%nat && String.eqb (substring (n - m) m s) p.

(** [s.indexOf(c)] for a one-character needle; [None] stands for -1. *)
Fixpoint indexOf (c : ascii) (s : string) : option nat :=
  match s with
  | "" => None
  | String a s' =>
      if Ascii.eqb a c then Some 0 else option_map S (indexOf c s')
  end.

(** [s.slice(n)] *)
Fixpoint sliceFrom (n : nat) (s : string) : string :=
  match n, s with
  | 0, _ => s
  | S _, "" => ""
  | S k, String _ s' => sliceFrom k s'
  end.

(** [s.slice(0, n)] *)
Definition sliceTo (n : nat) (s : string) : string := substring 0 n s.

(** [s.split(sep)] for a non-empty separator.  [skip] counts the
    characters of a separator just matched that are still to be passed
    over; [cur] is the piece being accumulated. *)
Fixpoint split_from (sep : string) (skip : nat) (cur : string) (s : string)
  : list string :=
  match s with
  | "" => [cur]
  | String c s' =>
      match skip with
      | S k => split_from sep k cur s'
      | 0 =>
          if String.prefix sep s
          then cur :: split_from sep (String.length sep - 1) "" s'
          else split_from sep 0 (cur ++ String c "") s'
      end
  end.

Definition split (sep s : string) : list string := split_from sep 0 "" s.

(** [parts.join(sep)] *)
Fixpoint join (sep : string) (parts : list string) : string :=
  match parts with
  | [] => ""
  | [p] => p
  | p :: rest => p ++ sep ++ join sep rest
  end.

(** [Boolean(s)] on a string: non-empty. *)
Definition nonEmpty (s : string) : bool :=
  match s with "" => false | _ => true end.

(** [a || b] on strings. *)
Definition orElse (a b : string) : string := if nonEmpty a then a else b.

(** [String(n)] for a natural number and for an integer. *)
Definition String_nat (n : nat) : string :=
  NilZero.string_of_uint (Nat.to_uint n).

Definition String_Z (z : Z) : string :=
  NilZero.string_of_int (Z.to_int z).

(** [Number(s)] on the strings that are plain decimal digit sequences.
    [None] stands for [NaN]; the other numeric literal forms of
    JavaScript (signs, fractions, exponents, hexadecimal, surrounding
    blanks) are not modelled and fall under [None] as well. *)
Definition Number_of_string (s : string) : option nat :=
  option_map Nat.of_uint (NilZero.uint_of_string s).

(** Every character of [s] satisfies [f]. *)
Fixpoint allChars (f : ascii -> bool) (s : string) : bool :=
  match s with
  | "" => true
  | String c s' => f c && allChars f s'
  end.

Definition isDigit (c : ascii) : bool :=
  let n := nat_of_ascii c in ((48 <=? n) && (n <=? 57))%nat.

End JsString.

Import JsString.

(* ================================================================== *)
(** * Framed transport (shared by both servers)                        *)
(* ================================================================== *)

Module Transport.

Definition Buffer := list ascii.

(** [Buffer.from(s, "ascii")] / [Buffer.from(s, "utf-8")] on a string that
    already holds the encoded bytes. *)
Definition Buffer_from (s : string) : Buffer := list_ascii_of_string s.

(** [buf.toString("ascii")] on one byte: Node clears the high bit. *)
Definition ascii_decode (b : ascii) : ascii :=
  match b with
  | Ascii b0 b1 b2 b3 b4 b5 b6 _ => Ascii b0 b1 b2 b3 b4 b5 b6 false
  end.

(** A character of a header line as [writeMessage] prints it: 7-bit,
    neither CR nor LF. *)
Definition isPlain (c : ascii) : bool :=
  Ascii.eqb (ascii_decode c) c && negb (Ascii.eqb c CR)
  && negb (Ascii.eqb c LF).

(** The end of the header block, [CRLF ++ CRLF]. *)
Definition CRLFCRLF : string :=
  String CR (String LF (String CR "")) ++ String LF "".

(** The header [writeMessage] puts before a body of [n] bytes. *)
Definition frameHeader (n : nat) : Buffer :=
  Buffer_from ("Content-Length: " ++ String_nat n ++ CRLF ++ CRLF).

(** What [readMessageSync] hands back: [null], a parsed message, or the
    [SyntaxError] raised by [JSON.parse]. *)
Inductive ReadResult (Json : Type) : Type :=
| NoMessage
| Message (msg : Json)
| ParseThrows.
Arguments NoMessage {Json}.
Arguments ParseThrows {Json}.

(** The outcome of [JSON.parse] as a [ReadResult]. *)
Definition readResult {Json : Type} (parsed : option Json)
  : ReadResult Json :=
  match parsed with
  | Some msg => Message msg
  | None => ParseThrows
  end.

Section Framing.

(** The JSON codec is the runtime's: [JSON_stringify] gives the UTF-8
    bytes of [JSON.stringify(data)], [JSON_parse] is [JSON.parse] on
    the decoded body, [None] when it throws. *)
Variable Json : Type.
Variable JSON_stringify : Json -> Buffer.
Variable JSON_parse : Buffer -> option Json.

(** Short reads: with [pending] bytes buffered and [len] bytes asked
    for, the operating system hands over at most [S (deliver pending
    len)] bytes.  Any function is allowed, so every pattern of short
    reads is covered. *)
Variable deliver : Buffer -> nat -> nat.

(** [writeMessage]: the bytes written to standard output. *)
Definition writeMessage (data : Json) : Buffer :=
  let body := JSON_stringify data in
  let header :=
    Buffer_from ("Content-Length: " ++ String_nat (List.length body)
                 ++ CRLF ++ CRLF) in
  (header ++ body)%list.

(** [readSyncRetry(buffer, offset, length)]: the bytes obtained and the
    rest of standard input.  The EAGAIN/EINTR retry loop is invisible
    here: the call returns once bytes are there or the stream ended,
    and an empty result is end of stream.  Any other read error is an
    exception that ends the server; it is outside the model. *)
Definition readSyncRetry (len : nat) (stdin : Buffer) : Buffer * Buffer :=
  let n := Nat.min len (Nat.min (List.length stdin)
                                (S (deliver stdin len))) in
  (firstn n stdin, skipn n stdin).

(** The loop of [readExactSync]; [need] is [total - offset] and [out]
    the bytes stored so far.  Every turn stores at least one byte, so
    [fuel = total] turns are enough. *)
Fixpoint readExact_loop (fuel : nat) (out : Buffer) (need : nat)
         (stdin : Buffer) : option Buffer * Buffer :=
  match need with
  | 0 => (Some out, stdin)
  | S _ =>
      match fuel with
      | 0 => (None, stdin)
      | S fuel' =>
          let '(got, stdin') := readSyncRetry need stdin in
          match got with
          | [] => (None, stdin')
          | _ :: _ =>
              readExact_loop fuel' (out ++ got)%list
                             (need - List.length got) stdin'
          end
      end
  end.

Definition readExactSync (total : nat) (stdin : Buffer)
  : option Buffer * Buffer :=
  readExact_loop total [] total stdin.

(** The header loop of [readMessageSync]: one byte at a time until the
    text read so far ends with CRLF CRLF. *)
Fixpoint readHeader (headerRaw : string) (stdin : Buffer)
  : option string * Buffer :=
  match stdin with
  | [] => (None, [])
  | b :: rest =>
      let headerRaw' := headerRaw ++ String (ascii_decode b) "" in
      if endsWith headerRaw' (CRLF ++ CRLF)
      then (Some headerRaw', rest)
      else readHeader headerRaw' rest
  end.

(** [headerMap[key] = value] and [headerMap[key]] on the header object;
    the newest binding of a key is the one found, and an assignment to
    the accessor key [__proto__] stores nothing. *)
Definition HeaderMap := list (string * string).

Definition header_set (k v : string) (m : HeaderMap) : HeaderMap :=
  if String.eqb k "__proto__" then m else (k, v) :: m.

Fixpoint header_get (k : string) (m : HeaderMap) : option string :=
  match m with
  | [] => None
  | (k', v) :: m' => if String.eqb k' k then Some v else header_get k m'
  end.

Definition parseHeaderLine (m : HeaderMap) (line : string) : HeaderMap :=
  match indexOf ":" line with
  | Some (S i) =>
      header_set (toLowerCase (trim (sliceTo (S i) line)))
                 (trim (sliceFrom (S (S i)) line)) m
  | _ => m
  end.

Definition parseHeaders (headerRaw : string) : HeaderMap :=
  let lines := filter nonEmpty (split CRLF headerRaw) in
  fold_left parseHeaderLine lines [].

(** [Number(headerMap["content-length"] || "0")] *)
Definition contentLength (m : HeaderMap) : option nat :=
  let v := match header_get "content-length" m with
           | Some v => v
           | None => ""
           end in
  Number_of_string (orElse v "0").

Definition readMessageSync (stdin : Buffer) : ReadResult Json * Buffer :=
  match readHeader "" stdin with
  | (None, stdin1) => (NoMessage, stdin1)
  | (Some headerRaw, stdin1) =>
      match contentLength (parseHeaders headerRaw) with
      | None | Some 0 => (NoMessage, stdin1)
      | Some len =>
          match readExactSync len stdin1 with
          | (None, stdin2) => (NoMessage, stdin2)
          | (Some body, stdin2) =>
              match JSON_parse body with
              | Some msg => (Message msg, stdin2)
              | None => (ParseThrows, stdin2)
              end
          end
      end
  end.

End Framing.

End Transport.

(* ================================================================== *)
(** * Effects: a free monad over the calls a server makes              *)
(* ================================================================== *)

Module Effects.

(** A program issues events [e : E], each answered by a value of type
    [R e]; it ends by returning a value or by raising ([Throw]), the
    rejection of an awaited promise. *)
Inductive Prog (E : Type) (R : E -> Type) (A : Type) : Type :=
| Ret (a : A)
| Throw (err : string)
| Vis (e : E) (k : R e -> Prog R A).
Arguments Ret {E R A} a.
Arguments Throw {E R A} err.
Arguments Vis {E R A} e k.

Fixpoint bind {E : Type} {R : E -> Type} {A B : Type}
         (m : Prog R A) (f : A -> Prog R B) : Prog R B :=
  match m with
  | Ret a => f a
  | Throw err => Throw err
  | Vis e k => Vis e (fun r => bind (k r) f)
  end.

(** [await] of one call. *)
Definition call {E : Type} {R : E -> Type} (e : E) : Prog R (R e) :=
  Vis e (fun r => Ret r).

(** The environment answers an event from its state [W], with a value or
    with an exception. *)
Definition Handler (E : Type) (R : E -> Type) (W : Type) : Type :=
  forall e : E, W -> (string + R e) * W.

Fixpoint run {E : Type} {R : E -> Type} {A W : Type}
         (h : Handler R W) (p : Prog R A) (w : W) : (string + A) * W :=
  match p with
  | Ret a => (inr a, w)
  | Throw err => (inl err, w)
  | Vis e k =>
      match h e w with
      | (inl err, w') => (inl err, w')
      | (inr r, w') => run h (k r) w'
      end
  end.

(** Every event a program can issue, whatever the answers, satisfies
    [P]. *)
Inductive EveryEvent {E : Type} {R : E -> Type} {A : Type} (P : E -> Prop)
  : Prog R A -> Prop :=
| EveryRet (a : A) : EveryEvent P (Ret a)
| EveryThrow (err : string) : EveryEvent P (Throw err)
| EveryVis (e : E) (k : R e -> Prog R A) :
    P e -> (forall r, EveryEvent P (k r)) -> EveryEvent P (Vis e k).

End Effects.

Import Effects.

Declare Scope prog_scope.
Delimit Scope prog_scope with prog.
Notation "x <- m ;; k" := (bind m (fun x => k))
  (at level 61, m at next level, right associativity) : prog_scope.
Notation "' pat <- m ;; k" := (bind m (fun x => match x with pat => k end))
  (at level 61, pat pattern, m at next level, right associativity)
  : prog_scope.

(* ================================================================== *)
(** * JavaScript values reaching the tools                             *)
(* ================================================================== *)

Module JsValue.

(** The primitives a JSON argument can hold, and [undefined] for a
    property that is absent.  Numbers are the integers. *)
Inductive jsprim : Type :=
| PUndefined
| PNull
| PBool (b : bool)
| PNum (z : Z)
| PStr (s : string).

(** An argument as a tool sees it: a primitive, an array, or an object.
    Property values are primitives (the declared schemas admit strings
    and numbers there); nested containers are outside the model. *)
Inductive jsval : Type :=
| JPrim (p : jsprim)
| JArr (items : list jsprim)
| JObj (fields : list (string * jsprim)).

(** [Boolean(p)] *)
Definition truthy (p : jsprim) : bool :=
  match p with
  | PUndefined | PNull => false
  | PBool b => b
  | PNum z => negb (Z.eqb z 0)
  | PStr s => nonEmpty s
  end.

(** [a || b] *)
Definition js_or (a b : jsprim) : jsprim := if truthy a then a else b.

(** [String(p)] *)
Definition String_ (p : jsprim) : string :=
  match p with
  | PUndefined => "undefined"
  | PNull => "null"
  | PBool true => "true"
  | PBool false => "false"
  | PNum z => String_Z z
  | PStr s => s
  end.

(** [obj[key]] on a parsed JSON object: the last of duplicated keys is
    the one [JSON.parse] keeps. *)
Fixpoint prop (key : string) (fields : list (string * jsprim)) : jsprim :=
  match fields with
  | [] => PUndefined
  | (k, v) :: rest =>
      match prop key rest with
      | PUndefined => if String.eqb k key then v else PUndefined
      | later => later
      end
  end.

(** [Number(x || dflt)] for an optional integer argument. *)
Definition Number_or (x : option Z) (dflt : Z) : Z :=
  match x with
  | Some z => if Z.eqb z 0 then dflt else z
  | None => dflt
  end.

(** The value written out by [JSON.stringify]. *)
#[warnings="-register-all"]
Inductive json : Type :=
| JNull
| JBoolean (b : bool)
| JNumber (z : Z)
| JString (s : string)
| JArray (items : list json)
| JObject (fields : list (string * json)).

(** A [Record<string, string>] filled by assignment [obj[k] = v]: a key
    assigned again keeps its place, a new key goes last.  The key
    [__proto__] is the accessor of [Object.prototype]: assigning a string
    to it stores nothing.  ([Object.entries] and [JSON.stringify] list
    integer-like keys first; that order only reaches the printed text,
    which is the runtime's.) *)
Definition Obj := list (string * string).

Definition protoKey : string := "__proto__".

Fixpoint obj_put (k v : string) (o : Obj) : Obj :=
  match o with
  | [] => [(k, v)]
  | (k', v') :: rest =>
      if String.eqb k' k then (k, v) :: rest
      else (k', v') :: obj_put k v rest
  end.

Definition obj_set (k v : string) (o : Obj) : Obj :=
  if String.eqb k protoKey then o else obj_put k v o.


Definition keys (o : Obj) : list string := map fst o.

Definition obj_json (o : Obj) : json :=
  JObject (map (fun kv => (fst kv, JString (snd kv))) o).

(** [{ content: [{ type: "text", text }], isError }] *)
Record ToolResult : Type := mkToolResult {
  content : list string;
  isError : bool
}.

Definition textResult (text : string) (err : bool) : ToolResult :=
  mkToolResult [text] err.

End JsValue.

Import JsValue.

(* ================================================================== *)
(** * model-router: gateway and orchestration                          *)
(* ================================================================== *)

Module ModelRouter.

Record ModelSpec : Type := mkModelSpec {
  id : string;
  provider : string;
  model : string;
  api_url : string;
  api_key : string;
  system_prompt : string
}.

(** The pieces of the JavaScript runtime and of the file that the
    properties below do not look into: the pretty printer
    [JSON.stringify(v, null, 2)], the parsed body of an HTTP response,
    and the three extractors that read the text out of it. *)
Record Runtime : Type := mkRuntime {
  RespJson : Type;
  JSON_stringify : json -> string;
  extractOpenAIText : RespJson -> string;
  extractAnthropicText : RespJson -> string;
  extractGeminiText : RespJson -> string
}.

(** A runtime to evaluate examples with: nothing is printed and no text
    is extracted. *)
Definition demoRuntime : Runtime :=
  {| RespJson := unit;
     JSON_stringify := fun _ => "";
     extractOpenAIText := fun _ => "";
     extractAnthropicText := fun _ => "";
     extractGeminiText := fun _ => "" |}.

(** ** HTTP requests *)

Inductive Payload : Type :=
| ChatPayload (model system user : string) (temperature : Q)
| AnthropicPayload (model system : string) (max_tokens : Z) (user : string)
| GeminiPayload (user system : string) (temperature : Q)
                (maxOutputTokens : Z).

Record HttpRequest : Type := mkHttpRequest {
  req_url : string;
  req_payload : Payload;
  req_headers : list (string * string);
  req_timeoutSec : Z
}.

Record HttpResult (J : Type) : Type := mkHttpResult {
  status : Z;
  parsed : J;
  raw : string
}.

(** [s.replace(/\/+$/g, "")] *)
Fixpoint stripTrailingSlashes (s : string) : string :=
  match s with
  | "" => ""
  | String c s' =>
      match stripTrailingSlashes s' with
      | "" => if Ascii.eqb c "/" then "" else String c ""
      | t => String c t
      end
  end.

(** [encodeURIComponent] on UTF-8 text: the unreserved characters stay,
    every other byte becomes [%XX]. *)
Definition hex_digit (n : nat) : ascii :=
  if (n <? 10)%nat then ascii_of_nat (48 + n) else ascii_of_nat (55 + n).

Definition uri_unreserved (c : ascii) : bool :=
  let n := nat_of_ascii c in
  (((65 <=? n) && (n <=? 90)) || ((97 <=? n) && (n <=? 122))
   || ((48 <=? n) && (n <=? 57)))%nat
  || existsb (Ascii.eqb c)
       ["-"; "_"; "."; "!"; "~"; "*"; "'"; "("; ")"]%char.

Fixpoint encodeURIComponent (s : string) : string :=
  match s with
  | "" => ""
  | String c s' =>
      if uri_unreserved c then String c (encodeURIComponent s')
      else
        let n := nat_of_ascii c in
        String "%" (String (hex_digit (n / 16))
                      (String (hex_digit (n mod 16))
                         (encodeURIComponent s')))
  end.

Definition defaultSystem : string := "You are a helpful assistant.".

Section Gateway.

Variable rt : Runtime.

Definition HttpProg := Prog (fun _ : HttpRequest => HttpResult (RespJson rt)).

(** [await httpPostJson(...)].  The environment answers with the
    [{ status, parsed, raw }] the promise resolves to, or with an
    exception ([new URL(urlStr)] rejects a malformed URL). *)
Definition httpPostJson (urlStr : string) (payload : Payload)
           (headers : list (string * string)) (timeoutSec : Z)
  : HttpProg (HttpResult (RespJson rt)) :=
  call (mkHttpRequest urlStr payload headers timeoutSec).

Definition isProvider (spec : ModelSpec) (name : string) : bool :=
  String.eqb (provider spec) name.

(** The four providers [callModel] has a branch for. *)
Definition supportedProvider (name : string) : bool :=
  existsb (String.eqb name) ["openai"; "anthropic"; "gemini"; "custom"].

(** The first half of [callModel]: the request to send, or the early
    [{ code: 2, text }]. *)
Definition buildRequest (spec : ModelSpec) (prompt : string)
           (temperature : Q) (maxTokens : Z)
  : (Z * string) + (string * Payload * list (string * string)) :=
  if isProvider spec "openai" then
    if negb (nonEmpty (api_key spec)) then
      inl (2%Z, "[" ++ id spec ++ "] missing api_key for openai.")
    else
      let base := stripTrailingSlashes
                    (orElse (api_url spec) "https://api.openai.com/v1") in
      inr (base ++ "/chat/completions",
           ChatPayload (model spec)
                       (orElse (system_prompt spec) defaultSystem)
                       prompt temperature,
           [("Authorization", "Bearer " ++ api_key spec)])
  else if isProvider spec "anthropic" then
    if negb (nonEmpty (api_key spec)) then
      inl (2%Z, "[" ++ id spec ++ "] missing api_key for anthropic.")
    else
      inr (stripTrailingSlashes
             (orElse (api_url spec)
                     "https://api.anthropic.com/v1/messages"),
           AnthropicPayload (model spec)
                            (orElse (system_prompt spec) defaultSystem)
                            maxTokens prompt,
           [("x-api-key", api_key spec);
            ("anthropic-version", "2023-06-01")])
  else if isProvider spec "gemini" then
    let payload :=
      GeminiPayload prompt (orElse (system_prompt spec) defaultSystem)
                    temperature maxTokens in
    if nonEmpty (api_url spec) then
      inr (api_url spec, payload,
           if nonEmpty (api_key spec)
           then [("x-goog-api-key", api_key spec)] else [])
    else if negb (nonEmpty (api_key spec)) then
      inl (2%Z, "[" ++ id spec ++ "] missing api_key for gemini.")
    else
      inr ("https://generativelanguage.googleapis.com/v1beta/models/"
             ++ encodeURIComponent (model spec)
             ++ ":generateContent?key="
             ++ encodeURIComponent (api_key spec),
           payload, [])
  else if isProvider spec "custom" then
    if negb (nonEmpty (api_url spec)) then
      inl (2%Z,
           "[" ++ id spec ++ "] missing api_url for custom provider.")
    else
      inr (api_url spec,
           ChatPayload (model spec)
                       (orElse (system_prompt spec) defaultSystem)
                       prompt temperature,
           if nonEmpty (api_key spec)
           then [("Authorization", "Bearer " ++ api_key spec)] else [])
  else
    inl (2%Z, "[" ++ id spec ++ "] unsupported provider: "
               ++ provider spec).

Definition callModel (spec : ModelSpec) (prompt : string)
           (timeoutSec : Z) (temperature : Q) (maxTokens : Z)
  : HttpProg (Z * string) :=
  match buildRequest spec prompt temperature maxTokens with
  | inl early => Ret early
  | inr (url, payload, headers) =>
      (result <- httpPostJson url payload headers timeoutSec ;;
       if (400 <=? status result)%Z || (status result =? 0)%Z then
         Ret (if (status result =? 0)%Z then 1%Z else status result,
              raw result)
       else if isProvider spec "openai" || isProvider spec "custom" then
         Ret (0%Z, extractOpenAIText rt (parsed result))
       else if isProvider spec "anthropic" then
         Ret (0%Z, extractAnthropicText rt (parsed result))
       else
         Ret (0%Z, extractGeminiText rt (parsed result)))%prog
  end.

End Gateway.

(** ** Arguments *)

(** [toModelSpec(input, fallbackId)] *)
Definition toModelSpec (input : jsval) (fallbackId : string)
  : option ModelSpec :=
  match input with
  | JPrim _ => None
  | JArr _ =>
      (* an array is an object without [provider] and [model] *)
      None
  | JObj obj =>
      let provider :=
        toLowerCase (String_ (js_or (prop "provider" obj) (PStr ""))) in
      let model := trim (String_ (js_or (prop "model" obj) (PStr ""))) in
      if negb (nonEmpty provider) || negb (nonEmpty model) then None
      else Some {|
        id := String_ (js_or (prop "id" obj) (PStr fallbackId));
        provider := provider;
        model := model;
        api_url := String_ (js_or (prop "api_url" obj) (PStr ""));
        api_key := String_ (js_or (prop "api_key" obj) (PStr ""));
        system_prompt :=
          String_ (js_or (prop "system_prompt" obj) (PStr ""))
      |}
  end.

(** The [arguments] object of a [tools/call]; a property that is absent
    is [PUndefined] or [None].  [participants] is [None] when the
    property is not an array; numeric properties are integers as the
    input schema declares them. *)
Record Arguments_ : Type := mkArguments {
  arg_model : jsval;
  arg_prompt : jsprim;
  arg_requirement : jsprim;
  arg_participants : option (list jsval);
  arg_debate_rounds : option Z;
  arg_synthesis_by : jsprim;
  arg_timeout_sec : option Z;
  arg_temperature : option Q;
  arg_max_tokens : option Z
}.

(** [Number(argumentsObj.temperature || 0.2)] *)
Definition temperature_or (x : option Q) (dflt : Q) : Q :=
  match x with
  | Some q => if Qeq_bool q 0 then dflt else q
  | None => dflt
  end.

(** ** The gateway as seen by the orchestration *)

Record GatewayCall : Type := mkGatewayCall {
  gc_spec : ModelSpec;
  gc_prompt : string;
  gc_timeoutSec : Z;
  gc_temperature : Q;
  gc_maxTokens : Z
}.

(** A program whose only effect is [await callModel(...)]; the answer is
    the pair [{ code, text }]. *)
Definition GwProg := Prog (fun _ : GatewayCall => (Z * string)%type).

Definition awaitCallModel (spec : ModelSpec) (prompt : string)
           (timeoutSec : Z) (temperature : Q) (maxTokens : Z)
  : GwProg (Z * string) :=
  call (mkGatewayCall spec prompt timeoutSec temperature maxTokens).

(** Replacing every event of a program by the program that serves it. *)
Fixpoint interp {E : Type} {R : E -> Type} {E' : Type} {R' : E' -> Type}
         {A : Type} (f : forall e : E, Prog R' (R e)) (p : Prog R A)
  : Prog R' A :=
  match p with
  | Ret a => Ret a
  | Throw err => Throw err
  | Vis e k => bind (f e) (fun r => interp f (k r))
  end.

(** A gateway program with [callModel] in place of its events. *)
Definition withGateway (rt : Runtime) {A : Type} (p : GwProg A)
  : HttpProg rt A :=
  interp (fun gc : GatewayCall =>
            callModel rt (gc_spec gc) (gc_prompt gc) (gc_timeoutSec gc)
                      (gc_temperature gc) (gc_maxTokens gc)) p.

(** ** Orchestration *)

Record DebateRound : Type := mkDebateRound {
  round : Z;
  responses : Obj
}.

(** The [result] object of [runBrainstorm]. *)
Record Report : Type := mkReport {
  r_requirement : string;
  r_participants : list string;
  r_debate_rounds : Z;
  r_synthesis_by : string;
  r_proposals : Obj;
  r_debates : list DebateRound;
  r_synthesis : string;
  r_errors : list string
}.

Definition LFs : string := String LF "".

Definition debates_json (debates : list DebateRound) : json :=
  JArray (map (fun d => JObject [("round", JNumber (round d));
                                 ("responses", obj_json (responses d))])
              debates).

Definition report_json (r : Report) : json :=
  JObject [("requirement", JString (r_requirement r));
           ("participants", JArray (map JString (r_participants r)));
           ("debate_rounds", JNumber (r_debate_rounds r));
           ("synthesis_by", JString (r_synthesis_by r));
           ("proposals", obj_json (r_proposals r));
           ("debates", debates_json (r_debates r));
           ("synthesis", JString (r_synthesis r));
           ("errors", JArray (map JString (r_errors r)))].

(** [participants]: the entries of [rawParticipants] that [toModelSpec]
    accepts, the entry at index [idx] with fallback id [model_<idx+1>]. *)
Fixpoint collectParticipants (idx : nat) (rawParticipants : list jsval)
  : list ModelSpec :=
  match rawParticipants with
  | [] => []
  | item :: rest =>
      match toModelSpec item ("model_" ++ String_nat (idx + 1)) with
      | Some spec => spec :: collectParticipants (S idx) rest
      | None => collectParticipants (S idx) rest
      end
  end.

(** [Math.max(0, Math.min(5, Number(argumentsObj.debate_rounds || 1)))] *)
Definition debateRoundsOf (debate_rounds : option Z) : Z :=
  Z.max 0 (Z.min 5 (Number_or debate_rounds 1)).

(** The [others] object built for one participant. *)
Definition othersOf (latestInputs : Obj) (modelId : string) : Obj :=
  fold_left (fun others kv =>
               if String.eqb (fst kv) modelId then others
               else obj_set (fst kv) (snd kv) others)
            latestInputs [].

(** [`[${label}:${model.id}] code=${call.code}`] *)
Definition errorLine (label : string) (m : ModelSpec) (code : Z) : string :=
  "[" ++ label ++ ":" ++ id m ++ "] code=" ++ String_Z code.

(** What both stages do with the answer of a call: on a nonzero code
    log the error line and store the tagged text, else store the
    trimmed text. *)
Definition settle (label : string) (m : ModelSpec) (answer : Z * string)
           (out : Obj) (errors : list string) : Obj * list string :=
  let '(code, text) := answer in
  if negb (Z.eqb code 0) then
    (obj_set (id m) ("(failed) " ++ text) out,
     (errors ++ [errorLine label m code])%list)
  else
    (obj_set (id m) (trim text) out, errors).

Section Orchestration.

Variable rt : Runtime.

Definition proposalPrompt (requirement : string) : string :=
  join LFs
    ["You are participating in a multi-model architecture brainstorm.";
     "Provide a concise solution proposal for the requirement.";
     "Cover: stack choices, architecture, risks, and rollout steps.";
     "";
     "Requirement:";
     requirement;
     ""].

Definition debatePrompt (requirement : string) (others : Obj) : string :=
  join LFs
    ["You are in a technical debate. Critique the other proposals only.";
     "Output must include: strongest point, weakest assumption, missing risk, better alternative.";
     "";
     "Requirement:";
     requirement;
     "";
     "Other proposals:";
     JSON_stringify rt (obj_json others);
     ""].

Definition synthPrompt (requirement : string) (proposals : Obj)
           (debates : list DebateRound) : string :=
  join LFs
    ["You are the synthesizer. Produce final architecture decision and roadmap.";
     "Output sections:";
     "1) Decision summary";
     "2) Tradeoffs";
     "3) Roadmap rounds";
     "4) Task decomposition strategy";
     "5) Validation and acceptance policy";
     "";
     "Requirement:";
     requirement;
     "";
     "Proposals:";
     JSON_stringify rt (obj_json proposals);
     "";
     "Debate history:";
     JSON_stringify rt (debates_json debates);
     ""].

Variables (requirement : string) (timeoutSec : Z) (temperature : Q)
          (maxTokens : Z).

(** The loop [for (const model of participants)] that both stages
    run: one awaited call per participant, in list order, its answer
    settled into [out] and [errors]. *)
Fixpoint forEachParticipant (label : string)
         (promptOf : ModelSpec -> string)
         (participants : list ModelSpec) (out : Obj)
         (errors : list string) : GwProg (Obj * list string) :=
  match participants with
  | [] => Ret (out, errors)
  | m :: rest =>
      (answer <- awaitCallModel m (promptOf m)
                                timeoutSec temperature maxTokens ;;
       let '(out', errors') := settle label m answer out errors in
       forEachParticipant label promptOf rest out' errors')%prog
  end.

(** The proposal stage. *)
Definition proposalStage (participants : list ModelSpec)
           (proposals : Obj) (errors : list string)
  : GwProg (Obj * list string) :=
  forEachParticipant "proposal" (fun _ => proposalPrompt requirement)
                     participants proposals errors.

(** The inner loop of debate round [i]. *)
Definition debateRound (i : Z) (latestInputs : Obj)
           (participants : list ModelSpec) (responses : Obj)
           (errors : list string) : GwProg (Obj * list string) :=
  forEachParticipant
    ("debate-r" ++ String_Z i)
    (fun m => debatePrompt requirement (othersOf latestInputs (id m)))
    participants responses errors.

(** [for (let i = 1; i <= debateRounds; i += 1)]: [todo] rounds are
    left, the next one is round [i]. *)
Fixpoint debateLoop (todo : nat) (i : Z) (participants : list ModelSpec)
         (latestInputs : Obj) (debates : list DebateRound)
         (errors : list string)
  : GwProg (list DebateRound * list string) :=
  match todo with
  | O => Ret (debates, errors)
  | S todo' =>
      ('(responses, errors') <-
         debateRound i latestInputs participants [] errors ;;
       debateLoop todo' (i + 1)%Z participants responses
                  (debates ++ [mkDebateRound i responses])%list
                  errors')%prog
  end.

End Orchestration.

Definition findById (synthesisBy : string) (participants : list ModelSpec)
  : option ModelSpec :=
  find (fun m => String.eqb (id m) synthesisBy) participants.

(** The values [runBrainstorm] reads from its arguments. *)
Definition requirementOf (args : Arguments_) : string :=
  trim (String_ (js_or (arg_requirement args) (PStr ""))).

Definition participantsOf (args : Arguments_) : list ModelSpec :=
  collectParticipants 0
    (match arg_participants args with Some l => l | None => [] end).

Definition timeoutSecOf (args : Arguments_) : Z :=
  Number_or (arg_timeout_sec args) 180.

Definition temperatureOf (args : Arguments_) : Q :=
  temperature_or (arg_temperature args) (2 # 10).

Definition maxTokensOf (args : Arguments_) : Z :=
  Number_or (arg_max_tokens args) 2048.

Definition synthesisByOf (args : Arguments_) (first : ModelSpec) : string :=
  String_ (js_or (arg_synthesis_by args) (PStr (id first))).

Definition requirementMissing : ToolResult :=
  textResult "`requirement` is required." true.

Definition participantsMissing : ToolResult :=
  textResult "`participants` must include at least one valid model." true.

(** [participants.find((m) => m.id === synthesisBy) || participants[0]] *)
Definition synthModelOf (args : Arguments_) (first : ModelSpec)
           (participants : list ModelSpec) : ModelSpec :=
  match findById (synthesisByOf args first) participants with
  | Some m => m
  | None => first
  end.

(** [runBrainstorm] up to its [result] object: an early validation
    result, or the report the final [ToolResult] is printed from. *)
Definition brainstorm (rt : Runtime) (args : Arguments_)
  : GwProg (ToolResult + Report) :=
  let requirement := requirementOf args in
  if negb (nonEmpty requirement) then Ret (inl requirementMissing)
  else
    match participantsOf args with
    | [] => Ret (inl participantsMissing)
    | (first :: _) as participants =>
        let debateRounds := debateRoundsOf (arg_debate_rounds args) in
        let timeoutSec := timeoutSecOf args in
        let temperature := temperatureOf args in
        let maxTokens := maxTokensOf args in
        ('(proposals, errors) <-
           proposalStage requirement timeoutSec temperature maxTokens
                         participants [] [] ;;
         '(debates, errors) <-
           debateLoop rt requirement timeoutSec temperature maxTokens
                      (Z.to_nat debateRounds) 1 participants
                      proposals [] errors ;;
         let synthModel := synthModelOf args first participants in
         synth <- awaitCallModel synthModel
                    (synthPrompt rt requirement proposals debates)
                    timeoutSec temperature maxTokens ;;
         let errors :=
           if negb (Z.eqb (fst synth) 0)
           then (errors ++ [errorLine "synthesis" synthModel (fst synth)])
                  %list
           else errors in
         Ret (inr {|
           r_requirement := requirement;
           r_participants := map id participants;
           r_debate_rounds := debateRounds;
           r_synthesis_by := id synthModel;
           r_proposals := proposals;
           r_debates := debates;
           r_synthesis := snd synth;
           r_errors := errors
         |}))%prog
    end.

(** The [ToolResult] printed from a report. *)
Definition reportResult (rt : Runtime) (r : Report) : ToolResult :=
  mkToolResult [JSON_stringify rt (report_json r)]
               (0 <? List.length (r_errors r))%nat.

Definition runBrainstorm (rt : Runtime) (argumentsObj : Arguments_)
  : GwProg ToolResult :=
  (out <- brainstorm rt argumentsObj ;;
   Ret (match out with
        | inl invalid => invalid
        | inr result => reportResult rt result
        end))%prog.

Definition callTool (rt : Runtime) (name : string) (argumentsObj : Arguments_)
  : GwProg ToolResult :=
  if String.eqb name "model.one_shot" then
    let spec := toModelSpec (arg_model argumentsObj) "model_1" in
    let prompt :=
      trim (String_ (js_or (arg_prompt argumentsObj) (PStr ""))) in
    match spec with
    | Some spec =>
        if negb (nonEmpty prompt) then
          Ret (textResult "Invalid model or missing `prompt`." true)
        else
          let timeoutSec := timeoutSecOf argumentsObj in
          let temperature := temperatureOf argumentsObj in
          let maxTokens := maxTokensOf argumentsObj in
          (answer <- awaitCallModel spec prompt timeoutSec temperature
                                    maxTokens ;;
           Ret (textResult (snd answer) (negb (Z.eqb (fst answer) 0))))%prog
    | None => Ret (textResult "Invalid model or missing `prompt`." true)
    end
  else if String.eqb name "model.brainstorm" then
    runBrainstorm rt argumentsObj
  else
    Ret (textResult ("Unknown tool: " ++ name) true).

(** ** Running against a gateway *)

(** A gateway answers every call with [{ code, text }] and moves on to
    a new state: any deterministic environment, calls that depend on
    earlier ones included.  (A call that raises instead aborts the whole
    tool call; the properties of the orchestration are about gateways
    that answer.) *)
Definition Gateway (W : Type) : Type :=
  GatewayCall -> W -> (Z * string) * W.

(** The handler of a gateway. *)
Definition answering {W : Type} (g : Gateway W)
  : Handler (fun _ : GatewayCall => (Z * string)%type) W :=
  fun e w => let '(r, w') := g e w in (inr r, w').

(** An HTTP environment that answers every request. *)
Definition Network (rt : Runtime) (W : Type) : Type :=
  HttpRequest -> W -> HttpResult (RespJson rt) * W.

Definition serving {rt : Runtime} {W : Type} (net : Network rt W)
  : Handler (fun _ : HttpRequest => HttpResult (RespJson rt)) W :=
  fun e w => let '(r, w') := net e w in (inr r, w').

(** The gateway that [callModel] makes of an HTTP environment.  Under
    an environment that answers, [callModel] returns; the other branch
    is never taken. *)
Definition gatewayOver {rt : Runtime} {W : Type} (net : Network rt W)
  : Gateway W :=
  fun gc w =>
    match run (serving net)
              (callModel rt (gc_spec gc) (gc_prompt gc) (gc_timeoutSec gc)
                         (gc_temperature gc) (gc_maxTokens gc)) w with
    | (inr answer, w') => (answer, w')
    | (inl err, w') => ((1%Z, err), w')
    end.

(** The calls made so far, each with the answer it got. *)
Abbreviation Transcript := (list (GatewayCall * (Z * string))).

Definition recording {W : Type} (g : Gateway W)
  : Handler (fun _ : GatewayCall => (Z * string)%type) (W * Transcript) :=
  fun e s =>
    let '(r, w') := g e (fst s) in
    (inr r, (w', (snd s ++ [(e, r)])%list)).

(** What [forEachParticipant] has stored once the participants got the
    given answers, one each, in list order. *)
Fixpoint settleAll (label : string) (participants : list ModelSpec)
         (answers : list (Z * string)) (out : Obj) (errors : list string)
  : Obj * list string :=
  match participants, answers with
  | m :: rest, answer :: answers' =>
      let '(out', errors') := settle label m answer out errors in
      settleAll label rest answers' out' errors'
  | _, _ => (out, errors)
  end.

(** The previous stage's output with one participant's own entry
    removed, as the specification words it. *)
Definition removeEntry (modelId : string) (inputs : Obj) : Obj :=
  filter (fun kv => negb (String.eqb (fst kv) modelId)) inputs.

Section Calls.

Variables (rt : Runtime) (args : Arguments_).

Definition callOf (m : ModelSpec) (prompt : string) : GatewayCall :=
  mkGatewayCall m prompt (timeoutSecOf args) (temperatureOf args)
                (maxTokensOf args).

(** The proposal calls: one per participant, in list order. *)
Definition proposalCalls : list GatewayCall :=
  map (fun m => callOf m (proposalPrompt (requirementOf args)))
      (participantsOf args).

(** The critique calls of one round whose input pool is [inputs]: every
    participant is shown the pool without its own entry. *)
Definition critiqueCalls (inputs : Obj) : list GatewayCall :=
  map (fun m => callOf m (debatePrompt rt (requirementOf args)
                                       (removeEntry (id m) inputs)))
      (participantsOf args).

End Calls.

(** ** What the properties speak of *)

(** The error log only grows, and what a stage adds are error lines of
    its own participants. *)
Definition stageLines (label : string) (ps : list ModelSpec)
           (lines : list string) : Prop :=
  Forall (fun line => exists m code,
              In m ps /\ code <> 0%Z /\ line = errorLine label m code)
         lines.

(** Error lines of some stage, naming participants of [ps]. *)
Definition errorLines (ps : list ModelSpec) (lines : list string) : Prop :=
  Forall (fun line => exists label m code,
              In m ps /\ code <> 0%Z /\ line = errorLine label m code)
         lines.

(** A round as the debate loop leaves it: one entry per participant id. *)
Definition roundComplete (ps : list ModelSpec) (r : DebateRound) : Prop :=
  NoDup (keys (responses r))
  /\ forall k, In k (keys (responses r))
               <-> In k (map id ps) /\ k <> protoKey.

(** ** Example inputs *)

Definition participantA : jsval :=
  JObj [("id", PStr "A"); ("provider", PStr "openai"); ("model", PStr "m")].
Definition participantB : jsval :=
  JObj [("id", PStr "B"); ("provider", PStr "openai"); ("model", PStr "m")].

Definition demoArgs (raw : list jsval) (debate_rounds : option Z)
  : Arguments_ :=
  mkArguments (JPrim PUndefined) PUndefined (PStr "build it") (Some raw)
              debate_rounds PUndefined None None None.

(** A gateway that fails for participant B and answers the others. *)
Definition demoGateway : Gateway unit :=
  fun c w =>
    ((if String.eqb (id (gc_spec c)) "B" then 500%Z else 0%Z,
      "answer of " ++ id (gc_spec c)), w).


End ModelRouter.

(* ================================================================== *)
(** * Node's [path] module on POSIX                                    *)
(* ================================================================== *)

Module Path.

(** [normalizeString]: the segments that remain after [""] and ["."] are
    dropped and [".."] has removed the segment before it.  [stack] holds
    the segments kept so far, the last one first. *)
Fixpoint normalizeSegments (allowAboveRoot : bool) (stack : list string)
         (segments : list string) : list string :=
  match segments with
  | [] => List.rev stack
  | seg :: rest =>
      if String.eqb seg "" || String.eqb seg "." then
        normalizeSegments allowAboveRoot stack rest
      else if String.eqb seg ".." then
        match stack with
        | top :: below =>
            if String.eqb top ".."
            then normalizeSegments allowAboveRoot (seg :: stack) rest
            else normalizeSegments allowAboveRoot below rest
        | [] =>
            if allowAboveRoot
            then normalizeSegments allowAboveRoot [seg] rest
            else normalizeSegments allowAboveRoot [] rest
        end
      else normalizeSegments allowAboveRoot (seg :: stack) rest
  end.

Definition isAbsolute (p : string) : bool := startsWith p "/".

(** The right-to-left loop of [path.resolve]: [paths] comes last argument
    first and ends with the working directory of the process. *)
Fixpoint resolveLoop (paths : list string) (resolvedPath : string)
  : string * bool :=
  match paths with
  | [] => (resolvedPath, false)
  | p :: rest =>
      if nonEmpty p then
        let resolvedPath' := p ++ "/" ++ resolvedPath in
        if isAbsolute p then (resolvedPath', true)
        else resolveLoop rest resolvedPath'
      else resolveLoop rest resolvedPath
  end.

Section WithProcess.

(** [process.cwd()], an absolute path. *)
Variable process_cwd : string.

(** [path.resolve(...paths)] *)
Definition resolve (paths : list string) : string :=
  let '(resolvedPath, resolvedAbsolute) :=
    resolveLoop (List.rev paths ++ [process_cwd])%list "" in
  let normalized :=
    join "/" (normalizeSegments (negb resolvedAbsolute) []
                                (split "/" resolvedPath)) in
  if resolvedAbsolute then "/" ++ normalized
  else if nonEmpty normalized then normalized else ".".

(** The segments of a resolved path. *)
Definition segmentsOf (p : string) : list string :=
  filter nonEmpty (split "/" p).

(** What is left of two segment lists once their common beginning is
    removed. *)
Fixpoint dropCommon (from to : list string) : list string * list string :=
  match from, to with
  | f :: from', t :: to' =>
      if String.eqb f t then dropCommon from' to' else (from, to)
  | _, _ => (from, to)
  end.

(** [path.relative(from, to)]: one [".."] for every segment of [from]
    below the common ancestor, then the segments of [to] below it. *)
Definition relative (from to : string) : string :=
  if String.eqb from to then ""
  else
    let from' := resolve [from] in
    let to' := resolve [to] in
    if String.eqb from' to' then ""
    else
      let '(up, down) := dropCommon (segmentsOf from') (segmentsOf to') in
      join "/" (map (fun _ => "..") up ++ down)%list.

End WithProcess.

(** The segment right below the root is neither a name starting with
    [".."] nor an absolute path. *)
Definition firstSegmentPasses (down : list string) : bool :=
  match down with
  | [] => true
  | h :: _ => negb (startsWith h "..") && negb (isAbsolute h)
  end.

End Path.

(* ================================================================== *)
(** * claude-runner: the sandboxed execution bridge                    *)
(* ================================================================== *)

Module ClaudeRunner.

Definition DEFAULT_TIMEOUT_SEC : Z := 180.
Definition DEFAULT_MAX_FILE_CHARS : Z := 6000.

(** The value [runClaude] resolves to. *)
Record WorkerResult : Type := mkWorkerResult {
  exitCode : Z;
  stdout : string;
  stderr : string;
  timedOut : bool
}.

(** ** The subprocess, event by event *)

(** What the event loop delivers while [runClaude] is pending: the timer
    set by [setTimeout], data on the two pipes, and the [close] and
    [error] events of the child.  [Close None] is a [close] whose code is
    [null] (the child died from a signal). *)
Inductive ChildEvent : Type :=
| TimerFires
| StdoutData (chunk : string)
| StderrData (chunk : string)
| Close (code : option Z)
| Error (message : string).

Inductive Signal : Type := SIGKILL.

Record RunState : Type := mkRunState {
  st_timedOut : bool;
  st_timerArmed : bool;
  st_signals : list Signal;
  st_stdoutChunks : list string;
  st_stderrChunks : list string;
  st_settled : option WorkerResult
}.

(** The state once [spawn] returned and the timer is set. *)
Definition spawned : RunState :=
  mkRunState false true [] [] [] None.

(** [resolve(value)]: only the first call settles the promise. *)
Definition resolveWith (value : WorkerResult) (settled : option WorkerResult)
  : option WorkerResult :=
  match settled with
  | Some first => Some first
  | None => Some value
  end.

(** [code ?? 1] *)
Definition codeOr1 (code : option Z) : Z :=
  match code with Some c => c | None => 1%Z end.

(** One callback of [runClaude]. *)
Definition step (s : RunState) (ev : ChildEvent) : RunState :=
  match ev with
  | TimerFires =>
      if st_timerArmed s then
        mkRunState true false (st_signals s ++ [SIGKILL])%list
                   (st_stdoutChunks s) (st_stderrChunks s) (st_settled s)
      else s
  | StdoutData chunk =>
      mkRunState (st_timedOut s) (st_timerArmed s) (st_signals s)
                 (st_stdoutChunks s ++ [chunk])%list (st_stderrChunks s)
                 (st_settled s)
  | StderrData chunk =>
      mkRunState (st_timedOut s) (st_timerArmed s) (st_signals s)
                 (st_stdoutChunks s) (st_stderrChunks s ++ [chunk])%list
                 (st_settled s)
  | Close code =>
      mkRunState (st_timedOut s) false (st_signals s)
                 (st_stdoutChunks s) (st_stderrChunks s)
                 (resolveWith
                    (mkWorkerResult
                       (if st_timedOut s then 124%Z else codeOr1 code)
                       (String.concat "" (st_stdoutChunks s))
                       (String.concat "" (st_stderrChunks s))
                       (st_timedOut s))
                    (st_settled s))
  | Error message =>
      mkRunState (st_timedOut s) false (st_signals s)
                 (st_stdoutChunks s) (st_stderrChunks s)
                 (resolveWith (mkWorkerResult 1%Z "" message false)
                              (st_settled s))
  end.

(** [runClaude] after a sequence of events. *)
Definition runClaude (events : list ChildEvent) : RunState :=
  fold_left step events spawned.

(** An event that neither fires the timer nor settles the promise. *)
Definition isData (ev : ChildEvent) : bool :=
  match ev with
  | StdoutData _ | StderrData _ => true
  | _ => false
  end.

(** The data received on the two pipes, chunk after chunk. *)
Definition stdoutOf (events : list ChildEvent) : string :=
  String.concat ""
    (flat_map (fun ev => match ev with StdoutData c => [c] | _ => [] end)
              events).

Definition stderrOf (events : list ChildEvent) : string :=
  String.concat ""
    (flat_map (fun ev => match ev with StderrData c => [c] | _ => [] end)
              events).

(** ** The tools *)

Inductive BridgeEvent : Type :=
| ExistsSync (path : string)
| ReadFile (path : string)
| RunClaude (prompt cwd : string) (timeoutSec : Z).

(** [ReadFile] answers [None] when the promise of [readFile] rejects. *)
Definition BridgeAnswer (e : BridgeEvent) : Type :=
  match e with
  | ExistsSync _ => bool
  | ReadFile _ => option string
  | RunClaude _ _ _ => WorkerResult
  end.

Definition BridgeProg := Prog BridgeAnswer.

(** The [arguments] object of a [tools/call]. *)
Record Arguments_ : Type := mkArguments {
  arg_cwd : jsprim;
  arg_prompt : jsprim;
  arg_diff : jsprim;
  arg_task : jsprim;
  arg_context : jsprim;
  arg_context_files : option (list jsprim);
  arg_max_file_chars : option Z;
  arg_timeout_sec : option Z
}.

(** [s.slice(0, n)] for an integer [n]. *)
Definition slice0 (n : Z) (s : string) : string :=
  if (0 <=? n)%Z then substring 0 (Z.to_nat n) s
  else substring 0 (String.length s - Z.to_nat (- n)) s.

Definition formatRun (worker : WorkerResult) (cwd : string) : string :=
  join (String LF "")
    ["# Claude Runner Result";
     "";
     "- exit_code: " ++ String_Z (exitCode worker);
     "- timed_out: " ++ (if timedOut worker then "true" else "false");
     "- cwd: " ++ cwd;
     "- command: claude -p <prompt>";
     "";
     "## stdout";
     "";
     trim (stdout worker);
     "";
     "## stderr";
     "";
     trim (stderr worker);
     ""].

Section Bridge.

Variable process_cwd : string.

(** [parseAllowedRoots], given [process.env.CLAUDE_RUNNER_ALLOWED_ROOTS]. *)
Definition parseAllowedRoots (env : option string) : list string :=
  let raw := trim (match env with Some v => v | None => "" end) in
  let roots :=
    map (fun x => Path.resolve process_cwd [x])
        (filter nonEmpty (map trim (split "," raw))) in
  match roots with
  | [] => [Path.resolve process_cwd [process_cwd]]
  | _ => roots
  end.

Definition isUnder (root target : string) : bool :=
  let rel := Path.relative process_cwd root target in
  String.eqb rel ""
  || (negb (startsWith rel "..") && negb (Path.isAbsolute rel)).

(** [path.resolve(rawCwd || process.cwd())] *)
Definition resolveCwd (rawCwd : option string) : string :=
  Path.resolve process_cwd
    [orElse (match rawCwd with Some c => c | None => "" end)
            process_cwd].

(** [validateCwd]: [inr cwd] is [{ ok: true, cwd }], [inl error] is
    [{ ok: false, error }]. *)
Definition validateCwd (rawCwd : option string) (roots : list string)
  : string + string :=
  let cwd := resolveCwd rawCwd in
  if existsb (fun root => isUnder root cwd) roots then inr cwd
  else inl ("cwd '" ++ cwd ++ "' is outside allowed roots: "
              ++ join ", " roots).

(** [`\n[FILE: ${rel}]`] *)
Definition fileHeader (rel : string) : string :=
  String LF "" ++ "[FILE: " ++ rel ++ "]".

Fixpoint appendFiles (cwd : string) (files : list string) (maxChars : Z)
         (chunks : list string) : BridgeProg (list string) :=
  match files with
  | [] => Ret chunks
  | rel :: rest =>
      let full := Path.resolve process_cwd [cwd; rel] in
      (present <- call (R := BridgeAnswer) (ExistsSync full) ;;
       if negb present then
         appendFiles cwd rest maxChars
           (chunks ++ [fileHeader rel; "(missing)"])%list
       else
         read <- call (R := BridgeAnswer) (ReadFile full) ;;
         let content :=
           match read with Some c => c | None => "(read failed)" end in
         appendFiles cwd rest maxChars
           (chunks ++ [fileHeader rel; slice0 maxChars content])%list)%prog
  end.

Definition appendFilesContext (prompt cwd : string) (files : list string)
           (maxChars : Z) : BridgeProg string :=
  match files with
  | [] => Ret prompt
  | _ =>
      (chunks <- appendFiles cwd files maxChars
                   [prompt; ""; "Context files:"] ;;
       Ret (join (String LF "") chunks))%prog
  end.

(** [await runClaude(prompt, cwd, timeoutSec)] and the result built
    from it. *)
Definition runAndFormat (prompt cwd : string) (timeoutSec : Z)
  : BridgeProg ToolResult :=
  (run <- call (R := BridgeAnswer) (RunClaude prompt cwd timeoutSec) ;;
   Ret (textResult (formatRun run cwd)
                   (negb (Z.eqb (exitCode run) 0))))%prog.

Definition textOf (p : jsprim) : string :=
  trim (String_ (js_or p (PStr ""))).

(** [typeof argumentsObj.cwd === "string" ? argumentsObj.cwd : undefined] *)
Definition rawCwdOf (argumentsObj : Arguments_) : option string :=
  match arg_cwd argumentsObj with
  | PStr c => Some c
  | _ => None
  end.

Definition callTool (name : string) (argumentsObj : Arguments_)
           (roots : list string) : BridgeProg ToolResult :=
  match validateCwd (rawCwdOf argumentsObj) roots with
  | inl error => Ret (textResult error true)
  | inr cwd =>
      let timeoutSec :=
        Number_or (arg_timeout_sec argumentsObj) DEFAULT_TIMEOUT_SEC in
      if String.eqb name "claude.one_shot" then
        let prompt := textOf (arg_prompt argumentsObj) in
        if negb (nonEmpty prompt) then
          Ret (textResult "`prompt` is required." true)
        else
          let files :=
            match arg_context_files argumentsObj with
            | Some l => map String_ l
            | None => []
            end in
          let maxFileChars :=
            Number_or (arg_max_file_chars argumentsObj)
                      DEFAULT_MAX_FILE_CHARS in
          (fullPrompt <- appendFilesContext prompt cwd files
                                            maxFileChars ;;
           runAndFormat fullPrompt cwd timeoutSec)%prog
      else if String.eqb name "claude.review_diff" then
        let diff := textOf (arg_diff argumentsObj) in
        if negb (nonEmpty diff) then
          Ret (textResult "`diff` is required." true)
        else
          runAndFormat
            (join (String LF "")
               ["You are a strict code reviewer.";
                "Review the diff and output:";
                "1) Findings ordered by severity";
                "2) Open questions";
                "3) Regression risks";
                "";
                "Diff:";
                diff;
                ""])
            cwd timeoutSec
      else if String.eqb name "claude.generate_patch" then
        let task := textOf (arg_task argumentsObj) in
        let context := textOf (arg_context argumentsObj) in
        if negb (nonEmpty task) || negb (nonEmpty context) then
          Ret (textResult "`task` and `context` are required." true)
        else
          runAndFormat
            (join (String LF "")
               ["Generate a unified diff patch only.";
                "No markdown fences, no prose.";
                "";
                "Task:";
                task;
                "";
                "Context:";
                context;
                ""])
            cwd timeoutSec
      else
        Ret (textResult ("Unknown tool: " ++ name) true)
  end.

End Bridge.

(** A spawn happens in [cwd], and [cwd] lies under one of [roots]. *)
Definition spawnsUnder (pc : string) (roots : list string) (cwd : string)
           (e : BridgeEvent) : Prop :=
  match e with
  | RunClaude _ dir _ =>
      dir = cwd /\ existsb (fun root => isUnder pc root cwd) roots = true
  | _ => True
  end.


Definition outsideArgs : Arguments_ :=
  mkArguments (PStr "/workspace/../etc") (PStr "list the files")
              PUndefined PUndefined PUndefined None None None.

End ClaudeRunner.

(* ================================================================== *)
(** * JSON values at run time                                          *)
(* ================================================================== *)

Module Json.

(** [Boolean(v)] on a value that [JSON.parse] produced. *)
Definition isTruthy (v : json) : bool :=
  match v with
  | JNull => false
  | JBoolean b => b
  | JNumber z => negb (Z.eqb z 0)
  | JString s => nonEmpty s
  | JArray _ | JObject _ => true
  end.

(** [String(v)].  An array prints its elements separated by commas, a
    [null] element as nothing; an object prints as [[object Object]].
    Numbers are the integers, which print in decimal notation. *)
Fixpoint toString (v : json) : string :=
  match v with
  | JNull => "null"
  | JBoolean true => "true"
  | JBoolean false => "false"
  | JNumber z => String_Z z
  | JString s => s
  | JArray items =>
      join ","
        (map (fun item => match item with
                          | JNull => ""
                          | _ => toString item
                          end) items)
  | JObject _ => "[object Object]"
  end.

(** The own property [key] of a parsed object: the last of duplicated
    keys is the one [JSON.parse] keeps; [None] is [undefined]. *)
Fixpoint lookup (key : string) (fields : list (string * json))
  : option json :=
  match fields with
  | [] => None
  | (k, v) :: rest =>
      match lookup key rest with
      | Some later => Some later
      | None => if String.eqb k key then Some v else None
      end
  end.

(** [v.key] for the property names the servers read ([method], [id],
    [params], [name], [arguments], [choices], [content], [text], ...):
    none of them is a property of a string, a number, a boolean or an
    array, so only an object has them.  On [null] the access raises a
    [TypeError]; the callers below test for [null] first. *)
Definition get (key : string) (v : json) : option json :=
  match v with
  | JObject fields => lookup key fields
  | _ => None
  end.

(** [x || y], where [x] may be [undefined]. *)
Definition orDefault (x : option json) (y : json) : json :=
  match x with
  | Some v => if isTruthy v then v else y
  | None => y
  end.

(** [Array.isArray(x) ? x : []] *)
Definition arrayOrEmpty (x : option json) : list json :=
  match x with
  | Some (JArray items) => items
  | _ => []
  end.

(** [v && typeof v === "object"]: an array or an object. *)
Definition isObjectLike (v : json) : bool :=
  match v with
  | JArray _ | JObject _ => true
  | _ => false
  end.

(** A property whose value is [undefined] is left out when the object
    is written by [JSON.stringify]. *)
Definition optField (key : string) (value : option json)
  : list (string * json) :=
  match value with
  | Some v => [(key, v)]
  | None => []
  end.

(** The text of the [TypeError] that reading a property of [null]
    raises. *)
Definition nullAccess (key : string) : string :=
  "TypeError: Cannot read properties of null (reading '" ++ key ++ "')".

End Json.

(* ================================================================== *)
(** * Header blocks                                                    *)
(* ================================================================== *)

Module Headers.

Import Transport.

(** The key and the value a header line is stored under, if it is
    stored: the text before the first colon, which must not stand
    first, trimmed and in lower case, and the trimmed text after it. *)
Definition headerField (line : string) : option (string * string) :=
  match indexOf ":" line with
  | Some (S i) =>
      Some (toLowerCase (trim (sliceTo (S i) line)),
            trim (sliceFrom (S (S i)) line))
  | _ => None
  end.

Definition isContentLength (line : string) : bool :=
  match headerField line with
  | Some (key, _) => String.eqb key "content-length"
  | None => false
  end.

(** A header line on the wire: at least one character, all of them
    7-bit and neither CR nor LF. *)
Definition headerLine (line : string) : bool :=
  nonEmpty line && allChars isPlain line.

(** The text of header lines, each ended by CRLF. *)
Definition blockText (lines : list string) : string :=
  String.concat "" (map (fun line => line ++ CRLF) lines).

(** The bytes of a header block: the lines, then an empty line. *)
Definition headerBlock (lines : list string) : Buffer :=
  Buffer_from (blockText lines ++ CRLF).

End Headers.

(* ================================================================== *)
(** * The JSON-RPC skeleton (the same in both servers)                 *)
(* ================================================================== *)

Module Rpc.

Import Transport.

Definition SERVER_VERSION : string := "0.2.0".
Definition DEFAULT_PROTOCOL_VERSION : string := "2024-11-05".

Definition successResponse (id : option json) (result : json) : json :=
  JObject ([("jsonrpc", JString "2.0")] ++ Json.optField "id" id
           ++ [("result", result)])%list.

Definition errorResponse (id : option json) (code : Z) (message : string)
           (data : option json) : json :=
  let err :=
    JObject ([("code", JNumber code); ("message", JString message)]
             ++ Json.optField "data" data)%list in
  JObject ([("jsonrpc", JString "2.0")] ++ Json.optField "id" id
           ++ [("error", err)])%list.

Definition notification (method : string) (params : option json) : json :=
  JObject ([("jsonrpc", JString "2.0"); ("method", JString method)]
           ++ Json.optField "params" params)%list.

(** A [ToolResult] as it is written out. *)
Definition toolResult_json (r : ToolResult) : json :=
  JObject [("content",
            JArray (map (fun text => JObject [("type", JString "text");
                                              ("text", JString text)])
                        (content r)));
           ("isError", JBoolean (isError r))].

Section Server.

(** What differs between the two servers: the name, the tool list, and
    [callTool], any program over the server's effects that is given the
    tool name and the [arguments] object (for the execution bridge,
    with the allowed roots fixed at start-up). *)
Variable E : Type.
Variable R : E -> Type.
Variable SERVER_NAME : string.
Variable TOOLS : json.
Variable callTool : string -> json -> Prog R ToolResult.

(** [String(msg.method || "")] *)
Definition methodOf (msg : json) : string :=
  Json.toString (Json.orDefault (Json.get "method" msg) (JString "")).

(** [(msg.params as Json) || {}] *)
Definition paramsOf (msg : json) : json :=
  Json.orDefault (Json.get "params" msg) (JObject []).

(** [String(params.name || "")] *)
Definition toolNameOf (msg : json) : string :=
  Json.toString (Json.orDefault (Json.get "name" (paramsOf msg))
                                (JString "")).

(** [((params.arguments as Json) || {}) as Json] *)
Definition argumentsOf (msg : json) : json :=
  Json.orDefault (Json.get "arguments" (paramsOf msg)) (JObject []).

Definition initializeResult (params : json) : json :=
  JObject [("protocolVersion",
            Json.orDefault (Json.get "protocolVersion" params)
                           (JString DEFAULT_PROTOCOL_VERSION));
           ("capabilities",
            JObject [("tools", JObject [("listChanged", JBoolean false)])]);
           ("serverInfo",
            JObject [("name", JString SERVER_NAME);
                     ("version", JString SERVER_VERSION)])].

(** [handleRequest]: the response to write, or [None] for [null]. *)
Definition handleRequest (msg : json) : Prog R (option json) :=
  match msg with
  | JNull => Throw (Json.nullAccess "method")
  | _ =>
      let method := methodOf msg in
      let id := Json.get "id" msg in
      let params := paramsOf msg in
      if String.eqb method "initialize" then
        Ret (Some (successResponse id (initializeResult params)))
      else if String.eqb method "tools/list" then
        Ret (Some (successResponse id (JObject [("tools", TOOLS)])))
      else if String.eqb method "tools/call" then
        let name := toolNameOf msg in
        if negb (nonEmpty name) then
          Ret (Some (errorResponse id (-32602)
                       "Invalid params: missing tool name." None))
        else
          (result <- callTool name (argumentsOf msg) ;;
           Ret (Some (successResponse id (toolResult_json result))))%prog
      else if String.eqb method "ping" then
        Ret (Some (successResponse id (JObject [])))
      else if String.eqb method "notifications/initialized"
              || String.eqb method "initialized" then
        Ret None
      else
        match id with
        | Some _ =>
            Ret (Some (errorResponse id (-32601)
                         ("Method not found: " ++ method) None))
        | None => Ret None
        end
  end.

(** ** The loop of [main] *)

(** The environment of a run: the handler of the tools' effects with
    its state, the JSON codec of the runtime, the short reads of
    standard input, the text [String(err)] of the [SyntaxError] that
    [JSON.parse] raises while a message is read from the given input,
    and the [stack] of an error given by its text ([None] when the value
    raised is not an [Error]). *)
Variable W : Type.
Variable h : Handler R W.
Variable JSON_stringify : json -> Buffer.
Variable JSON_parse : Buffer -> option json.
Variable deliver : Buffer -> nat -> nat.
Variable syntaxErrorOf : Buffer -> string.
Variable stackOf : string -> option string.

(** [{ stack: err instanceof Error ? err.stack : undefined }] *)
Definition stackData (err : string) : json :=
  JObject (Json.optField "stack" (option_map JString (stackOf err))).

(** The body of the loop once a message is read: the messages written
    for it and the state it leaves. *)
Definition respond (msg : json) (w : W) : list json * W :=
  match run h (handleRequest msg) w with
  | (inr (Some response), w') => ([response], w')
  | (inr None, w') => ([], w')
  | (inl err, w') =>
      (match Json.get "id" msg with
       | Some id =>
           [errorResponse (Some id) (-32000) err (Some (stackData err))]
       | None => []
       end, w')
  end.

(** What a run of the loop leaves: the messages written, the state of
    the environment, and the input not read. *)
Record Served : Type := mkServed {
  written : list json;
  world : W;
  unread : Buffer
}.

(** [while (true) { ... }] of [main].  Every turn that goes on has read
    at least one byte, so [fuel] above the length of the input is never
    used up.  A [SyntaxError] of [JSON.parse] leaves the loop and
    [main]; the handler of [main().catch] then writes the error
    response with [id: null]. *)
Fixpoint serve (fuel : nat) (stdin : Buffer) (w : W) : option Served :=
  match fuel with
  | 0 => None
  | S fuel' =>
      match readMessageSync JSON_parse deliver stdin with
      | (NoMessage, rest) => Some (mkServed [] w rest)
      | (ParseThrows, rest) =>
          Some (mkServed [errorResponse (Some JNull) (-32000)
                                        (syntaxErrorOf stdin) None]
                         w rest)
      | (Message msg, rest) =>
          if negb (Json.isTruthy msg) then Some (mkServed [] w rest)
          else
            let '(replies, w') := respond msg w in
            match serve fuel' rest w' with
            | Some later =>
                Some (mkServed (replies ++ written later)%list
                               (world later) (unread later))
            | None => None
            end
      end
  end.

Definition ready : json :=
  notification "server/ready"
    (Some (JObject [("name", JString SERVER_NAME);
                    ("version", JString SERVER_VERSION)])).

(** The loop on the whole of standard input. *)
Definition loop (stdin : Buffer) (w : W) : option Served :=
  serve (S (List.length stdin)) stdin w.

(** [main]: the ready notification, then the loop. *)
Definition main (stdin : Buffer) (w : W) : option Served :=
  match loop stdin w with
  | Some s => Some (mkServed (ready :: written s) (world s) (unread s))
  | None => None
  end.

(** The bytes of a sequence of messages, each written by
    [writeMessage]. *)
Definition frames (messages : list json) : Buffer :=
  flat_map (writeMessage JSON_stringify) messages.

(** A message that comes through the codec and the [!msg] test of the
    loop. *)
Definition wellFormed (msg : json) : Prop :=
  Json.isTruthy msg = true
  /\ JSON_stringify msg <> []
  /\ JSON_parse (JSON_stringify msg) = Some msg.

(** The requests of a list answered one after the other. *)
Fixpoint respondAll (msgs : list json) (w : W) : list json * W :=
  match msgs with
  | [] => ([], w)
  | msg :: rest =>
      let '(replies, w') := respond msg w in
      let '(more, w'') := respondAll rest w' in
      ((replies ++ more)%list, w'')
  end.

End Server.

(** The names a tool list advertises. *)
Definition toolNames (tools : json) : list string :=
  flat_map (fun tool => match Json.get "name" tool with
                        | Some (JString name) => [name]
                        | _ => []
                        end)
           (Json.arrayOrEmpty (Some tools)).

(** Pieces of the input schemas. *)
Definition typed (t : string) : json := JObject [("type", JString t)].

Definition ranged (t : string) (lo hi : Z) : json :=
  JObject [("type", JString t); ("minimum", JNumber lo);
           ("maximum", JNumber hi)].

Definition strings (l : list string) : json := JArray (map JString l).

Definition objectSchema (properties : list (string * json))
           (required : list string) : json :=
  JObject [("type", JString "object");
           ("properties", JObject properties);
           ("required", strings required);
           ("additionalProperties", JBoolean false)].

Definition tool (name description : string) (inputSchema : json) : json :=
  JObject [("name", JString name); ("description", JString description);
           ("inputSchema", inputSchema)].

(** ** Example inputs *)

Definition quote : string := String (ascii_of_nat 34) "".

(** A printer of compact JSON text for the examples; strings are
    written without escapes. *)
Fixpoint print (v : json) : string :=
  match v with
  | JNull => "null"
  | JBoolean true => "true"
  | JBoolean false => "false"
  | JNumber z => String_Z z
  | JString s => quote ++ s ++ quote
  | JArray items => "[" ++ join "," (map print items) ++ "]"
  | JObject fields =>
      "{" ++ join ","
               (map (fun kv => quote ++ fst kv ++ quote ++ ":"
                               ++ print (snd kv)) fields)
          ++ "}"
  end.

(** The codec of the examples: a message is written by [print] and
    read back as the message of [corpus] that has this text. *)
Definition demoStringify (v : json) : Buffer := Buffer_from (print v).

Definition demoParse (corpus : list json) (body : Buffer) : option json :=
  find (fun m => String.eqb (print m) (string_of_list_ascii body)) corpus.

Definition request (id : Z) (method : string)
           (params : list (string * json)) : json :=
  JObject [("jsonrpc", JString "2.0"); ("id", JNumber id);
           ("method", JString method); ("params", JObject params)].

(** A tool whose run is one event, answered by the environment. *)
Definition ToolRun : Type := (string * json)%type.

Definition anyTool (name : string) (args : json)
  : Prog (fun _ : ToolRun => ToolResult) ToolResult :=
  call (R := fun _ : ToolRun => ToolResult) (name, args).

(** An environment in which the tool [boom] raises and the tool [fail]
    returns an error result; the state counts the runs. *)
Definition demoTools : Handler (fun _ : ToolRun => ToolResult) nat :=
  fun e n =>
    if String.eqb (fst e) "boom" then (inl "Error: boom", S n)
    else (inr (textResult ("ran " ++ fst e) (String.eqb (fst e) "fail")),
          S n).

(** Three requests, the second for the tool that raises. *)
Definition demoRequests : list json :=
  [request 1 "initialize" [];
   request 2 "tools/call" [("name", JString "boom")];
   request 3 "ping" []].

(** The messages the example codec reads back. *)
Definition demoCorpus : list json := (JNull :: demoRequests)%list.

(** The text of the [SyntaxError] in the examples, and errors without a
    stack. *)
Definition demoSyntaxError (stdin : Buffer) : string :=
  "SyntaxError: Unexpected token".

Definition demoStack (err : string) : option string := None.

End Rpc.

(* ================================================================== *)
(** * model-router: the tool list, HTTP replies and their text         *)
(* ================================================================== *)

Module ModelRouterServer.

Import Rpc.

Definition SERVER_NAME : string := "model-router".

Definition modelProperties : list (string * json) :=
  [("id", typed "string");
   ("provider",
    JObject [("type", JString "string");
             ("enum", strings ["openai"; "anthropic"; "gemini"; "custom"])]);
   ("model", typed "string");
   ("api_url", typed "string");
   ("api_key", typed "string");
   ("system_prompt", typed "string")].

Definition TOOLS : json :=
  JArray
    [tool "model.one_shot"
          "Run one prompt against a selected provider/model."
          (objectSchema
             [("model", objectSchema modelProperties ["provider"; "model"]);
              ("prompt", typed "string");
              ("timeout_sec", ranged "integer" 1 3600);
              ("temperature", typed "number");
              ("max_tokens", ranged "integer" 1 8192)]
             ["model"; "prompt"]);
     tool "model.brainstorm"
          "Run multi-model brainstorm + debate rounds + synthesis model selection."
          (objectSchema
             [("requirement", typed "string");
              ("participants",
               JObject [("type", JString "array");
                        ("items",
                         objectSchema modelProperties
                                      ["id"; "provider"; "model"])]);
              ("debate_rounds", ranged "integer" 0 5);
              ("synthesis_by", typed "string");
              ("timeout_sec", ranged "integer" 1 3600);
              ("temperature", typed "number");
              ("max_tokens", ranged "integer" 1 8192)]
             ["requirement"; "participants"])].

(** ** [httpPostJson], callback by callback *)

(** An [Error] object, and [String(err)] as [Error.prototype.toString]
    prints it. *)
Record JsError : Type := mkJsError {
  e_name : string;
  e_message : string
}.

Definition String_error (err : JsError) : string :=
  if nonEmpty (e_name err) then
    if nonEmpty (e_message err)
    then e_name err ++ ": " ++ e_message err
    else e_name err
  else e_message err.

(** What the event loop delivers once the request is created: the
    response callback with [res.statusCode] ([None] when it is
    [undefined]), the [data] and [end] events of the response, the
    [error] event of the request, and the callback of
    [req.setTimeout]. *)
Inductive HttpEvent : Type :=
| ResponseArrives (statusCode : option Z)
| ResData (chunk : string)
| ResEnd
| ReqError (err : JsError)
| IdleTimeout.

Section HttpPostJson.

(** [JSON.parse] on the text of a body, [None] when it throws. *)
Variable JSON_parse : string -> option json.
Variable timeoutSec : Z.

(** [hs_response] holds [res.statusCode] once the response callback
    ran; [hs_destroyed] the error the request was destroyed with. *)
Record HttpState : Type := mkHttpState {
  hs_response : option (option Z);
  hs_chunks : list string;
  hs_destroyed : option JsError;
  hs_settled : option (ModelRouter.HttpResult json)
}.

Definition requested : HttpState := mkHttpState None [] None None.

(** [resolve(value)]: only the first call settles the promise. *)
Definition resolveWith (value : ModelRouter.HttpResult json)
           (settled : option (ModelRouter.HttpResult json))
  : option (ModelRouter.HttpResult json) :=
  match settled with
  | Some first => Some first
  | None => Some value
  end.

(** [parsed] in the [end] handler: the parsed body, or [{}] when the
    body is empty or [JSON.parse] throws. *)
Definition parsedOf (raw : string) : json :=
  if nonEmpty raw then
    match JSON_parse raw with
    | Some v => v
    | None => JObject []
    end
  else JObject [].

(** [new Error(`Request timed out after ${timeoutSec}s`)] *)
Definition timedOutError : JsError :=
  mkJsError "Error"
            ("Request timed out after " ++ String_Z timeoutSec ++ "s").

(** One callback of [httpPostJson]. *)
Definition httpStep (s : HttpState) (ev : HttpEvent) : HttpState :=
  match ev with
  | ResponseArrives statusCode =>
      mkHttpState (Some statusCode) [] (hs_destroyed s) (hs_settled s)
  | ResData chunk =>
      match hs_response s with
      | Some _ =>
          mkHttpState (hs_response s) (hs_chunks s ++ [chunk])%list
                      (hs_destroyed s) (hs_settled s)
      | None => s
      end
  | ResEnd =>
      match hs_response s with
      | Some statusCode =>
          let raw := String.concat "" (hs_chunks s) in
          mkHttpState (hs_response s) (hs_chunks s) (hs_destroyed s)
            (resolveWith
               (ModelRouter.mkHttpResult (Number_or statusCode 0)
                                         (parsedOf raw) raw)
               (hs_settled s))
      | None => s
      end
  | ReqError err =>
      mkHttpState (hs_response s) (hs_chunks s) (hs_destroyed s)
        (resolveWith
           (ModelRouter.mkHttpResult 0%Z (JObject [])
              (orElse (e_message err) (String_error err)))
           (hs_settled s))
  | IdleTimeout =>
      mkHttpState (hs_response s) (hs_chunks s)
        (match hs_destroyed s with
         | Some first => Some first
         | None => Some timedOutError
         end)
        (hs_settled s)
  end.

(** [httpPostJson] after a sequence of events. *)
Definition httpPostJson (events : list HttpEvent) : HttpState :=
  fold_left httpStep events requested.

End HttpPostJson.

(** The [data] events of a response. *)
Definition isResData (ev : HttpEvent) : bool :=
  match ev with
  | ResData _ => true
  | _ => false
  end.

Definition bodyOf (events : list HttpEvent) : string :=
  String.concat ""
    (flat_map (fun ev => match ev with ResData c => [c] | _ => [] end)
              events).

(** ** The text of a reply *)

Section Extract.

(** [JSON.stringify(resp, null, 2)] *)
Variable stringify : json -> string.

(** The chunk an item of a [content] or [parts] array contributes:
    [item && typeof item === "object" && typeof item.text === "string"]. *)
Definition textChunk (item : json) : list string :=
  if Json.isObjectLike item then
    match Json.get "text" item with
    | Some (JString text) => [text]
    | _ => []
    end
  else [].

(** The same for a block of an Anthropic reply, which must also have
    [type === "text"]. *)
Definition textBlockChunk (item : json) : list string :=
  if Json.isObjectLike item then
    match Json.get "type" item, Json.get "text" item with
    | Some (JString "text"), Some (JString text) => [text]
    | _, _ => []
    end
  else [].

(** [String(content ?? "")] for a [content] that is neither a string nor
    an array. *)
Definition contentToString (content : option json) : string :=
  match content with
  | None | Some JNull => ""
  | Some v => Json.toString v
  end.

(** The three extractors; [None] is the [TypeError] raised on a reply
    that is [null]. *)
Definition extractOpenAIText (resp : json) : option string :=
  match resp with
  | JNull => None
  | _ =>
      let choices := Json.arrayOrEmpty (Json.get "choices" resp) in
      match choices with
      | first :: _ =>
          if Json.isObjectLike first then
            let message := Json.get "message" first in
            let content :=
              match message with
              | None | Some JNull => None
              | Some m => Json.get "content" m
              end in
            match content with
            | Some (JString text) => Some text
            | Some (JArray items) =>
                Some (join ModelRouter.LFs (flat_map textChunk items))
            | _ => Some (contentToString content)
            end
          else Some (stringify resp)
      | [] => Some (stringify resp)
      end
  end.

Definition extractAnthropicText (resp : json) : option string :=
  match resp with
  | JNull => None
  | _ =>
      let content := Json.arrayOrEmpty (Json.get "content" resp) in
      let chunks := flat_map textBlockChunk content in
      Some (orElse (trim (join ModelRouter.LFs chunks)) (stringify resp))
  end.

Definition extractGeminiText (resp : json) : option string :=
  match resp with
  | JNull => None
  | _ =>
      let candidates := Json.arrayOrEmpty (Json.get "candidates" resp) in
      match candidates with
      | first :: _ =>
          if Json.isObjectLike first then
            let content :=
              Json.orDefault (Json.get "content" first) (JObject []) in
            let parts := Json.arrayOrEmpty (Json.get "parts" content) in
            let chunks := flat_map textChunk parts in
            Some (orElse (trim (join ModelRouter.LFs chunks)) (stringify resp))
          else Some (stringify resp)
      | [] => Some (stringify resp)
      end
  end.

(** ** [callModel] with these extractors *)

(** What [callModel] returns once the text is extracted; an extractor
    that raises makes [callModel] raise. *)
Definition extracted {E : Type} {R : E -> Type} (key : string)
           (text : option string) : Prog R (Z * string) :=
  match text with
  | Some t => Ret (0%Z, t)
  | None => Throw (Json.nullAccess key)
  end.

(** [callModel], the reply being the [{ status, parsed, raw }] that
    [httpPostJson] resolves to, with [parsed] a JSON value.  The request
    is the one [ModelRouter.buildRequest] builds. *)
Definition callModel (spec : ModelRouter.ModelSpec) (prompt : string)
           (timeoutSec : Z) (temperature : Q) (maxTokens : Z)
  : Prog (fun _ : ModelRouter.HttpRequest => ModelRouter.HttpResult json)
         (Z * string) :=
  match ModelRouter.buildRequest spec prompt temperature maxTokens with
  | inl early => Ret early
  | inr (url, payload, headers) =>
      (result <- call (R := fun _ : ModelRouter.HttpRequest =>
                              ModelRouter.HttpResult json)
                      (ModelRouter.mkHttpRequest url payload headers
                                                 timeoutSec) ;;
       if (400 <=? ModelRouter.status result)%Z
          || (ModelRouter.status result =? 0)%Z then
         Ret (if (ModelRouter.status result =? 0)%Z then 1%Z
              else ModelRouter.status result,
              ModelRouter.raw result)
       else if ModelRouter.isProvider spec "openai"
               || ModelRouter.isProvider spec "custom" then
         extracted "choices"
                   (extractOpenAIText (ModelRouter.parsed result))
       else if ModelRouter.isProvider spec "anthropic" then
         extracted "content"
                   (extractAnthropicText (ModelRouter.parsed result))
       else
         extracted "candidates"
                   (extractGeminiText (ModelRouter.parsed result)))%prog
  end.

End Extract.

End ModelRouterServer.

(* ================================================================== *)
(** * claude-runner: the tool list                                     *)
(* ================================================================== *)

Module ClaudeRunnerServer.

Import Rpc.

Definition SERVER_NAME : string := "claude-runner".

Definition TOOLS : json :=
  JArray
    [tool "claude.one_shot"
          "Run a one-shot prompt with `claude -p` and return stdout/stderr metadata."
          (objectSchema
             [("prompt", typed "string");
              ("cwd", typed "string");
              ("timeout_sec", ranged "integer" 1 3600);
              ("context_files",
               JObject [("type", JString "array");
                        ("items", typed "string")]);
              ("max_file_chars", ranged "integer" 100 50000)]
             ["prompt"]);
     tool "claude.review_diff"
          "Review a unified diff and report findings by severity."
          (objectSchema
             [("diff", typed "string");
              ("cwd", typed "string");
              ("timeout_sec", ranged "integer" 1 3600)]
             ["diff"]);
     tool "claude.generate_patch"
          "Generate a unified diff patch from context and instructions."
          (objectSchema
             [("task", typed "string");
              ("context", typed "string");
              ("cwd", typed "string");
              ("timeout_sec", ranged "integer" 1 3600)]
             ["task"; "context"])].

End ClaudeRunnerServer.

(* ================================================================== *)
(** * What the added properties speak of                               *)
(* ================================================================== *)

Module Observe.

(** The first event a program issues, if it issues any. *)
Definition firstEvent {E : Type} {R : E -> Type} {A : Type}
           (p : Prog R A) : option E :=
  match p with
  | Vis e _ => Some e
  | _ => None
  end.

(** The same model with another API key. *)
Definition withKey (spec : ModelRouter.ModelSpec) (key : string)
  : ModelRouter.ModelSpec :=
  ModelRouter.mkModelSpec (ModelRouter.id spec) (ModelRouter.provider spec)
                          (ModelRouter.model spec)
                          (ModelRouter.api_url spec) key
                          (ModelRouter.system_prompt spec).

(** A character that [encodeURIComponent] lets through or produces. *)
Definition uriSafe (c : ascii) : bool :=
  ModelRouter.uri_unreserved c || Ascii.eqb c "%".

(** The calls of a transcript that were answered with a nonzero code. *)
Definition failures (tr : list (ModelRouter.GatewayCall * (Z * string)))
  : list (ModelRouter.GatewayCall * (Z * string)) :=
  filter (fun entry => negb (Z.eqb (fst (snd entry)) 0)) tr.

End Observe.

(* ================================================================== *)
(** * What the properties of the bridge speak of                       *)
(* ================================================================== *)

Module Sandbox.

Import Path ClaudeRunner.

(** A segment of a normalized path: a name that is neither empty nor
    [.] nor [..] and holds no slash. *)
Definition plainSegment (s : string) : bool :=
  nonEmpty s && negb (String.eqb s ".") && negb (String.eqb s "..")
  && allChars (fun c => negb (Ascii.eqb c "/")) s.

(** An absolute, normalized path: a slash, then plain segments
    separated by single slashes. *)
Definition canonical (p : string) : Prop :=
  exists segments,
    p = "/" ++ join "/" segments
    /\ forallb plainSegment segments = true.

(** No slash in a string. *)
Definition noSlash (s : string) : bool :=
  allChars (fun c => negb (Ascii.eqb c "/")) s.

(** A spawn as the bridge allows it: in the resolved working directory
    of the call, a normalized path under one of the roots, and with the
    timeout of the call. *)
Definition confinedSpawn (pc : string) (roots : list string)
           (args : Arguments_) (e : BridgeEvent) : Prop :=
  match e with
  | RunClaude _ dir timeoutSec =>
      dir = resolveCwd pc (rawCwdOf args)
      /\ canonical dir
      /\ (exists root, In root roots /\ isUnder pc root dir = true)
      /\ timeoutSec = Number_or (arg_timeout_sec args) DEFAULT_TIMEOUT_SEC
  | _ => True
  end.

(** A file-system event looks at one of the listed files, taken
    relative to [cwd]. *)
Definition readsListed (pc cwd : string) (files : list string)
           (e : BridgeEvent) : Prop :=
  match e with
  | ExistsSync path | ReadFile path =>
      exists rel, In rel files /\ path = resolve pc [cwd; rel]
  | RunClaude _ _ _ => True
  end.


(** An environment that answers every event of the bridge: the file
    system and the subprocess, with any state of its own. *)
Definition BridgeEnv (W : Type) : Type :=
  forall e : BridgeEvent, W -> BridgeAnswer e * W.

(** Its handler, which also keeps the list of the events answered. *)
Definition recordingEnv {W : Type} (env : BridgeEnv W)
  : Handler BridgeAnswer (W * list BridgeEvent) :=
  fun e s =>
    let '(r, w') := env e (fst s) in
    (inr r, (w', (snd s ++ [e])%list)).

(** Example: a file system with one file outside the workspace, and a
    subprocess that prints its prompt. *)
Definition demoEnv : BridgeEnv unit :=
  fun e w =>
    match e return BridgeAnswer e * unit with
    | ExistsSync path => (String.eqb path "/etc/passwd", w)
    | ReadFile path =>
        (if String.eqb path "/etc/passwd" then Some "root:x:0:0"
         else None, w)
    | RunClaude prompt cwd timeoutSec =>
        (mkWorkerResult 0 prompt "" false, w)
    end.

(** Example: a one-shot call in the workspace that lists a file outside
    of it. *)
Definition passwdArgs : Arguments_ :=
  mkArguments (PStr "/workspace") (PStr "summarise") PUndefined PUndefined
              PUndefined (Some [PStr "/etc/passwd"]) None None.

End Sandbox.

(* ================================================================== *)
(** * Properties of the framed transport                               *)
(* ================================================================== *)

Unset Implicit Arguments.

Module TransportFacts.

Import Transport.

(** ** Strings *)

Lemma allChars_app f s t :
  allChars f (s ++ t) = allChars f s && allChars f t.
Proof.
  induction s as [|c s IH]; simpl; [reflexivity|].
  now rewrite IH, andb_assoc.
Qed.

Lemma allChars_weaken (f g : ascii -> bool) s :
  (forall c, f c = true -> g c = true) ->
  allChars f s = true -> allChars g s = true.
Proof.
  intros Hfg. induction s as [|c s IH]; simpl; [reflexivity|].
  intros H. apply andb_true_iff in H as [Hc Hs].
  now rewrite (Hfg _ Hc), IH.
Qed.

Lemma isDigit_plain c : isDigit c = true -> isPlain c = true.
Proof. destruct c as [[] [] [] [] [] [] [] []]; vm_compute; congruence. Qed.

Lemma isDigit_not_space c : isDigit c = true -> is_space c = false.
Proof. destruct c as [[] [] [] [] [] [] [] []]; vm_compute; congruence. Qed.

Lemma string_of_uint_digits d :
  allChars isDigit (NilEmpty.string_of_uint d) = true.
Proof. induction d; simpl; auto. Qed.

Lemma String_nat_digits n : allChars isDigit (String_nat n) = true.
Proof.
  unfold String_nat, NilZero.string_of_uint.
  destruct (Nat.to_uint n); try reflexivity;
    apply (string_of_uint_digits (_ _)).
Qed.

Lemma String_nat_nonEmpty n : nonEmpty (String_nat n) = true.
Proof.
  unfold String_nat, NilZero.string_of_uint.
  destruct (Nat.to_uint n); reflexivity.
Qed.

Lemma Number_of_String_nat n : Number_of_string (String_nat n) = Some n.
Proof.
  unfold Number_of_string, String_nat.
  destruct (Nat.to_uint n) eqn:E;
    [ simpl; f_equal;
      rewrite <- (DecimalNat.Unsigned.of_to n), E; reflexivity
    | rewrite NilZero.usu by discriminate; simpl; f_equal;
      rewrite <- E; apply DecimalNat.Unsigned.of_to .. ].
Qed.

Lemma trimStart_id s :
  allChars (fun c => negb (is_space c)) s = true -> trimStart s = s.
Proof.
  destruct s as [|c s]; simpl; [reflexivity|].
  intros H. apply andb_true_iff in H as [Hc _].
  apply negb_true_iff in Hc. now rewrite Hc.
Qed.

Lemma trimEnd_id s :
  allChars (fun c => negb (is_space c)) s = true -> trimEnd s = s.
Proof.
  induction s as [|c s IH]; simpl; [reflexivity|].
  intros H. apply andb_true_iff in H as [Hc Hs].
  apply negb_true_iff in Hc. rewrite (IH Hs), Hc.
  destruct s; reflexivity.
Qed.

Lemma loa_app s t :
  list_ascii_of_string (s ++ t)
  = (list_ascii_of_string s ++ list_ascii_of_string t)%list.
Proof. induction s as [|c s IH]; simpl; [reflexivity|]. now rewrite IH. Qed.

Lemma append_assoc (s t u : string) : (s ++ t) ++ u = s ++ (t ++ u).
Proof. induction s as [|c s IH]; simpl; [reflexivity|]. now rewrite IH. Qed.

Lemma append_nil_r (s : string) : s ++ "" = s.
Proof. induction s as [|c s IH]; simpl; [reflexivity|]. now rewrite IH. Qed.

Lemma loa_inj s t :
  list_ascii_of_string s = list_ascii_of_string t -> s = t.
Proof.
  intros H. rewrite <- (string_of_list_ascii_of_string s),
    <- (string_of_list_ascii_of_string t). now rewrite H.
Qed.

Lemma substring_split s : forall k,
  k <= String.length s ->
  s = substring 0 k s ++ substring k (String.length s - k) s.
Proof.
  induction s as [|c s IH]; intros [|k] Hk; simpl in *;
    try reflexivity; try lia.
  - f_equal. clear. induction s as [|d s IH]; simpl; [reflexivity|].
    now f_equal.
  - f_equal. apply IH. lia.
Qed.

Lemma endsWith_true s p :
  endsWith s p = true -> exists t, s = t ++ p.
Proof.
  unfold endsWith. intros H. apply andb_true_iff in H as [Hle Heq].
  apply Nat.leb_le in Hle. apply String.eqb_eq in Heq.
  set (k := String.length s - String.length p).
  exists (substring 0 k s).
  rewrite (substring_split s k) at 1 by (unfold k; lia).
  f_equal.
  replace (String.length s - k) with (String.length p)
    by (unfold k; lia).
  exact Heq.
Qed.

Lemma endsWith_last s c p d :
  c <> d -> endsWith (s ++ String c "") (p ++ String d "") = false.
Proof.
  intros Hcd. destruct (endsWith _ _) eqn:E; [|reflexivity].
  apply endsWith_true in E as [t E].
  apply (f_equal list_ascii_of_string) in E.
  rewrite <- append_assoc, !loa_app in E. simpl in E.
  apply app_inj_tail in E as [_ E]. contradiction.
Qed.

(** ** The header loop *)

Lemma isPlain_decode c : isPlain c = true -> ascii_decode c = c.
Proof.
  unfold isPlain. intros H.
  apply andb_true_iff in H as [H _]. apply andb_true_iff in H as [H _].
  now apply Ascii.eqb_eq.
Qed.

Lemma isPlain_not_LF c : isPlain c = true -> c <> LF.
Proof.
  unfold isPlain. intros H. apply andb_true_iff in H as [_ H].
  apply negb_true_iff in H. now apply Ascii.eqb_neq.
Qed.

Lemma isPlain_not_CR c : isPlain c = true -> c <> CR.
Proof.
  unfold isPlain. intros H.
  apply andb_true_iff in H as [H _]. apply andb_true_iff in H as [_ H].
  apply negb_true_iff in H. now apply Ascii.eqb_neq.
Qed.

Lemma readHeader_cons headerRaw b rest :
  readHeader headerRaw (b :: rest)
  = if endsWith (headerRaw ++ String (ascii_decode b) "") CRLFCRLF
    then (Some (headerRaw ++ String (ascii_decode b) ""), rest)
    else readHeader (headerRaw ++ String (ascii_decode b) "") rest.
Proof. reflexivity. Qed.

Lemma readHeader_skip headerRaw b rest :
  ascii_decode b = b -> b <> LF ->
  readHeader headerRaw (b :: rest)
  = readHeader (headerRaw ++ String b "") rest.
Proof.
  intros Hd Hb. rewrite readHeader_cons, Hd.
  unfold CRLFCRLF. now rewrite endsWith_last.
Qed.

Lemma readHeader_plain line : forall headerRaw tail,
  allChars isPlain line = true ->
  readHeader headerRaw (Buffer_from line ++ tail)%list
  = readHeader (headerRaw ++ line) tail.
Proof.
  induction line as [|c line IH]; intros headerRaw tail H.
  - simpl. now rewrite append_nil_r.
  - cbn [allChars] in H. apply andb_true_iff in H as [Hc Hl].
    change (Buffer_from (String c line) ++ tail)%list
      with (c :: (Buffer_from line ++ tail))%list.
    rewrite readHeader_skip
      by (now apply isPlain_decode || now apply isPlain_not_LF).
    rewrite IH by assumption.
    now rewrite append_assoc.
Qed.

Lemma plain_no_LF s : allChars isPlain s = true ->
  ~ In LF (list_ascii_of_string s).
Proof.
  induction s as [|c s IH]; simpl; [tauto|].
  intros H [E|E]; apply andb_true_iff in H as [Hc Hs].
  - now apply (isPlain_not_LF _ Hc).
  - now apply IH.
Qed.

Lemma length_append s t :
  String.length (s ++ t) = String.length s + String.length t.
Proof. induction s; simpl; auto. Qed.

Lemma endsWith_append s p : endsWith (s ++ p) p = true.
Proof.
  unfold endsWith. rewrite length_append.
  apply andb_true_iff. split; [apply Nat.leb_le; lia|].
  apply String.eqb_eq.
  replace (String.length s + String.length p - String.length p)
    with (String.length s) by lia.
  induction s as [|c s IH]; simpl; [|exact IH].
  clear. induction p as [|c p IH]; simpl; [reflexivity|].
  destruct p; now f_equal.
Qed.

Lemma readHeader_frame line tail :
  allChars isPlain line = true ->
  readHeader "" (Buffer_from (line ++ CRLF ++ CRLF) ++ tail)%list
  = (Some (line ++ CRLF ++ CRLF), tail).
Proof.
  intros H. unfold Buffer_from. rewrite loa_app, <- app_assoc.
  fold (Buffer_from line). rewrite (readHeader_plain line "" _ H).
  change (list_ascii_of_string (CRLF ++ CRLF) ++ tail)%list
    with (CR :: LF :: CR :: LF :: tail).
  change ("" ++ line) with line.
  rewrite readHeader_skip by (reflexivity || discriminate).
  (* CR LF: the text read so far would have to hold an LF *)
  rewrite readHeader_cons.
  change (ascii_decode LF) with LF.
  assert (E2 : endsWith ((line ++ String CR "") ++ String LF "") CRLFCRLF
               = false).
  { destruct (endsWith _ _) eqn:E; [|reflexivity].
    apply endsWith_true in E as [t E].
    apply (f_equal list_ascii_of_string) in E.
    rewrite !loa_app in E.
    change (list_ascii_of_string CRLFCRLF)
      with ([CR; LF] ++ [CR] ++ [LF])%list in E.
    change (list_ascii_of_string (String CR "")) with [CR] in E.
    change (list_ascii_of_string (String LF "")) with [LF] in E.
    rewrite !app_assoc in E.
    apply app_inv_tail in E. apply app_inv_tail in E.
    exfalso. apply (plain_no_LF line H). rewrite E.
    apply in_or_app. right. simpl. auto. }
  rewrite E2.
  rewrite readHeader_skip by (reflexivity || discriminate).
  rewrite readHeader_cons.
  change (ascii_decode LF) with LF.
  replace ((((line ++ String CR "") ++ String LF "") ++ String CR "")
             ++ String LF "")
    with (line ++ CRLFCRLF) by (now rewrite !append_assoc).
  now rewrite endsWith_append.
Qed.

(** ** Header parsing *)

Lemma split_from_plain sep0 sep line : forall cur tail,
  allChars (fun c => negb (Ascii.eqb c sep0)) line = true ->
  split_from (String sep0 sep) 0 cur (line ++ tail)
  = split_from (String sep0 sep) 0 (cur ++ line) tail.
Proof.
  induction line as [|c line IH]; intros cur tail H; simpl.
  - now rewrite append_nil_r.
  - apply andb_true_iff in H as [Hc Hl].
    apply negb_true_iff in Hc. rewrite Ascii.eqb_sym in Hc.
    destruct (Ascii.ascii_dec sep0 c) as [->|Hne].
    + now rewrite Ascii.eqb_refl in Hc.
    + rewrite IH by assumption. now rewrite append_assoc.
Qed.

Lemma split_from_frame_end cur :
  split_from CRLF 0 cur (CRLF ++ CRLF) = [cur; ""; ""].
Proof. reflexivity. Qed.

Lemma parseHeaderLine_frame digits :
  allChars isDigit digits = true ->
  parseHeaderLine [] ("Content-Length: " ++ digits)
  = [("content-length", digits)].
Proof.
  intros Hd. unfold parseHeaderLine.
  change (indexOf ":" ("Content-Length: " ++ digits)) with (Some 14).
  cbv beta iota.
  change (sliceTo 14 ("Content-Length: " ++ digits))
    with "Content-Length".
  change (sliceFrom 15 ("Content-Length: " ++ digits))
    with (String " " digits).
  change (toLowerCase (trim "Content-Length")) with "content-length".
  unfold header_set, trim.
  change (String.eqb "content-length" "__proto__") with false.
  cbv iota.
  change (trimStart (String " " digits)) with (trimStart digits).
  assert (Hns : allChars (fun c => negb (is_space c)) digits = true).
  { apply (allChars_weaken isDigit); [|assumption].
    intros c Hc. apply negb_true_iff. now apply isDigit_not_space. }
  now rewrite (trimStart_id _ Hns), (trimEnd_id _ Hns).
Qed.

Lemma parseHeaders_frame digits :
  allChars isDigit digits = true -> nonEmpty digits = true ->
  parseHeaders ("Content-Length: " ++ digits ++ CRLF ++ CRLF)
  = [("content-length", digits)].
Proof.
  intros Hd Hne. unfold parseHeaders, split.
  replace ("Content-Length: " ++ digits ++ CRLF ++ CRLF)
    with (("Content-Length: " ++ digits) ++ CRLF ++ CRLF)
    by apply append_assoc.
  unfold CRLF at 1.
  rewrite (split_from_plain CR (String LF "")
             ("Content-Length: " ++ digits) "").
  2:{ rewrite allChars_app. apply andb_true_iff. split; [reflexivity|].
      apply (allChars_weaken isDigit); [|assumption].
      intros c Hc. apply negb_true_iff, Ascii.eqb_neq.
      apply isPlain_not_CR. now apply isDigit_plain. }
  fold CRLF. rewrite split_from_frame_end.
  change (filter nonEmpty ["" ++ "Content-Length: " ++ digits; ""; ""])
    with ["Content-Length: " ++ digits].
  now apply parseHeaderLine_frame.
Qed.

(** ** Reading the body *)

Section ExactRead.

Variable deliver : Buffer -> nat -> nat.

Lemma readSyncRetry_spec len stdin :
  exists n,
    readSyncRetry deliver len stdin = (firstn n stdin, skipn n stdin)
    /\ n <= len /\ n <= List.length stdin
    /\ (0 < len -> 0 < List.length stdin -> 0 < n).
Proof.
  unfold readSyncRetry.
  exists (Nat.min len (Nat.min (List.length stdin)
                               (S (deliver stdin len)))).
  repeat split; lia.
Qed.

(** All the bytes asked for are there: they are returned, whatever the
    short reads. *)
Lemma readExact_loop_full : forall fuel out need body rest,
  List.length body = need -> need <= fuel ->
  readExact_loop deliver fuel out need (body ++ rest)%list
  = (Some (out ++ body)%list, rest).
Proof.
  induction fuel as [|fuel IH]; intros out need body rest Hlen Hfuel.
  - assert (need = 0) by lia. subst need.
    destruct body; [|discriminate]. simpl. now rewrite app_nil_r.
  - destruct need as [|k].
    + destruct body; [|discriminate]. simpl. now rewrite app_nil_r.
    + cbn [readExact_loop].
      destruct (readSyncRetry_spec (S k) (body ++ rest)%list)
        as (n & -> & Hn1 & Hn2 & Hn3).
      assert (Hpos : 0 < n).
      { apply Hn3; [lia|]. rewrite length_app. lia. }
      rewrite firstn_app, skipn_app.
      replace (n - List.length body) with 0 by lia.
      cbn [firstn skipn]. rewrite app_nil_r.
      destruct (firstn n body) as [|b got] eqn:Eg.
      { apply (f_equal (@List.length _)) in Eg.
        rewrite length_firstn in Eg. simpl in Eg. lia. }
      rewrite <- Eg.
      rewrite IH.
      * rewrite <- app_assoc, firstn_skipn. reflexivity.
      * rewrite length_skipn, length_firstn. lia.
      * rewrite length_firstn. lia.
Qed.


Lemma readExactSync_full body rest :
  readExactSync deliver (List.length body) (body ++ rest)%list
  = (Some body, rest).
Proof.
  unfold readExactSync.
  now rewrite (readExact_loop_full _ [] _ body rest eq_refl (le_n _)).
Qed.


End ExactRead.

(** ** Frames *)

Lemma frameHeader_read (Json : Type) (JSON_parse : Buffer -> option Json)
      deliver n stdin :
  readMessageSync JSON_parse deliver (frameHeader n ++ stdin)%list
  = match n with
    | 0 => (NoMessage, stdin)
    | S _ =>
        match readExactSync deliver n stdin with
        | (None, stdin2) => (NoMessage, stdin2)
        | (Some body, stdin2) =>
            match JSON_parse body with
            | Some msg => (Message msg, stdin2)
            | None => (ParseThrows, stdin2)
            end
        end
    end.
Proof.
  unfold readMessageSync, frameHeader.
  replace ("Content-Length: " ++ String_nat n ++ CRLF ++ CRLF)
    with (("Content-Length: " ++ String_nat n) ++ CRLF ++ CRLF)
    by apply append_assoc.
  rewrite readHeader_frame.
  2:{ rewrite allChars_app. apply andb_true_iff. split; [reflexivity|].
      apply (allChars_weaken isDigit); [apply isDigit_plain|].
      apply String_nat_digits. }
  rewrite append_assoc.
  rewrite parseHeaders_frame
    by (apply String_nat_digits || apply String_nat_nonEmpty).
  unfold contentLength.
  change (header_get "content-length"
            [("content-length", String_nat n)])
    with (Some (String_nat n)).
  unfold orElse. rewrite String_nat_nonEmpty, Number_of_String_nat.
  reflexivity.
Qed.

Lemma writeMessage_frame (Json : Type) (JSON_stringify : Json -> Buffer)
      data :
  writeMessage JSON_stringify data
  = (frameHeader (List.length (JSON_stringify data))
     ++ JSON_stringify data)%list.
Proof. reflexivity. Qed.

(** Reading what [writeMessage] wrote, for any codec: a non-empty body
    comes back whole and goes through [JSON.parse]. *)
Lemma readMessageSync_writeMessage (Json : Type)
      (JSON_stringify : Json -> Buffer) (JSON_parse : Buffer -> option Json)
      deliver data rest :
  JSON_stringify data <> [] ->
  readMessageSync JSON_parse deliver
                  (writeMessage JSON_stringify data ++ rest)%list
  = (readResult (JSON_parse (JSON_stringify data)), rest).
Proof.
  intros Hne. rewrite writeMessage_frame, <- app_assoc, frameHeader_read.
  destruct (JSON_stringify data) as [|b body] eqn:E; [contradiction|].
  rewrite <- E. replace (List.length (JSON_stringify data))
    with (S (List.length body)) at 1 by now rewrite E.
  rewrite readExactSync_full.
  now destruct (JSON_parse (JSON_stringify data)).
Qed.




End TransportFacts.

(* ================================================================== *)
(** * Properties of the model gateway                                  *)
(* ================================================================== *)

Module GatewayFacts.

Import ModelRouter.

(** C6.  The gateway fails with code 2 before any HTTP request when a
    provider precondition is unmet: [openai] with an empty [api_key],
    [gemini] with neither [api_key] nor [api_url], [custom] with no
    [api_url].  The program is a bare [Ret]: it issues no
    [httpPostJson] event. *)
Theorem callModel_precondition :
  forall (rt : Runtime) (id model api_url system_prompt api_key : string)
         (prompt : string) (timeoutSec : Z) (temperature : Q)
         (maxTokens : Z),
    callModel rt (mkModelSpec id "openai" model api_url "" system_prompt)
              prompt timeoutSec temperature maxTokens
    = Ret (2%Z, "[" ++ id ++ "] missing api_key for openai.")
    /\ callModel rt (mkModelSpec id "gemini" model "" "" system_prompt)
                 prompt timeoutSec temperature maxTokens
       = Ret (2%Z, "[" ++ id ++ "] missing api_key for gemini.")
    /\ callModel rt (mkModelSpec id "custom" model "" api_key system_prompt)
                 prompt timeoutSec temperature maxTokens
       = Ret (2%Z, "[" ++ id ++ "] missing api_url for custom provider.").
Proof. intros. repeat split. Qed.

Lemma supportedProvider_false name :
  supportedProvider name = false ->
  String.eqb name "openai" = false /\ String.eqb name "anthropic" = false
  /\ String.eqb name "gemini" = false /\ String.eqb name "custom" = false.
Proof.
  unfold supportedProvider. cbn [existsb]. intros H.
  repeat (apply orb_false_iff in H as [? H]). auto.
Qed.

Lemma callModel_unsupported (rt : Runtime) spec prompt timeoutSec
      temperature maxTokens :
  supportedProvider (provider spec) = false ->
  callModel rt spec prompt timeoutSec temperature maxTokens
  = Ret (2%Z, "[" ++ id spec ++ "] unsupported provider: "
               ++ provider spec).
Proof.
  intros H. apply supportedProvider_false in H as (H1 & H2 & H3 & H4).
  unfold callModel, buildRequest, isProvider.
  now rewrite H1, H2, H3, H4.
Qed.

(** C10.  [callModel] answers every provider string outside
    [openai], [anthropic], [gemini], [custom] with code 2 and a text
    naming the provider, as a plain return: no exception, no HTTP
    request.  Hence [model.one_shot] on such a model returns a
    [ToolResult] with [isError] set. *)
Theorem unsupported_provider_is_reported :
  forall (rt : Runtime) (spec : ModelSpec) (prompt : string)
         (timeoutSec : Z) (temperature : Q) (maxTokens : Z)
         (args : Arguments_),
    supportedProvider (provider spec) = false ->
    toModelSpec (arg_model args) "model_1" = Some spec ->
    callModel rt spec prompt timeoutSec temperature maxTokens
    = Ret (2%Z, "[" ++ id spec ++ "] unsupported provider: "
                 ++ provider spec)
    /\ exists text,
         withGateway rt (callTool rt "model.one_shot" args)
         = Ret (textResult text true).
Proof.
  intros rt spec prompt timeoutSec temperature maxTokens args Hp Hs.
  split; [now apply callModel_unsupported|].
  unfold callTool. cbn [String.eqb Ascii.eqb Bool.eqb].
  change (("model.one_shot" =? "model.one_shot")%string) with true.
  cbv iota. rewrite Hs.
  destruct (nonEmpty (trim (String_ (js_or (arg_prompt args) (PStr "")))));
    cbn [negb].
  - unfold withGateway, awaitCallModel, call.
    cbn [interp bind gc_spec gc_prompt gc_timeoutSec gc_temperature
         gc_maxTokens].
    rewrite callModel_unsupported by assumption.
    cbn [bind interp fst snd]. eexists. reflexivity.
  - eexists. reflexivity.
Qed.

Lemma unsupported_provider_is_reported_witness :
  let spec := mkModelSpec "m" "mistral" "large" "" "" "" in
  let args :=
    mkArguments
      (JObj [("id", PStr "m"); ("provider", PStr "Mistral");
             ("model", PStr "large")])
      (PStr "hello") PUndefined None None PUndefined None None None in
  callModel demoRuntime spec "hello" 180 (2 # 10) 2048
  = Ret (2%Z, "[m] unsupported provider: mistral")
  /\ exists text,
       withGateway demoRuntime (callTool demoRuntime "model.one_shot" args)
       = Ret (textResult text true).
Proof.
  intros spec args.
  apply (unsupported_provider_is_reported demoRuntime spec "hello" 180
           (2 # 10) 2048 args); reflexivity.
Defined.

End GatewayFacts.

(* ================================================================== *)
(** * Properties of the orchestration                                  *)
(* ================================================================== *)

Module OrchestrationFacts.

Import ModelRouter.

(** ** Running programs *)

Lemma run_bind {E : Type} {R : E -> Type} {A B W : Type}
      (h : Handler R W) (m : Prog R A) (f : A -> Prog R B) (w : W) :
  run h (bind m f) w
  = match run h m w with
    | (inr a, w') => run h (f a) w'
    | (inl err, w') => (inl err, w')
    end.
Proof.
  revert w. induction m as [a|err|e k IH]; intros w; simpl;
    try reflexivity.
  destruct (h e w) as [[err|r] w']; [reflexivity|apply IH].
Qed.

Lemma run_await {W : Type} (g : Gateway W) m prompt t temp maxTok w tr :
  run (recording g) (awaitCallModel m prompt t temp maxTok) (w, tr)
  = (inr (fst (g (mkGatewayCall m prompt t temp maxTok) w)),
     (snd (g (mkGatewayCall m prompt t temp maxTok) w),
      (tr ++ [(mkGatewayCall m prompt t temp maxTok,
               fst (g (mkGatewayCall m prompt t temp maxTok) w))])%list)).
Proof.
  unfold awaitCallModel, call, recording. simpl.
  now destruct (g _ w).
Qed.

(** Keeping the transcript does not change what a program returns. *)
Lemma run_recording {W A : Type} (g : Gateway W) (p : GwProg A) :
  forall w tr,
    fst (run (recording g) p (w, tr)) = fst (run (answering g) p w)
    /\ fst (snd (run (recording g) p (w, tr)))
       = snd (run (answering g) p w).
Proof.
  induction p as [a|err|e k IH]; intros w tr; simpl; auto.
  unfold recording, answering. simpl.
  destruct (g e w) as [r w']. apply IH.
Qed.

(** [callModel] never raises under an environment that answers. *)
Lemma callModel_answers (rt : Runtime) {W : Type} (net : Network rt W)
      spec prompt timeoutSec temperature maxTokens w :
  exists answer w',
    run (serving net)
        (callModel rt spec prompt timeoutSec temperature maxTokens) w
    = (inr answer, w').
Proof.
  unfold callModel.
  destruct (buildRequest spec prompt temperature maxTokens)
    as [early|[[url payload] headers]]; simpl; [eauto|].
  unfold serving. destruct (net _ w) as [result w']. simpl.
  destruct ((400 <=? status result)%Z || (status result =? 0)%Z);
    [simpl; eauto|].
  destruct (isProvider spec "openai" || isProvider spec "custom");
    [simpl; eauto|].
  destruct (isProvider spec "anthropic"); simpl; eauto.
Qed.

(** Running the program in which [callModel] stands for every gateway
    call, under an HTTP environment, is running the orchestration against
    the gateway that [callModel] makes of that environment. *)
Lemma run_withGateway (rt : Runtime) {W A : Type} (net : Network rt W)
      (p : GwProg A) :
  forall w,
    run (serving net) (withGateway rt p) w
    = run (answering (gatewayOver net)) p w.
Proof.
  induction p as [a|err|e k IH]; intros w; simpl; try reflexivity.
  unfold withGateway. cbn [interp]. rewrite run_bind.
  unfold answering at 1, gatewayOver.
  destruct (callModel_answers rt net (gc_spec e) (gc_prompt e)
              (gc_timeoutSec e) (gc_temperature e) (gc_maxTokens e) w)
    as (answer & w' & ->).
  apply IH.
Qed.

Lemma map_fst_combine {A B : Type} (l1 : list A) : forall (l2 : list B),
  List.length l1 = List.length l2 -> map fst (combine l1 l2) = l1.
Proof.
  induction l1 as [|a l1 IH]; intros [|b l2] H; simpl in *;
    try reflexivity; try discriminate.
  f_equal. apply IH. lia.
Qed.

(** ** Objects filled by assignment *)



Lemma keys_put k v o :
  keys (obj_put k v o)
  = if in_dec string_dec k (keys o) then keys o
    else (keys o ++ [k])%list.
Proof.
  induction o as [|[k' v'] o IH]; simpl; [reflexivity|].
  destruct (String.eqb_spec k' k) as [->|Hne]; simpl.
  - destruct (string_dec k k); [|contradiction].
    reflexivity.
  - rewrite IH. destruct (string_dec k' k); [contradiction|].
    destruct (in_dec string_dec k (keys o)); reflexivity.
Qed.

Lemma obj_put_fresh k v o :
  ~ In k (keys o) -> obj_put k v o = (o ++ [(k, v)])%list.
Proof.
  induction o as [|[k' v'] o IH]; simpl; [reflexivity|].
  intros H. destruct (String.eqb_spec k' k) as [->|Hne]; [tauto|].
  rewrite IH by tauto. reflexivity.
Qed.




Lemma In_keys_set k v o x :
  In x (keys (obj_set k v o))
  <-> In x (keys o) \/ (x = k /\ k <> protoKey).
Proof.
  unfold obj_set. destruct (String.eqb_spec k protoKey) as [->|Hne].
  - split; [auto|]. intros [H|[_ H]]; [assumption|contradiction].
  - rewrite keys_put.
    destruct (in_dec string_dec k (keys o)) as [Hin|Hnin].
    + split; [auto|]. intros [H|[-> _]]; assumption.
    + rewrite in_app_iff. simpl. split.
      * intros [H|[<-|[]]]; auto.
      * intros [H|[-> _]]; auto.
Qed.

Lemma NoDup_keys_set k v o : NoDup (keys o) -> NoDup (keys (obj_set k v o)).
Proof.
  intros H. unfold obj_set.
  destruct (String.eqb k protoKey); [assumption|].
  rewrite keys_put.
  destruct (in_dec string_dec k (keys o)) as [Hin|Hnin]; [assumption|].
  apply NoDup_app; repeat split; auto.
  - constructor; [simpl; tauto|constructor].
  - intros x Hx [<-|[]]. contradiction.
Qed.

Lemma noProto_set k v o :
  ~ In protoKey (keys o) -> ~ In protoKey (keys (obj_set k v o)).
Proof.
  intros H Hin. apply In_keys_set in Hin as [Hin|[-> Hne]]; auto.
Qed.

Lemma obj_set_fresh k v o :
  k <> protoKey -> ~ In k (keys o) ->
  obj_set k v o = (o ++ [(k, v)])%list.
Proof.
  intros Hk H. unfold obj_set. apply String.eqb_neq in Hk. rewrite Hk.
  now apply obj_put_fresh.
Qed.

(** On an object, the code's [others] is the pool without the own
    entry. *)
Lemma othersOf_fold modelId : forall inputs acc,
  NoDup (keys acc ++ keys inputs) ->
  ~ In protoKey (keys inputs) ->
  fold_left (fun others kv =>
               if String.eqb (fst kv) modelId then others
               else obj_set (fst kv) (snd kv) others)
            inputs acc
  = (acc ++ removeEntry modelId inputs)%list.
Proof.
  induction inputs as [|[k v] inputs IH]; intros acc H Hp; simpl.
  - now rewrite app_nil_r.
  - unfold keys in H, Hp. simpl in H, Hp.
    destruct (String.eqb k modelId); simpl.
    + apply IH; [|tauto]. apply NoDup_remove_1 in H. exact H.
    + assert (Hk : ~ In k (keys acc)).
      { apply NoDup_remove_2 in H. intros Hin. apply H.
        apply in_or_app. now left. }
      rewrite obj_set_fresh; [|intros ->; tauto|assumption].
      rewrite IH; [|unfold keys; rewrite map_app; simpl;
                     rewrite <- app_assoc; exact H|tauto].
      now rewrite <- app_assoc.
Qed.

Lemma othersOf_removeEntry inputs modelId :
  NoDup (keys inputs) -> ~ In protoKey (keys inputs) ->
  othersOf inputs modelId = removeEntry modelId inputs.
Proof. intros H Hp. unfold othersOf. now rewrite othersOf_fold. Qed.



(** ** What a stage stores *)

Lemma settle_keys label m answer out errors k :
  In k (keys (fst (settle label m answer out errors)))
  <-> In k (keys out) \/ (k = id m /\ id m <> protoKey).
Proof.
  unfold settle. destruct answer as [code text].
  destruct (negb (code =? 0)%Z); simpl; apply In_keys_set.
Qed.

Lemma settle_NoDup label m answer out errors :
  NoDup (keys out) -> NoDup (keys (fst (settle label m answer out errors))).
Proof.
  unfold settle. destruct answer as [code text].
  destruct (negb (code =? 0)%Z); simpl; apply NoDup_keys_set.
Qed.

Lemma settle_noProto label m answer out errors :
  ~ In protoKey (keys out) ->
  ~ In protoKey (keys (fst (settle label m answer out errors))).
Proof.
  unfold settle. destruct answer as [code text].
  destruct (negb (code =? 0)%Z); simpl; apply noProto_set.
Qed.


Lemma settle_errors label m answer out errors :
  snd (settle label m answer out errors)
  = if negb (fst answer =? 0)%Z
    then (errors ++ [errorLine label m (fst answer)])%list
    else errors.
Proof.
  unfold settle. destruct answer as [code text]. simpl.
  now destruct (negb (code =? 0)%Z).
Qed.


Lemma settleAll_keys label : forall ps answers out errors,
  List.length answers = List.length ps ->
  forall k,
    In k (keys (fst (settleAll label ps answers out errors)))
    <-> In k (keys out) \/ (In k (map id ps) /\ k <> protoKey).
Proof.
  induction ps as [|m ps IH]; intros answers out errors Hlen k.
  - simpl. tauto.
  - destruct answers as [|a answers]; [discriminate|].
    cbn [settleAll].
    destruct (settle label m a out errors) as [out' errors'] eqn:E.
    rewrite IH by (simpl in Hlen; lia).
    replace out' with (fst (settle label m a out errors)) by now rewrite E.
    rewrite settle_keys. simpl. split.
    + intros [[H|[-> H]]|[H1 H2]]; auto.
    + intros [H|[[<-|H1] H2]]; auto.
Qed.

Lemma settleAll_NoDup label : forall ps answers out errors,
  NoDup (keys out) ->
  NoDup (keys (fst (settleAll label ps answers out errors))).
Proof.
  induction ps as [|m ps IH]; intros answers out errors H;
    [assumption|].
  destruct answers as [|a answers]; [assumption|].
  cbn [settleAll].
  destruct (settle label m a out errors) as [out' errors'] eqn:E.
  apply IH.
  replace out' with (fst (settle label m a out errors)) by now rewrite E.
  now apply settle_NoDup.
Qed.

Lemma settleAll_noProto label : forall ps answers out errors,
  ~ In protoKey (keys out) ->
  ~ In protoKey (keys (fst (settleAll label ps answers out errors))).
Proof.
  induction ps as [|m ps IH]; intros answers out errors H;
    [assumption|].
  destruct answers as [|a answers]; [assumption|].
  cbn [settleAll].
  destruct (settle label m a out errors) as [out' errors'] eqn:E.
  apply IH.
  replace out' with (fst (settle label m a out errors)) by now rewrite E.
  now apply settle_noProto.
Qed.


Lemma settleAll_errors label : forall ps answers out errors,
  exists extra,
    snd (settleAll label ps answers out errors) = (errors ++ extra)%list
    /\ stageLines label ps extra.
Proof.
  induction ps as [|m ps IH]; intros answers out errors.
  - exists []. simpl. rewrite app_nil_r. split; [reflexivity|constructor].
  - destruct answers as [|a answers].
    + exists []. simpl. rewrite app_nil_r.
      split; [reflexivity|constructor].
    + cbn [settleAll].
      destruct (settle label m a out errors) as [out' errors'] eqn:E.
      destruct (IH answers out' errors') as (extra & Hx & Hl).
      assert (E' : errors' = snd (settle label m a out errors))
        by now rewrite E.
      rewrite settle_errors in E'.
      assert (Hl' : stageLines label (m :: ps) extra).
      { eapply Forall_impl; [|exact Hl]. intros line (m' & c & ? & ? & ?).
        exists m', c. simpl. auto. }
      destruct (negb (fst a =? 0)%Z) eqn:Ea.
      * exists (errorLine label m (fst a) :: extra). split.
        -- rewrite Hx, E', <- app_assoc. reflexivity.
        -- constructor; [|assumption].
           exists m, (fst a). repeat split; [now left|].
           apply negb_true_iff in Ea. now apply Z.eqb_neq.
      * exists extra. split; [now rewrite Hx, E'|assumption].
Qed.


(** ** Running a stage *)

Section Stage.

Variables (W : Type) (g : Gateway W).
Variables (timeoutSec : Z) (temperature : Q) (maxTokens : Z).

Lemma forEachParticipant_run label promptOf :
  forall ps out errors w tr,
  exists answers w',
    List.length answers = List.length ps
    /\ run (recording g)
           (forEachParticipant timeoutSec temperature maxTokens label
                               promptOf ps out errors) (w, tr)
       = (inr (settleAll label ps answers out errors),
          (w', (tr ++ combine
                        (map (fun m => mkGatewayCall m (promptOf m)
                                         timeoutSec temperature maxTokens)
                             ps)
                        answers)%list)).
Proof.
  induction ps as [|m ps IH]; intros out errors w tr.
  - exists [], w. simpl. now rewrite app_nil_r.
  - cbn [forEachParticipant]. 
    set (c := mkGatewayCall m (promptOf m) timeoutSec temperature
                            maxTokens).
    destruct (settle label m (fst (g c w)) out errors)
      as [out' errors'] eqn:E.
    destruct (IH out' errors' (snd (g c w))
                 (tr ++ [(c, fst (g c w))])%list)
      as (answers & w' & Hlen & Hrun).
    exists (fst (g c w) :: answers), w'. split; [simpl; lia|].
    rewrite run_bind, run_await. cbv beta iota. fold c.
    rewrite E. cbv beta iota. rewrite Hrun.
    cbn [settleAll map combine]. fold c. rewrite E.
    now rewrite <- app_assoc.
Qed.

End Stage.

Lemma stageLines_errorLines label ps lines :
  stageLines label ps lines -> errorLines ps lines.
Proof.
  intros H. eapply Forall_impl; [|exact H].
  intros line (m & c & ? & ? & ?). now exists label, m, c.
Qed.

Lemma errorLines_app ps l1 l2 :
  errorLines ps l1 -> errorLines ps l2 -> errorLines ps (l1 ++ l2)%list.
Proof. intros H1 H2. apply Forall_app. now split. Qed.

Section DebateLoop.

Variables (W : Type) (g : Gateway W) (rt : Runtime).
Variables (requirement : string) (timeoutSec : Z) (temperature : Q)
          (maxTokens : Z) (ps : list ModelSpec).

Let critiques (inputs : Obj) : list GatewayCall :=
  map (fun m => mkGatewayCall m
                  (debatePrompt rt requirement (removeEntry (id m) inputs))
                  timeoutSec temperature maxTokens) ps.

Lemma debateLoop_run : forall todo i latest debates errors w tr,
  NoDup (keys latest) -> ~ In protoKey (keys latest) ->
  exists rounds extra w' tr',
    run (recording g)
        (debateLoop rt requirement timeoutSec temperature maxTokens
                    todo i ps latest debates errors) (w, tr)
    = (inr ((debates ++ rounds)%list, (errors ++ extra)%list),
       (w', (tr ++ tr')%list))
    /\ List.length rounds = todo
    /\ map round rounds = map (fun j => (i + Z.of_nat j)%Z) (seq 0 todo)
    /\ map fst tr'
       = flat_map critiques (firstn todo (latest :: map responses rounds))
    /\ Forall (roundComplete ps) rounds
    /\ errorLines ps extra.
Proof.
  induction todo as [|todo IH];
    intros i latest debates errors w tr Hnd Hnp.
  - exists [], [], w, []. simpl. rewrite !app_nil_r.
    repeat split; constructor.
  - cbn [debateLoop]. rewrite run_bind. unfold debateRound.
    destruct (forEachParticipant_run W g timeoutSec temperature
                maxTokens ("debate-r" ++ String_Z i)
                (fun m => debatePrompt rt requirement
                                       (othersOf latest (id m)))
                ps [] errors w tr)
      as (answers & w1 & Hlen & Hrun).
    rewrite Hrun. cbv beta iota.
    destruct (settleAll ("debate-r" ++ String_Z i) ps answers [] errors)
      as [resp errors1] eqn:E.
    assert (Eresp : resp = fst (settleAll ("debate-r" ++ String_Z i) ps
                                          answers [] errors))
      by now rewrite E.
    assert (Hresp : NoDup (keys resp)).
    { rewrite Eresp. apply settleAll_NoDup. constructor. }
    assert (Hrespp : ~ In protoKey (keys resp)).
    { rewrite Eresp. apply settleAll_noProto. simpl. tauto. }
    destruct (settleAll_errors ("debate-r" ++ String_Z i) ps answers
                               [] errors) as (extra1 & Hx1 & Hl1).
    rewrite E in Hx1. simpl in Hx1. subst errors1.
    destruct (IH (i + 1)%Z resp
                 (debates ++ [mkDebateRound i resp])%list
                 (errors ++ extra1)%list w1
                 (tr ++ combine
                          (map (fun m => mkGatewayCall m
                                  (debatePrompt rt requirement
                                     (othersOf latest (id m)))
                                  timeoutSec temperature maxTokens) ps)
                          answers)%list Hresp Hrespp)
      as (rounds & extra & w' & tr' & Hrun' & Hn & Hr & Ht & Hc & He).
    exists (mkDebateRound i resp :: rounds), (extra1 ++ extra)%list, w',
      (combine (map (fun m => mkGatewayCall m
                       (debatePrompt rt requirement
                          (othersOf latest (id m)))
                       timeoutSec temperature maxTokens) ps) answers
         ++ tr')%list.
    split; [|split; [|split; [|split; [|split]]]].
    + rewrite Hrun'. now rewrite <- !app_assoc.
    + simpl. now rewrite Hn.
    + cbn [map seq round]. rewrite Z.add_0_r. f_equal.
      rewrite Hr, <- seq_shift, map_map.
      apply map_ext. intros j. lia.
    + rewrite map_app. cbn [firstn map responses flat_map].
      rewrite <- Ht. f_equal.
      rewrite map_fst_combine by (rewrite length_map; lia).
      unfold critiques. apply map_ext. intros m.
      now rewrite othersOf_removeEntry.
    + constructor; [|assumption]. split; [assumption|].
      intros k. cbn [responses]. rewrite Eresp.
      rewrite settleAll_keys by assumption. simpl. tauto.
    + apply errorLines_app; [|assumption].
      now apply stageLines_errorLines with (label := "debate-r" ++ String_Z i).
Qed.

End DebateLoop.

(** ** Running [runBrainstorm] *)

Lemma findById_In synthesisBy ps m :
  findById synthesisBy ps = Some m -> In m ps.
Proof. unfold findById. intros H. now apply find_some in H. Qed.

Lemma synthModelOf_In args first rest :
  In (synthModelOf args first (first :: rest)) (first :: rest).
Proof.
  unfold synthModelOf.
  destruct (findById _ _) eqn:E; [now apply findById_In in E|now left].
Qed.

Section Brainstorm.

Variables (W : Type) (g : Gateway W) (rt : Runtime) (args : Arguments_).

Let ps := participantsOf args.
Let rounds := Z.to_nat (debateRoundsOf (arg_debate_rounds args)).

(** A valid call runs the three stages to the end, whatever the
    gateway answers.  [answers] are the answers to the proposal calls,
    [critiques] the part of the transcript made by the debate rounds,
    [synth] the answer to the synthesis call. *)
Lemma brainstorm_run w first rest :
  nonEmpty (requirementOf args) = true ->
  participantsOf args = first :: rest ->
  exists report w' answers critiques synth extra,
    run (recording g) (brainstorm rt args) (w, [])
    = (inr (inr report),
       (w', (combine (proposalCalls args) answers ++ critiques
             ++ [(callOf args (synthModelOf args first ps)
                         (synthPrompt rt (requirementOf args)
                                      (r_proposals report)
                                      (r_debates report)),
                  synth)])%list))
    /\ List.length answers = List.length ps
    /\ r_proposals report = fst (settleAll "proposal" ps answers [] [])
    /\ r_errors report
       = (snd (settleAll "proposal" ps answers [] []) ++ extra)%list
    /\ errorLines ps extra
    /\ map fst critiques
       = flat_map (critiqueCalls rt args)
                  (firstn rounds (r_proposals report
                                  :: map responses (r_debates report)))
    /\ List.length (r_debates report) = rounds
    /\ map round (r_debates report)
       = map (fun j => (1 + Z.of_nat j)%Z) (seq 0 rounds)
    /\ Forall (roundComplete ps) (r_debates report)
    /\ r_participants report = map id ps
    /\ r_debate_rounds report = debateRoundsOf (arg_debate_rounds args)
    /\ r_requirement report = requirementOf args
    /\ r_synthesis report = snd synth.
Proof.
  intros Hreq Hps. unfold brainstorm, proposalCalls, critiqueCalls.
  subst ps rounds. rewrite Hreq, Hps. cbn [negb]. cbv iota.
  rewrite run_bind. unfold proposalStage.
  destruct (forEachParticipant_run W g (timeoutSecOf args)
              (temperatureOf args) (maxTokensOf args) "proposal"
              (fun _ => proposalPrompt (requirementOf args))
              (first :: rest) [] [] w [])
    as (answers & w1 & Hlen & Hrun).
  rewrite Hrun. cbv beta iota.
  destruct (settleAll "proposal" (first :: rest) answers [] [])
    as [proposals perrors] eqn:E.
  assert (Hnd : NoDup (keys proposals)).
  { replace proposals
      with (fst (settleAll "proposal" (first :: rest) answers [] []))
      by now rewrite E.
    apply settleAll_NoDup. constructor. }
  assert (Hnp : ~ In protoKey (keys proposals)).
  { replace proposals
      with (fst (settleAll "proposal" (first :: rest) answers [] []))
      by now rewrite E.
    apply settleAll_noProto. simpl. tauto. }
  rewrite run_bind.
  destruct (debateLoop_run W g rt (requirementOf args) (timeoutSecOf args)
              (temperatureOf args) (maxTokensOf args) (first :: rest)
              (Z.to_nat (debateRoundsOf (arg_debate_rounds args))) 1%Z
              proposals [] perrors w1
              ([] ++ combine
                  (map (fun m => mkGatewayCall m
                          (proposalPrompt (requirementOf args))
                          (timeoutSecOf args) (temperatureOf args)
                          (maxTokensOf args)) (first :: rest))
                  answers)%list Hnd Hnp)
    as (debates & dextra & w2 & critiques & Hrun2 & Hn & Hr & Ht & Hc
        & He).
  rewrite Hrun2. cbv beta iota.
  rewrite run_bind, run_await. cbv beta iota.
  set (synthModel := synthModelOf args first (first :: rest)).
  set (c := mkGatewayCall synthModel
              (synthPrompt rt (requirementOf args) proposals
                           ([] ++ debates)%list)
              (timeoutSecOf args) (temperatureOf args)
              (maxTokensOf args)).
  cbn [run app] in *.
  exists {| r_requirement := requirementOf args;
            r_participants := map id (first :: rest);
            r_debate_rounds := debateRoundsOf (arg_debate_rounds args);
            r_synthesis_by := id synthModel;
            r_proposals := proposals;
            r_debates := debates;
            r_synthesis := snd (fst (g c w2));
            r_errors :=
              if negb (fst (fst (g c w2)) =? 0)%Z
              then ((perrors ++ dextra)
                      ++ [errorLine "synthesis" synthModel
                                    (fst (fst (g c w2)))])%list
              else (perrors ++ dextra)%list |},
    (snd (g c w2)), answers, critiques, (fst (g c w2)),
    (dextra ++ if negb (fst (fst (g c w2)) =? 0)%Z
               then [errorLine "synthesis" synthModel
                               (fst (fst (g c w2)))]
               else [])%list.
  cbn [r_proposals r_debates r_errors r_participants r_debate_rounds
       r_requirement r_synthesis].
  rewrite !E. cbn [fst snd].
  split.
  { unfold callOf. fold synthModel. fold c.
    rewrite <- !app_assoc. reflexivity. }
  split; [exact Hlen|].
  split; [reflexivity|].
  split.
  { destruct (negb (fst (fst (g c w2)) =? 0)%Z).
    - now rewrite <- app_assoc.
    - now rewrite app_nil_r. }
  split.
  { apply errorLines_app; [assumption|].
    destruct (negb (fst (fst (g c w2)) =? 0)%Z) eqn:Ec;
      [|constructor].
    constructor; [|constructor].
    exists "synthesis", synthModel, (fst (fst (g c w2))).
    repeat split.
    - apply synthModelOf_In.
    - apply negb_true_iff in Ec. now apply Z.eqb_neq. }
  split; [exact Ht|].
  split; [exact Hn|].
  split; [exact Hr|].
  split; [exact Hc|].
  repeat split.
Qed.

End Brainstorm.




Lemma length_flat_map_const {A B : Type} (f : A -> list B) n l :
  (forall x, List.length (f x) = n) ->
  List.length (flat_map f l) = List.length l * n.
Proof.
  intros H. induction l as [|x l IH]; simpl; [reflexivity|].
  now rewrite length_app, H, IH.
Qed.


Lemma transcript_length rt args (answers : list (Z * string))
      (critiques : Transcript) (last : GatewayCall * (Z * string))
      (inputs : list Obj) :
  List.length answers = List.length (participantsOf args) ->
  map fst critiques = flat_map (critiqueCalls rt args) inputs ->
  List.length (combine (proposalCalls args) answers ++ critiques
               ++ [last])%list
  = List.length (participantsOf args)
    + List.length inputs * List.length (participantsOf args) + 1.
Proof.
  intros Hlen Hc. rewrite !length_app, length_combine.
  unfold proposalCalls. rewrite length_map, Hlen, Nat.min_id.
  rewrite <- (length_map fst critiques), Hc.
  rewrite (length_flat_map_const _ (List.length (participantsOf args))).
  - simpl. lia.
  - intros x. unfold critiqueCalls. now rewrite length_map.
Qed.

(** ** The claims on [model.brainstorm] *)

Lemma firstn_rounds_length (proposals : Obj) (debates : list DebateRound) n :
  List.length debates = n ->
  List.length (firstn n (proposals :: map responses debates)) = n.
Proof.
  intros H. rewrite length_firstn. simpl. rewrite length_map. lia.
Qed.

(** C1.  What the code does with [debate_rounds]: a valid call runs
    every stage to the end and executes exactly
    [Math.max(0, Math.min(5, Number(debate_rounds || 1)))] rounds, each
    with one critique call per participant.  For every integer other
    than 0 this is the argument clamped to [0, 5], so -1, 5 and 7 give
    0, 5 and 5 rounds; but 0 is falsy, [0 || 1] is 1, and a call with
    [debate_rounds = 0] executes one round instead of skipping the
    debate stage. *)
Theorem debate_rounds_executed :
  forall (rt : Runtime) (W : Type) (g : Gateway W) (args : Arguments_)
         (w : W) (first : ModelSpec) (rest : list ModelSpec),
    nonEmpty (requirementOf args) = true ->
    participantsOf args = first :: rest ->
    exists report w' tr,
      run (recording g) (brainstorm rt args) (w, [])
      = (inr (inr report), (w', tr))
      /\ List.length tr
         = List.length (participantsOf args)
           + List.length (r_debates report)
             * List.length (participantsOf args) + 1
      /\ match arg_debate_rounds args with
         | None | Some 0%Z => List.length (r_debates report) = 1
         | Some z =>
             Z.of_nat (List.length (r_debates report))
             = Z.max 0 (Z.min 5 z)
         end.
Proof.
  intros rt W g args w first rest Hreq Hps.
  destruct (brainstorm_run W g rt args w first rest Hreq Hps)
    as (report & w' & answers & critiques & synth & extra & Hrun & Hlen
        & _ & _ & _ & Hcalls & Hrounds & _).
  eexists report, w', _. split; [exact Hrun|]. split.
  - rewrite (transcript_length rt args answers critiques _ _ Hlen Hcalls).
    now rewrite (firstn_rounds_length _ _ _ Hrounds), Hrounds.
  - rewrite Hrounds. unfold debateRoundsOf, Number_or.
    destruct (arg_debate_rounds args) as [[|p|p]|]; try reflexivity;
      cbn [Z.eqb]; lia.
Qed.

Lemma debate_rounds_executed_witness :
  exists report w' tr,
    run (recording demoGateway)
        (brainstorm demoRuntime
                    (demoArgs [participantA; participantB] (Some 0%Z)))
        (tt, [])
    = (inr (inr report), (w', tr))
    /\ List.length tr = 2 + List.length (r_debates report) * 2 + 1
    /\ List.length (r_debates report) = 1.
Proof.
  exact (debate_rounds_executed demoRuntime unit demoGateway
           (demoArgs [participantA; participantB] (Some 0%Z)) tt
           _ _ eq_refl eq_refl).
Defined.







End OrchestrationFacts.

(* ================================================================== *)
(** * Properties of the execution bridge                               *)
(* ================================================================== *)

Module BridgeFacts.

Import Path ClaudeRunner.

(** ** Relative paths *)

Lemma dropCommon_split : forall from to up down,
  dropCommon from to = (up, down) ->
  exists common, from = (common ++ up)%list /\ to = (common ++ down)%list.
Proof.
  induction from as [|f from IH]; intros to up down H.
  - simpl in H. injection H as <- <-. now exists [].
  - destruct to as [|t to].
    + simpl in H. injection H as <- <-. now exists [].
    + simpl in H. destruct (String.eqb_spec f t) as [->|Hne].
      * destruct (IH _ _ _ H) as (common & -> & ->).
        now exists (t :: common).
      * injection H as <- <-. now exists [].
Qed.

Lemma dropCommon_prefix : forall from down,
  dropCommon from (from ++ down)%list = ([], down).
Proof.
  induction from as [|f from IH]; intros down; simpl.
  - now destruct down.
  - now rewrite String.eqb_refl, IH.
Qed.

Lemma segmentsOf_nonEmpty p : Forall (fun s => nonEmpty s = true) (segmentsOf p).
Proof.
  unfold segmentsOf. apply Forall_forall. intros s H.
  now apply filter_In in H.
Qed.

Lemma join_cons sep h more :
  join sep (h :: more)
  = match more with [] => h | _ => h ++ sep ++ join sep more end.
Proof. reflexivity. Qed.

Lemma prefix_empty s : String.prefix "" s = true.
Proof. now destruct s. Qed.

Lemma startsWith_dots_append h tail :
  nonEmpty h = true ->
  startsWith (h ++ "/" ++ tail) ".." = startsWith h "..".
Proof.
  destruct h as [|a [|b h]]; [discriminate| |]; intros _;
    unfold startsWith; cbn [String.prefix append].
  - destruct (ascii_dec "." a); [|reflexivity].
    destruct (ascii_dec "." "/") as [Hdot|_];
      [discriminate Hdot|reflexivity].
  - destruct (ascii_dec "." a); [|reflexivity].
    destruct (ascii_dec "." b); [|reflexivity].
    now rewrite !prefix_empty.
Qed.

Lemma isAbsolute_append h tail :
  nonEmpty h = true -> isAbsolute (h ++ tail) = isAbsolute h.
Proof.
  destruct h as [|a h]; [discriminate|]. intros _.
  unfold isAbsolute, startsWith. cbn [String.prefix append].
  destruct (ascii_dec "/" a); [|reflexivity].
  now rewrite !prefix_empty.
Qed.

Lemma join_head h more :
  nonEmpty h = true ->
  nonEmpty (join "/" (h :: more)) = true
  /\ startsWith (join "/" (h :: more)) ".." = startsWith h ".."
  /\ isAbsolute (join "/" (h :: more)) = isAbsolute h.
Proof.
  intros Hh. rewrite join_cons. destruct more as [|m more].
  - auto.
  - repeat split.
    + destruct h; [discriminate|reflexivity].
    + now apply startsWith_dots_append.
    + now apply isAbsolute_append.
Qed.

Lemma eqb_empty_nonEmpty s : String.eqb s "" = negb (nonEmpty s).
Proof. now destruct s. Qed.

(** What [isUnder] makes of the two segment lists. *)
Lemma isUnder_segments pc root target :
  isUnder pc root target
  = if String.eqb root target then true
    else if String.eqb (resolve pc [root]) (resolve pc [target]) then true
    else
      let '(up, down) := dropCommon (segmentsOf (resolve pc [root]))
                                    (segmentsOf (resolve pc [target])) in
      match up with
      | [] => firstSegmentPasses down
      | _ :: _ => false
      end.
Proof.
  unfold isUnder, relative. cbv zeta.
  destruct (String.eqb root target); [reflexivity|].
  destruct (String.eqb (resolve pc [root]) (resolve pc [target]));
    [reflexivity|].
  destruct (dropCommon _ _) as [up down] eqn:E.
  destruct (dropCommon_split _ _ _ _ E) as (common & _ & Hto).
  assert (Hdown : Forall (fun s => nonEmpty s = true) down).
  { pose proof (segmentsOf_nonEmpty (resolve pc [target])) as H.
    rewrite Hto in H. now apply Forall_app in H. }
  destruct up as [|u up].
  - cbn [map app]. destruct down as [|h more]; [reflexivity|].
    inversion Hdown as [|? ? Hh _]; subst.
    destruct (join_head h more Hh) as (Hne & Hs & Ha).
    rewrite app_nil_l, eqb_empty_nonEmpty, Hne, Hs, Ha. reflexivity.
  - change (map (fun _ : string => "..") (u :: up) ++ down)%list
      with (".." :: (map (fun _ : string => "..") up ++ down))%list.
    destruct (join_head ".." (map (fun _ => "..") up ++ down)%list eq_refl)
      as (Hne & Hs & _).
    rewrite eqb_empty_nonEmpty, Hne, Hs. reflexivity.
Qed.

(** C3.  What the containment check accepts.  A directory is accepted
    under a root exactly when the segments of the resolved root are the
    beginning of the segments of the resolved directory (the directory
    is the root or lies below it) and the segment right below the root
    does not itself begin with [".."].  With root [/workspace]:
    [/workspace/sub] is accepted, [/workspace-other] is rejected, and
    [/workspace/../etc] resolves to [/etc] and is rejected.  But
    [/workspace/..cache], a directory below the root, is rejected too:
    its relative path [..cache] passes for a path that leaves the
    root. *)
Theorem isUnder_accepts :
  forall (pc : string),
    (forall root target,
        isUnder pc root target = true
        <-> exists down,
              segmentsOf (resolve pc [target])
              = (segmentsOf (resolve pc [root]) ++ down)%list
              /\ firstSegmentPasses down = true)
    /\ validateCwd pc (Some "/workspace/sub") ["/workspace"]
       = inr "/workspace/sub"
    /\ validateCwd pc (Some "/workspace-other") ["/workspace"]
       = inl "cwd '/workspace-other' is outside allowed roots: /workspace"
    /\ validateCwd pc (Some "/workspace/../etc") ["/workspace"]
       = inl "cwd '/etc' is outside allowed roots: /workspace"
    /\ segmentsOf (resolve pc ["/workspace/..cache"])
       = (segmentsOf (resolve pc ["/workspace"]) ++ ["..cache"])%list
    /\ isUnder pc "/workspace" "/workspace/..cache" = false
    /\ validateCwd pc (Some "/workspace/..cache") ["/workspace"]
       = inl "cwd '/workspace/..cache' is outside allowed roots: /workspace".
Proof.
  intros pc. split; [|repeat split].
  intros root target. rewrite isUnder_segments. split.
  - destruct (String.eqb_spec root target) as [->|_].
    { intros _. exists []. now rewrite app_nil_r. }
    destruct (String.eqb_spec (resolve pc [root]) (resolve pc [target]))
      as [->|_].
    { intros _. exists []. now rewrite app_nil_r. }
    destruct (dropCommon _ _) as [up down] eqn:E.
    destruct up as [|u up]; [|discriminate].
    intros Hpass. exists down. split; [|assumption].
    destruct (dropCommon_split _ _ _ _ E) as (common & Hfrom & Hto).
    rewrite app_nil_r in Hfrom. now rewrite Hfrom, Hto.
  - intros (down & Hsegs & Hpass).
    destruct (String.eqb root target); [reflexivity|].
    destruct (String.eqb (resolve pc [root]) (resolve pc [target]));
      [reflexivity|].
    now rewrite Hsegs, dropCommon_prefix.
Qed.

(** ** Sandbox violations *)

(** C7.  When the resolved working directory is under none of the
    allowed roots, [callTool] returns at once the error result carrying
    the diagnostic, whatever the tool name and the other arguments; the
    program is a bare return, so under every environment it issues no
    event: no file is looked at and no subprocess is spawned. *)
Theorem sandbox_violation_spawns_nothing :
  forall (pc name : string) (args : Arguments_) (roots : list string),
    existsb (fun root => isUnder pc root (resolveCwd pc (rawCwdOf args)))
            roots = false ->
    let error :=
      "cwd '" ++ resolveCwd pc (rawCwdOf args)
              ++ "' is outside allowed roots: " ++ join ", " roots in
    validateCwd pc (rawCwdOf args) roots = inl error
    /\ callTool pc name args roots = Ret (textResult error true)
    /\ isError (textResult error true) = true
    /\ forall (W : Type) (h : Handler BridgeAnswer W) (w : W),
         run h (callTool pc name args roots) w
         = (inr (textResult error true), w).
Proof.
  intros pc name args roots H error.
  assert (Hv : validateCwd pc (rawCwdOf args) roots = inl error).
  { unfold validateCwd. now rewrite H. }
  assert (Hc : callTool pc name args roots = Ret (textResult error true)).
  { unfold callTool. now rewrite Hv. }
  repeat split; try assumption.
  intros W h w. now rewrite Hc.
Qed.

Lemma sandbox_violation_spawns_nothing_witness :
  validateCwd "/srv/app" (rawCwdOf outsideArgs) ["/workspace"]
  = inl "cwd '/etc' is outside allowed roots: /workspace"
  /\ callTool "/srv/app" "claude.one_shot" outsideArgs ["/workspace"]
     = Ret (textResult "cwd '/etc' is outside allowed roots: /workspace"
                       true)
  /\ isError (textResult "cwd '/etc' is outside allowed roots: /workspace"
                         true) = true
  /\ forall (W : Type) (h : Handler BridgeAnswer W) (w : W),
       run h (callTool "/srv/app" "claude.one_shot" outsideArgs
                       ["/workspace"]) w
       = (inr (textResult
                 "cwd '/etc' is outside allowed roots: /workspace" true),
          w).
Proof.
  exact (sandbox_violation_spawns_nothing "/srv/app" "claude.one_shot"
           outsideArgs ["/workspace"] eq_refl).
Defined.

(** Whatever the tool and the arguments, a subprocess is only ever
    spawned in the validated working directory, which lies under one
    of the allowed roots. *)
Lemma everyEvent_bind {E : Type} {R : E -> Type} {A B : Type}
      (P : E -> Prop) (m : Prog R A) (f : A -> Prog R B) :
  EveryEvent P m -> (forall a, EveryEvent P (f a)) ->
  EveryEvent P (bind m f).
Proof.
  intros Hm Hf. induction Hm as [a|err|e k He Hk IH]; simpl.
  - apply Hf.
  - constructor.
  - constructor; assumption.
Qed.

Lemma appendFiles_events pc P cwd maxChars :
  (forall path, P (ExistsSync path)) -> (forall path, P (ReadFile path)) ->
  forall files chunks,
    EveryEvent P (appendFiles pc cwd files maxChars chunks).
Proof.
  intros He Hr. induction files as [|rel files IH]; intros chunks.
  - constructor.
  - cbn [appendFiles]. unfold call. cbn [bind].
    constructor; [apply He|]. intros present.
    destruct present; cbn [negb].
    + constructor; [apply Hr|]. intros read. apply IH.
    + apply IH.
Qed.

Lemma spawn_only_under_roots pc name args roots :
  EveryEvent (spawnsUnder pc roots (resolveCwd pc (rawCwdOf args)))
             (callTool pc name args roots).
Proof.
  unfold callTool, validateCwd.
  destruct (existsb _ roots) eqn:Hin; [|constructor].
  assert (Hrun : forall prompt timeoutSec,
             EveryEvent (spawnsUnder pc roots (resolveCwd pc (rawCwdOf args)))
                        (runAndFormat prompt
                           (resolveCwd pc (rawCwdOf args)) timeoutSec)).
  { intros prompt timeoutSec. unfold runAndFormat, call. cbn [bind].
    constructor; [now split|]. intros r. constructor. }
  destruct (String.eqb name "claude.one_shot").
  { destruct (negb (nonEmpty (textOf (arg_prompt args)))); [constructor|].
    apply everyEvent_bind; [|intros a; apply Hrun].
    unfold appendFilesContext.
    destruct (match arg_context_files args with
              | Some l => map String_ l
              | None => []
              end) as [|f files]; [constructor|].
    apply everyEvent_bind; [|intros a; constructor].
    apply appendFiles_events; intros; exact I. }
  destruct (String.eqb name "claude.review_diff").
  { destruct (negb (nonEmpty (textOf (arg_diff args)))); [constructor|].
    apply Hrun. }
  destruct (String.eqb name "claude.generate_patch").
  { destruct (negb (nonEmpty (textOf (arg_task args)))
              || negb (nonEmpty (textOf (arg_context args))));
      [constructor|]. apply Hrun. }
  constructor.
Qed.

(** ** The subprocess *)

Lemma step_data ev s :
  isData ev = true ->
  step s ev
  = mkRunState (st_timedOut s) (st_timerArmed s) (st_signals s)
      (st_stdoutChunks s
       ++ match ev with StdoutData c => [c] | _ => [] end)%list
      (st_stderrChunks s
       ++ match ev with StderrData c => [c] | _ => [] end)%list
      (st_settled s).
Proof.
  destruct ev; try discriminate; intros _; simpl;
    now rewrite app_nil_r.
Qed.

Lemma run_data : forall events s,
  forallb isData events = true ->
  fold_left step events s
  = mkRunState (st_timedOut s) (st_timerArmed s) (st_signals s)
      (st_stdoutChunks s
       ++ flat_map (fun ev => match ev with
                              | StdoutData c => [c] | _ => [] end) events)
        %list
      (st_stderrChunks s
       ++ flat_map (fun ev => match ev with
                              | StderrData c => [c] | _ => [] end) events)
        %list
      (st_settled s).
Proof.
  induction events as [|ev events IH]; intros s H.
  - simpl. rewrite !app_nil_r. now destruct s.
  - cbn [forallb] in H. apply andb_true_iff in H as [Hev Hrest].
    cbn [fold_left flat_map]. rewrite (IH _ Hrest), (step_data _ _ Hev).
    cbn [st_timedOut st_timerArmed st_signals st_stdoutChunks
         st_stderrChunks st_settled].
    now rewrite <- !app_assoc.
Qed.



Lemma step_settled_stays s ev r :
  st_settled s = Some r -> st_settled (step s ev) = Some r.
Proof.
  intros H. destruct ev; simpl; try assumption.
  - now destruct (st_timerArmed s).
  - now rewrite H.
  - now rewrite H.
Qed.

Lemma settled_stays : forall more s r,
  st_settled s = Some r -> st_settled (fold_left step more s) = Some r.
Proof.
  induction more as [|ev more IH]; intros s r H; simpl; [assumption|].
  apply IH. now apply step_settled_stays.
Qed.



End BridgeFacts.

(* ================================================================== *)
(** * Transport: header blocks                                         *)
(* ================================================================== *)

Module HeaderFacts.
Import Transport Headers TransportFacts.

Lemma headerLine_parts line :
  headerLine line = true ->
  nonEmpty line = true /\ allChars isPlain line = true.
Proof. unfold headerLine. intros H. now apply andb_true_iff in H. Qed.

(** ** Reading the block byte by byte *)

Lemma no_end_after_plain s c :
  c <> LF ->
  endsWith ((s ++ String c (String CR "")) ++ String LF "") CRLFCRLF = false.
Proof.
  intros Hc. destruct (endsWith _ _) eqn:E; [|reflexivity].
  apply endsWith_true in E as [t E].
  apply (f_equal list_ascii_of_string) in E.
  rewrite !loa_app in E.
  change (list_ascii_of_string CRLFCRLF)
    with ([CR] ++ [LF] ++ [CR] ++ [LF])%list in E.
  change (list_ascii_of_string (String c (String CR "")))
    with ([c] ++ [CR])%list in E.
  change (list_ascii_of_string (String LF "")) with [LF] in E.
  rewrite !app_assoc in E.
  apply app_inj_tail in E as [E _].
  apply app_inj_tail in E as [E _].
  apply app_inj_tail in E as [_ E]. contradiction.
Qed.

Lemma plain_last line :
  nonEmpty line = true -> allChars isPlain line = true ->
  exists init c, line = init ++ String c "" /\ c <> LF.
Proof.
  induction line as [|a line IH]; [discriminate|]. intros _ H.
  cbn [allChars] in H. apply andb_true_iff in H as [Ha Hl].
  destruct line as [|b line].
  - exists "", a. split; [reflexivity|]. now apply isPlain_not_LF.
  - destruct (IH eq_refl Hl) as (init & c & E & Hc).
    exists (String a init), c. split; [|assumption].
    cbn [append]. now rewrite <- E.
Qed.

Lemma readHeader_line line headerRaw tail :
  headerLine line = true ->
  readHeader headerRaw (Buffer_from (line ++ CRLF) ++ tail)%list
  = readHeader (headerRaw ++ line ++ CRLF) tail.
Proof.
  intros H. apply headerLine_parts in H as [Hne Hp].
  unfold Buffer_from. rewrite loa_app, <- app_assoc.
  fold (Buffer_from line). rewrite (readHeader_plain line headerRaw _ Hp).
  change (list_ascii_of_string CRLF ++ tail)%list with (CR :: LF :: tail).
  rewrite readHeader_skip by (reflexivity || discriminate).
  rewrite readHeader_cons. change (ascii_decode LF) with LF.
  destruct (plain_last line Hne Hp) as (init & c & -> & Hc).
  replace (((headerRaw ++ init ++ String c "") ++ String CR "")
             ++ String LF "")
    with (((headerRaw ++ init) ++ String c (String CR ""))
            ++ String LF "")
    by (now rewrite !append_assoc).
  rewrite (no_end_after_plain _ c Hc).
  f_equal. now rewrite !append_assoc.
Qed.

Lemma readHeader_end headerRaw tail :
  readHeader (headerRaw ++ CRLF) (Buffer_from CRLF ++ tail)%list
  = (Some (headerRaw ++ CRLF ++ CRLF), tail).
Proof.
  change (Buffer_from CRLF ++ tail)%list with (CR :: LF :: tail).
  rewrite readHeader_skip by (reflexivity || discriminate).
  rewrite readHeader_cons. change (ascii_decode LF) with LF.
  replace (((headerRaw ++ CRLF) ++ String CR "") ++ String LF "")
    with (headerRaw ++ CRLFCRLF)
    by (unfold CRLFCRLF, CRLF; now rewrite !append_assoc).
  rewrite endsWith_append. f_equal.
Qed.

Lemma concat_cons_empty s l :
  String.concat "" (s :: l) = s ++ String.concat "" l.
Proof.
  destruct l as [|t l]; cbn [String.concat].
  - now rewrite append_nil_r.
  - reflexivity.
Qed.
Lemma blockText_cons line lines :
  blockText (line :: lines) = (line ++ CRLF) ++ blockText lines.
Proof. unfold blockText. cbn [map]. apply concat_cons_empty. Qed.

Lemma readHeader_lines : forall lines headerRaw tail,
  forallb headerLine lines = true ->
  readHeader (headerRaw ++ CRLF) (headerBlock lines ++ tail)%list
  = (Some ((headerRaw ++ CRLF) ++ blockText lines ++ CRLF), tail).
Proof.
  induction lines as [|line lines IH]; intros headerRaw tail H.
  - unfold headerBlock, blockText. cbn [map String.concat append].
    rewrite readHeader_end. now rewrite append_assoc.
  - cbn [forallb] in H. apply andb_true_iff in H as [Hl Hls].
    unfold headerBlock. rewrite blockText_cons.
    unfold Buffer_from. rewrite append_assoc, loa_app, <- app_assoc.
    fold (Buffer_from (line ++ CRLF)).
    fold (Buffer_from (blockText lines ++ CRLF)).
    fold (headerBlock lines).
    rewrite (readHeader_line line _ _ Hl).
    replace ((headerRaw ++ CRLF) ++ line ++ CRLF)
      with (((headerRaw ++ CRLF) ++ line) ++ CRLF)
      by (now rewrite !append_assoc).
    rewrite IH by assumption. f_equal. f_equal.
    now rewrite !append_assoc.
Qed.

Lemma readHeader_block line lines tail :
  forallb headerLine (line :: lines) = true ->
  readHeader "" (headerBlock (line :: lines) ++ tail)%list
  = (Some (blockText (line :: lines) ++ CRLF), tail).
Proof.
  intros H. cbn [forallb] in H. apply andb_true_iff in H as [Hl Hls].
  unfold headerBlock. rewrite blockText_cons.
  unfold Buffer_from. rewrite append_assoc, loa_app, <- app_assoc.
  fold (Buffer_from (line ++ CRLF)).
  fold (Buffer_from (blockText lines ++ CRLF)).
  fold (headerBlock lines).
  rewrite (readHeader_line line "" _ Hl).
  change ("" ++ line ++ CRLF) with (line ++ CRLF).
  rewrite readHeader_lines by assumption.
  now rewrite !append_assoc.
Qed.

(** ** Splitting the block into lines *)

Lemma split_from_CRLF cur tail :
  split_from CRLF 0 cur (CRLF ++ tail)
  = cur :: split_from CRLF 0 "" tail.
Proof.
  unfold CRLF. cbn [append split_from String.prefix String.length Nat.sub].
  destruct (ascii_dec CR CR) as [_|n]; [|now elim n].
  destruct (ascii_dec LF LF) as [_|n]; [|now elim n].
  now destruct tail.
Qed.

Lemma plain_no_CR line :
  allChars isPlain line = true ->
  allChars (fun c => negb (Ascii.eqb c CR)) line = true.
Proof.
  apply allChars_weaken. intros c Hc.
  apply negb_true_iff, Ascii.eqb_neq. now apply isPlain_not_CR.
Qed.

Lemma split_block : forall lines,
  forallb headerLine lines = true ->
  filter nonEmpty (split CRLF (blockText lines ++ CRLF)) = lines.
Proof.
  unfold split.
  induction lines as [|line lines IH]; intros H; [reflexivity|].
  cbn [forallb] in H. apply andb_true_iff in H as [Hl Hls].
  apply headerLine_parts in Hl as [Hne Hp].
  rewrite blockText_cons, !append_assoc.
  unfold CRLF at 1 3.
  rewrite (split_from_plain CR (String LF "") line "" _ (plain_no_CR _ Hp)).
  fold CRLF. rewrite split_from_CRLF.
  change ("" ++ line) with line. cbn [filter]. rewrite Hne.
  f_equal. now apply IH.
Qed.

(** ** The header map *)

Lemma parseHeaderLine_field m line :
  parseHeaderLine m line
  = match headerField line with
    | Some (key, value) => header_set key value m
    | None => m
    end.
Proof.
  unfold parseHeaderLine, headerField.
  now destruct (indexOf ":" line) as [[|i]|].
Qed.

Lemma header_get_other : forall lines m,
  forallb (fun line => negb (isContentLength line)) lines = true ->
  header_get "content-length" (fold_left parseHeaderLine lines m)
  = header_get "content-length" m.
Proof.
  induction lines as [|line lines IH]; intros m H; [reflexivity|].
  cbn [forallb] in H. apply andb_true_iff in H as [Hl Hls].
  cbn [fold_left]. rewrite IH by assumption.
  rewrite parseHeaderLine_field. unfold isContentLength in Hl.
  destruct (headerField line) as [[key value]|]; [|reflexivity].
  apply negb_true_iff in Hl. unfold header_set.
  destruct (String.eqb key "__proto__"); [reflexivity|].
  cbn [header_get]. now rewrite Hl.
Qed.

(** X1.  Header blocks are read leniently.  A frame may carry any
    header lines besides the length (a [Content-Type], say): they are
    ignored.  The name of the length header is matched without regard
    to case and to blanks around the name and the value, and of several
    length headers the last one counts.  The body is then read in full
    and what follows it is left for the next turn. *)
Theorem extra_headers_are_ignored :
  forall (Json : Type) (JSON_parse : Buffer -> option Json)
         (deliver : Buffer -> nat -> nat)
         (before after : list string) (line : string)
         (body rest : Buffer),
    forallb headerLine (before ++ line :: after) = true ->
    headerField line
    = Some ("content-length", String_nat (List.length body)) ->
    forallb (fun l => negb (isContentLength l)) after = true ->
    body <> [] ->
    readMessageSync JSON_parse deliver
      (headerBlock (before ++ line :: after) ++ body ++ rest)%list
    = (readResult (JSON_parse body), rest).
Proof.
  intros Json JSON_parse deliver before after line body rest Hlines Hfield
         Hafter Hbody.
  unfold readMessageSync.
  assert (Hread : readHeader "" (headerBlock (before ++ line :: after)
                                 ++ body ++ rest)%list
                  = (Some (blockText (before ++ line :: after) ++ CRLF),
                     (body ++ rest)%list)).
  { destruct before as [|b before]; now apply readHeader_block. }
  rewrite Hread. unfold parseHeaders.
  rewrite split_block by assumption.
  rewrite fold_left_app. cbn [fold_left].
  unfold contentLength.
  rewrite header_get_other by assumption.
  rewrite parseHeaderLine_field, Hfield.
  unfold header_set. cbn [String.eqb Ascii.eqb Bool.eqb header_get].
  unfold orElse. rewrite String_nat_nonEmpty, Number_of_String_nat.
  destruct (List.length body) eqn:El.
  - destruct body; [now elim Hbody|discriminate El].
  - rewrite <- El, readExactSync_full. now destruct (JSON_parse body).
Qed.

Lemma extra_headers_are_ignored_witness :
  readMessageSync (fun b : Buffer => Some b) (fun _ _ => 0)
    (headerBlock ["Content-Type: application/json";
                  "Content-Length: 99";
                  "content-length :  2 ";
                  "X-Trace: on"]
     ++ Buffer_from "{}" ++ Buffer_from "next")%list
  = (Message (Buffer_from "{}"), Buffer_from "next").
Proof.
  refine (extra_headers_are_ignored Buffer (fun b => Some b) (fun _ _ => 0)
            ["Content-Type: application/json"; "Content-Length: 99"]
            ["X-Trace: on"] "content-length :  2 "
            (Buffer_from "{}") (Buffer_from "next")
            eq_refl eq_refl eq_refl _).
  discriminate.
Defined.

End HeaderFacts.

(* ================================================================== *)
(** * Properties of the JSON-RPC skeleton                              *)
(* ================================================================== *)

Module ServerFacts.

Import Transport Rpc.

(** ** Reading consumes input *)

Lemma readHeader_consumes : forall stdin headerRaw header rest,
  readHeader headerRaw stdin = (Some header, rest) ->
  List.length rest < List.length stdin.
Proof.
  induction stdin as [|b stdin IH]; intros headerRaw header rest H.
  - discriminate.
  - rewrite TransportFacts.readHeader_cons in H.
    destruct (endsWith _ _).
    + injection H as _ <-. simpl. lia.
    + apply IH in H. simpl. lia.
Qed.

Lemma readExact_loop_rest deliver : forall fuel out need stdin res rest,
  readExact_loop deliver fuel out need stdin = (res, rest) ->
  List.length rest <= List.length stdin.
Proof.
  induction fuel as [|fuel IH]; intros out need stdin res rest H.
  - destruct need; simpl in H; injection H as _ <-; lia.
  - destruct need as [|k]; [simpl in H; injection H as _ <-; lia|].
    cbn [readExact_loop] in H.
    destruct (TransportFacts.readSyncRetry_spec deliver (S k) stdin)
      as (n & E & _ & Hn & _).
    rewrite E in H.
    destruct (firstn n stdin) as [|b got].
    + injection H as _ <-. rewrite length_skipn. lia.
    + apply IH in H. rewrite length_skipn in H. lia.
Qed.

Lemma readMessageSync_consumes (JSON_parse : Buffer -> option json) deliver
      stdin msg rest :
  readMessageSync JSON_parse deliver stdin = (Message msg, rest) ->
  List.length rest < List.length stdin.
Proof.
  unfold readMessageSync.
  destruct (readHeader "" stdin) as [[header|] stdin1] eqn:Eh;
    [|discriminate].
  apply readHeader_consumes in Eh.
  destruct (contentLength (parseHeaders header)) as [[|len]|];
    try discriminate.
  unfold readExactSync.
  destruct (readExact_loop deliver (S len) [] (S len) stdin1)
    as [[body|] stdin2] eqn:Eb; [|discriminate].
  apply readExact_loop_rest in Eb.
  destruct (JSON_parse body); [|discriminate].
  intros H. injection H as _ <-. lia.
Qed.

Section Loop.

Variables (E : Type) (R : E -> Type).
Variables (SERVER_NAME : string) (TOOLS : json).
Variable callTool : string -> json -> Prog R ToolResult.
Variables (W : Type) (h : Handler R W).
Variable JSON_stringify : json -> Buffer.
Variable JSON_parse : Buffer -> option json.
Variable deliver : Buffer -> nat -> nat.
Variable syntaxErrorOf : Buffer -> string.
Variable stackOf : string -> option string.

Let serve' := serve SERVER_NAME TOOLS callTool h JSON_parse deliver
                    syntaxErrorOf stackOf.
Let loop' := loop SERVER_NAME TOOLS callTool h JSON_parse deliver
                  syntaxErrorOf stackOf.
Let respond' := respond SERVER_NAME TOOLS callTool h stackOf.

(** Fuel above the length of the input is never used up, and how much
    there is above it does not matter. *)
Lemma serve_fuel : forall fuel stdin w,
  List.length stdin < fuel ->
  serve' fuel stdin w = loop' stdin w
  /\ exists s, loop' stdin w = Some s.
Proof.
  assert (Hind : forall n stdin, List.length stdin <= n ->
            forall fuel w, List.length stdin < fuel ->
              exists s, serve' fuel stdin w = Some s
                        /\ serve' (S (List.length stdin)) stdin w = Some s).
  { induction n as [|n IH]; intros stdin Hn fuel w Hfuel.
    - destruct stdin; [|simpl in Hn; lia].
      destruct fuel as [|fuel]; [lia|].
      eexists. split; reflexivity.
    - destruct fuel as [|fuel]; [lia|].
      unfold serve'. cbn [serve].
      destruct (readMessageSync JSON_parse deliver stdin)
        as [[| msg |] rest] eqn:Er; try (eexists; split; reflexivity).
      destruct (negb (Json.isTruthy msg));
        [eexists; split; reflexivity|].
      destruct (respond SERVER_NAME TOOLS callTool h stackOf msg w)
        as [replies w'].
      apply readMessageSync_consumes in Er.
      destruct (IH rest ltac:(lia) fuel w' ltac:(lia)) as (s & H1 & H2).
      destruct (IH rest ltac:(lia) (List.length stdin) w' ltac:(lia))
        as (s' & H1' & H2').
      unfold serve' in H1, H1', H2, H2'.
      rewrite H1, H1'.
      assert (s' = s) by congruence. subst s'.
      eexists. split; reflexivity. }
  intros fuel stdin w Hfuel.
  destruct (Hind (List.length stdin) stdin (le_n _) fuel w Hfuel)
    as (s & H1 & H2).
  unfold loop', loop. fold serve'. rewrite H1, H2. eauto.
Qed.

End Loop.

(** ** The envelopes *)

Lemma get_successResponse id result :
  Json.get "id" (successResponse id result) = id
  /\ Json.get "jsonrpc" (successResponse id result) = Some (JString "2.0")
  /\ Json.get "result" (successResponse id result) = Some result
  /\ Json.get "error" (successResponse id result) = None.
Proof. destruct id; repeat split. Qed.

Lemma get_errorResponse id code message data :
  Json.get "id" (errorResponse id code message data) = id
  /\ Json.get "jsonrpc" (errorResponse id code message data)
     = Some (JString "2.0")
  /\ Json.get "result" (errorResponse id code message data) = None
  /\ exists err,
       Json.get "error" (errorResponse id code message data) = Some err
       /\ Json.get "code" err = Some (JNumber code)
       /\ Json.get "message" err = Some (JString message)
       /\ Json.get "data" err = data.
Proof.
  destruct id; repeat split; eexists; (split; [reflexivity|]);
    destruct data; repeat split.
Qed.

(** ** [handleRequest] *)

Section HandleRequest.

Variables (E : Type) (R : E -> Type).
Variables (SERVER_NAME : string) (TOOLS : json).
Variable callTool : string -> json -> Prog R ToolResult.

Lemma methodOf_null : methodOf JNull = "".
Proof. reflexivity. Qed.

(** The four methods that are answered whether or not the message has
    an id. *)
Lemma handleRequest_cases msg :
  msg <> JNull ->
  handleRequest SERVER_NAME TOOLS callTool msg
  = if String.eqb (methodOf msg) "initialize" then
      Ret (Some (successResponse (Json.get "id" msg)
                   (initializeResult SERVER_NAME (paramsOf msg))))
    else if String.eqb (methodOf msg) "tools/list" then
      Ret (Some (successResponse (Json.get "id" msg)
                                 (JObject [("tools", TOOLS)])))
    else if String.eqb (methodOf msg) "tools/call" then
      if negb (nonEmpty (toolNameOf msg)) then
        Ret (Some (errorResponse (Json.get "id" msg) (-32602)
                     "Invalid params: missing tool name." None))
      else
        bind (callTool (toolNameOf msg) (argumentsOf msg))
             (fun result =>
                Ret (Some (successResponse (Json.get "id" msg)
                                           (toolResult_json result))))
    else if String.eqb (methodOf msg) "ping" then
      Ret (Some (successResponse (Json.get "id" msg) (JObject [])))
    else if String.eqb (methodOf msg) "notifications/initialized"
            || String.eqb (methodOf msg) "initialized" then
      Ret None
    else
      match Json.get "id" msg with
      | Some _ =>
          Ret (Some (errorResponse (Json.get "id" msg) (-32601)
                       ("Method not found: " ++ methodOf msg) None))
      | None => Ret None
      end.
Proof. destruct msg; intros H; try reflexivity. now elim H. Qed.



(** X3.  What a response looks like.  Whatever the environment does, a
    response that [handleRequest] returns carries the [id] of the
    request (none when the request has none) and [jsonrpc: "2.0"].  It
    is an error response in two cases only, both decided before any
    effect: [tools/call] without a tool name (code -32602) and an
    unknown method (code -32601, the message naming the method).
    Otherwise it holds a [result]; for [tools/call] that is the
    [ToolResult] the tool returned, also when its [isError] is set: a
    failing tool is reported inside a success response. *)
Theorem response_shape :
  forall (W : Type) (h : Handler R W) (msg : json) (w w' : W)
         (response : json),
    run h (handleRequest SERVER_NAME TOOLS callTool msg) w
    = (inr (Some response), w') ->
    Json.get "id" response = Json.get "id" msg
    /\ Json.get "jsonrpc" response = Some (JString "2.0")
    /\ match Json.get "error" response with
       | Some err =>
           Json.get "result" response = None
           /\ w' = w
           /\ ((methodOf msg = "tools/call" /\ toolNameOf msg = ""
                /\ Json.get "code" err = Some (JNumber (-32602)))
               \/ (~ In (methodOf msg)
                        ["initialize"; "tools/list"; "tools/call"; "ping"]
                   /\ Json.get "code" err = Some (JNumber (-32601))
                   /\ Json.get "message" err
                      = Some (JString ("Method not found: "
                                         ++ methodOf msg))))
       | None =>
           exists result,
             Json.get "result" response = Some result
             /\ (methodOf msg = "tools/call" ->
                 exists r,
                   run h (callTool (toolNameOf msg) (argumentsOf msg)) w
                   = (inr r, w')
                   /\ result = toolResult_json r)
       end.
Proof.
  intros W h msg w w' response H.
  assert (Hn : msg <> JNull) by (intros ->; discriminate H).
  rewrite handleRequest_cases in H by assumption.
  assert (Hok : forall result,
            (methodOf msg = "tools/call" ->
             exists r,
               run h (callTool (toolNameOf msg) (argumentsOf msg)) w
               = (inr r, w') /\ result = toolResult_json r) ->
            response = successResponse (Json.get "id" msg) result ->
            Json.get "id" response = Json.get "id" msg
            /\ Json.get "jsonrpc" response = Some (JString "2.0")
            /\ match Json.get "error" response with
               | Some err =>
                   Json.get "result" response = None
                   /\ w' = w
                   /\ ((methodOf msg = "tools/call" /\ toolNameOf msg = ""
                        /\ Json.get "code" err = Some (JNumber (-32602)))
                       \/ (~ In (methodOf msg)
                                ["initialize"; "tools/list"; "tools/call";
                                 "ping"]
                           /\ Json.get "code" err = Some (JNumber (-32601))
                           /\ Json.get "message" err
                              = Some (JString ("Method not found: "
                                                 ++ methodOf msg))))
               | None =>
                   exists result,
                     Json.get "result" response = Some result
                     /\ (methodOf msg = "tools/call" ->
                         exists r,
                           run h (callTool (toolNameOf msg)
                                           (argumentsOf msg)) w
                           = (inr r, w')
                           /\ result = toolResult_json r)
               end).
  { intros result Hcall ->.
    destruct (get_successResponse (Json.get "id" msg) result)
      as (H1 & H2 & H3 & H4).
    rewrite H4. repeat split; try assumption. now exists result. }
  destruct (String.eqb_spec (methodOf msg) "initialize") as [e1|n1].
  { cbn [run] in H. injection H as <- <-. eapply Hok; [|reflexivity].
    intros e. rewrite e1 in e. discriminate. }
  destruct (String.eqb_spec (methodOf msg) "tools/list") as [e2|n2].
  { cbn [run] in H. injection H as <- <-. eapply Hok; [|reflexivity].
    intros e. rewrite e2 in e. discriminate. }
  destruct (String.eqb_spec (methodOf msg) "tools/call") as [e3|n3].
  { destruct (nonEmpty (toolNameOf msg)) eqn:En; cbn [negb] in H.
    - rewrite OrchestrationFacts.run_bind in H.
      destruct (run h (callTool (toolNameOf msg) (argumentsOf msg)) w)
        as [[err|r] w1] eqn:Er; [discriminate H|].
      cbn [run] in H. injection H as <- <-.
      eapply Hok; [|reflexivity]. intros _. now exists r.
    - cbn [run] in H. injection H as <- <-.
      destruct (get_errorResponse (Json.get "id" msg) (-32602)
                  "Invalid params: missing tool name." None)
        as (H1 & H2 & H3 & err & H4 & H5 & H6 & H7).
      rewrite H4. repeat split; try assumption.
      left. repeat split; try assumption.
      destruct (toolNameOf msg); [reflexivity|discriminate]. }
  destruct (String.eqb_spec (methodOf msg) "ping") as [e4|n4].
  { cbn [run] in H. injection H as <- <-. eapply Hok; [|reflexivity].
    intros e. rewrite e4 in e. discriminate. }
  destruct (String.eqb (methodOf msg) "notifications/initialized"
            || String.eqb (methodOf msg) "initialized");
    [discriminate H|].
  destruct (Json.get "id" msg) as [id|] eqn:Eid; [|discriminate H].
  remember ("Method not found: " ++ methodOf msg) as text eqn:Et.
  cbn [run] in H. injection H as <- <-.
  destruct (get_errorResponse (Some id) (-32601) text None)
    as (H1 & H2 & H3 & err & H4 & H5 & H6 & H7).
  rewrite H4. repeat split; try assumption.
  right. repeat split; try assumption.
  intros [e|[e|[e|[e|[]]]]]; congruence.
Qed.

End HandleRequest.

Lemma response_shape_witness :
  let msg := request 7 "tools/call"
                     [("name", JString "fail"); ("arguments", JObject [])] in
  let response :=
    successResponse (Some (JNumber 7))
                    (toolResult_json (textResult "ran fail" true)) in
  Json.get "id" response = Some (JNumber 7)
  /\ Json.get "jsonrpc" response = Some (JString "2.0")
  /\ exists result,
       Json.get "result" response = Some result
       /\ (methodOf msg = "tools/call" ->
           exists r,
             run demoTools (anyTool (toolNameOf msg) (argumentsOf msg)) 0
             = (inr r, 1)
             /\ result = toolResult_json r).
Proof.
  intros msg response.
  exact (response_shape _ _ "demo" (JArray []) anyTool nat demoTools
                        msg 0 1 response eq_refl).
Defined.

(** ** The loop of [main] *)


Section Main.

Variables (E : Type) (R : E -> Type).
Variables (SERVER_NAME : string) (TOOLS : json).
Variable callTool : string -> json -> Prog R ToolResult.
Variables (W : Type) (h : Handler R W).
Variable JSON_stringify : json -> Buffer.
Variable JSON_parse : Buffer -> option json.
Variable deliver : Buffer -> nat -> nat.
Variable syntaxErrorOf : Buffer -> string.
Variable stackOf : string -> option string.

Let loop' := loop SERVER_NAME TOOLS callTool h JSON_parse deliver
                  syntaxErrorOf stackOf.
Let respond' := respond SERVER_NAME TOOLS callTool h stackOf.
Let respondAll' := respondAll SERVER_NAME TOOLS callTool h stackOf.

(** One turn of the loop. *)
Lemma loop_step stdin w :
  loop' stdin w
  = match readMessageSync JSON_parse deliver stdin with
    | (NoMessage, rest) => Some (mkServed [] w rest)
    | (ParseThrows, rest) =>
        Some (mkServed [errorResponse (Some JNull) (-32000)
                                      (syntaxErrorOf stdin) None] w rest)
    | (Message msg, rest) =>
        if negb (Json.isTruthy msg) then Some (mkServed [] w rest)
        else
          match loop' rest (snd (respond' msg w)) with
          | Some later =>
              Some (mkServed (fst (respond' msg w) ++ written later)%list
                             (world later) (unread later))
          | None => None
          end
    end.
Proof.
  unfold loop', loop. cbn [serve].
  destruct (readMessageSync JSON_parse deliver stdin)
    as [[| msg |] rest] eqn:Er; try reflexivity.
  destruct (negb (Json.isTruthy msg)); [reflexivity|].
  unfold respond'.
  destruct (respond SERVER_NAME TOOLS callTool h stackOf msg w)
    as [replies w'].
  apply readMessageSync_consumes in Er.
  destruct (serve_fuel E R SERVER_NAME TOOLS callTool W h JSON_parse
              deliver syntaxErrorOf stackOf (List.length stdin) rest w' Er)
    as [-> _].
  reflexivity.
Qed.

Lemma loop_frame msg rest w :
  wellFormed JSON_stringify JSON_parse msg ->
  loop' (writeMessage JSON_stringify msg ++ rest)%list w
  = match loop' rest (snd (respond' msg w)) with
    | Some later =>
        Some (mkServed (fst (respond' msg w) ++ written later)%list
                       (world later) (unread later))
    | None => None
    end.
Proof.
  intros (Ht & Hne & Hcodec). rewrite loop_step.
  rewrite TransportFacts.readMessageSync_writeMessage by assumption.
  rewrite Hcodec. cbn [readResult]. now rewrite Ht.
Qed.

Lemma loop_frames : forall msgs tail w,
  Forall (wellFormed JSON_stringify JSON_parse) msgs ->
  loop' (frames JSON_stringify msgs ++ tail)%list w
  = match loop' tail (snd (respondAll' msgs w)) with
    | Some later =>
        Some (mkServed (fst (respondAll' msgs w) ++ written later)%list
                       (world later) (unread later))
    | None => None
    end.
Proof.
  induction msgs as [|msg msgs IH]; intros tail w Hall.
  - unfold respondAll', frames. cbn [flat_map app respondAll fst snd].
    rewrite app_nil_l. now destruct (loop' tail w) as [[? ? ?]|].
  - inversion Hall as [|? ? Hmsg Hrest]; subst.
    unfold frames. cbn [flat_map]. rewrite <- app_assoc.
    fold (frames JSON_stringify msgs).
    rewrite loop_frame by assumption.
    rewrite IH by assumption.
    unfold respondAll', respond', loop'. cbn [respondAll].
    destruct (respond SERVER_NAME TOOLS callTool h stackOf msg w)
      as [replies w'].
    cbn [fst snd].
    destruct (respondAll SERVER_NAME TOOLS callTool h stackOf msgs w')
      as [more w''].
    cbn [fst snd].
    destruct (loop SERVER_NAME TOOLS callTool h JSON_parse deliver
                   syntaxErrorOf stackOf tail w'') as [later|];
      [|reflexivity].
    cbn [written world unread]. now rewrite app_assoc.
Qed.

Lemma loop_end w : loop' [] w = Some (mkServed [] w []).
Proof. reflexivity. Qed.

(** X4.  [main] comes to an end on every input, and the first message
    it writes is the [server/ready] notification.  Every turn of the
    loop that goes on has consumed at least one byte of standard input,
    so the loop makes at most as many turns as there are bytes: with
    fuel above the length of the input, [serve] never gives up, and the
    result does not depend on how much fuel there is. *)
Theorem main_terminates :
  forall (stdin : Buffer) (w : W),
    exists s,
      main SERVER_NAME TOOLS callTool h JSON_parse deliver syntaxErrorOf
           stackOf stdin w = Some s
      /\ hd_error (written s) = Some (ready SERVER_NAME)
      /\ forall fuel,
           List.length stdin < fuel ->
           serve SERVER_NAME TOOLS callTool h JSON_parse deliver
                 syntaxErrorOf stackOf fuel stdin w
           = loop SERVER_NAME TOOLS callTool h JSON_parse deliver
                  syntaxErrorOf stackOf stdin w.
Proof.
  intros stdin w.
  destruct (serve_fuel E R SERVER_NAME TOOLS callTool W h JSON_parse
              deliver syntaxErrorOf stackOf (S (List.length stdin)) stdin w
              (Nat.lt_succ_diag_r _)) as (_ & s & Hs).
  unfold main. rewrite Hs. eexists. split; [reflexivity|].
  split; [reflexivity|].
  intros fuel Hfuel.
  destruct (serve_fuel E R SERVER_NAME TOOLS callTool W h JSON_parse
              deliver syntaxErrorOf stackOf fuel stdin w Hfuel) as [H _].
  now rewrite H.
Qed.

(** X5.  Requests are served one by one, in the order they arrive.
    When standard input holds the frames of [msgs], each a message that
    comes through the JSON codec and is not falsy, followed by [tail],
    the loop writes what [respond] gives for each message in turn, each
    run starting in the state the one before left, and then goes on
    with [tail].  On the frames alone [main] writes the ready
    notification and these replies, reads all the input and returns. *)
Theorem requests_served_in_order :
  forall (msgs : list json) (tail : Buffer) (w : W),
    Forall (wellFormed JSON_stringify JSON_parse) msgs ->
    loop SERVER_NAME TOOLS callTool h JSON_parse deliver syntaxErrorOf
         stackOf (frames JSON_stringify msgs ++ tail)%list w
    = match loop SERVER_NAME TOOLS callTool h JSON_parse deliver
                 syntaxErrorOf stackOf tail
                 (snd (respondAll SERVER_NAME TOOLS callTool h stackOf
                                  msgs w)) with
      | Some later =>
          Some (mkServed
                  (fst (respondAll SERVER_NAME TOOLS callTool h stackOf
                                   msgs w) ++ written later)%list
                  (world later) (unread later))
      | None => None
      end
    /\ main SERVER_NAME TOOLS callTool h JSON_parse deliver syntaxErrorOf
            stackOf (frames JSON_stringify msgs) w
       = Some (mkServed
                 (ready SERVER_NAME
                  :: fst (respondAll SERVER_NAME TOOLS callTool h stackOf
                                     msgs w))
                 (snd (respondAll SERVER_NAME TOOLS callTool h stackOf
                                  msgs w))
                 []).
Proof.
  intros msgs tail w Hall. split.
  - now apply loop_frames.
  - unfold main.
    rewrite <- (app_nil_r (frames JSON_stringify msgs)).
    fold loop'. rewrite loop_frames by assumption.
    rewrite loop_end. cbn [written world unread].
    now rewrite app_nil_r.
Qed.

(** X6.  A tool that raises costs only its own reply.  When the tool
    of a [tools/call] raises [err], the loop writes the error response
    with code -32000, the [id] of the request, the text of the error as
    message and its stack as data (nothing at all when the request has
    no [id]), and goes on with the rest of the input in the state the
    failed run left. *)
Theorem tool_exception_is_reported :
  forall (msg : json) (tail : Buffer) (w w1 : W) (err : string),
    wellFormed JSON_stringify JSON_parse msg ->
    methodOf msg = "tools/call" ->
    toolNameOf msg <> "" ->
    run h (callTool (toolNameOf msg) (argumentsOf msg)) w = (inl err, w1) ->
    let replies :=
      match Json.get "id" msg with
      | Some id =>
          [errorResponse (Some id) (-32000) err
                         (Some (stackData stackOf err))]
      | None => []
      end in
    respond SERVER_NAME TOOLS callTool h stackOf msg w = (replies, w1)
    /\ loop SERVER_NAME TOOLS callTool h JSON_parse deliver syntaxErrorOf
            stackOf (writeMessage JSON_stringify msg ++ tail)%list w
       = match loop SERVER_NAME TOOLS callTool h JSON_parse deliver
                    syntaxErrorOf stackOf tail w1 with
         | Some later =>
             Some (mkServed (replies ++ written later)%list
                            (world later) (unread later))
         | None => None
         end
    /\ forall response,
         In response replies ->
         Json.get "id" response = Json.get "id" msg
         /\ Json.get "result" response = None
         /\ exists error,
              Json.get "error" response = Some error
              /\ Json.get "code" error = Some (JNumber (-32000))
              /\ Json.get "message" error = Some (JString err)
              /\ Json.get "data" error = Some (stackData stackOf err).
Proof.
  intros msg tail w w1 err Hwf Hm Hname Hrun replies.
  assert (Hn : msg <> JNull).
  { intros ->. discriminate Hm. }
  assert (Hh : run h (handleRequest SERVER_NAME TOOLS callTool msg) w
               = (inl err, w1)).
  { rewrite handleRequest_cases by assumption. rewrite Hm.
    cbn [String.eqb Ascii.eqb Bool.eqb andb].
    destruct (toolNameOf msg) as [|c name] eqn:En; [now elim Hname|].
    cbn [nonEmpty negb].
    now rewrite OrchestrationFacts.run_bind, Hrun. }
  assert (Hr : respond SERVER_NAME TOOLS callTool h stackOf msg w
               = (replies, w1)).
  { unfold respond. now rewrite Hh. }
  split; [exact Hr|]. split.
  - rewrite loop_frame by assumption. unfold respond'.
    now rewrite Hr.
  - intros response Hin. subst replies.
    destruct (Json.get "id" msg) as [id|]; [|contradiction].
    destruct Hin as [<-|[]].
    destruct (get_errorResponse (Some id) (-32000) err
                (Some (stackData stackOf err)))
      as (H1 & H2 & H3 & error & H4 & H5 & H6 & H7).
    repeat split; try assumption. now exists error.
Qed.


End Main.

(** ** The examples *)

Lemma demoRequests_wellFormed :
  Forall (wellFormed demoStringify (demoParse demoCorpus)) demoRequests.
Proof.
  repeat constructor; try discriminate.
Defined.

Lemma requests_served_in_order_witness :
  let serveDemo :=
    loop "demo" (JArray []) anyTool demoTools (demoParse demoCorpus)
         (fun _ _ => 0) demoSyntaxError demoStack in
  let replies :=
    [successResponse (Some (JNumber 1)) (initializeResult "demo" (JObject []));
     errorResponse (Some (JNumber 2)) (-32000) "Error: boom"
                   (Some (JObject []));
     successResponse (Some (JNumber 3)) (JObject [])] in
  serveDemo (frames demoStringify demoRequests ++ Buffer_from "Content-")%list
            0
  = match serveDemo (Buffer_from "Content-") 1 with
    | Some later =>
        Some (mkServed (replies ++ written later)%list
                       (world later) (unread later))
    | None => None
    end
  /\ main "demo" (JArray []) anyTool demoTools (demoParse demoCorpus)
          (fun _ _ => 0) demoSyntaxError demoStack
          (frames demoStringify demoRequests) 0
     = Some (mkServed (ready "demo" :: replies) 1 []).
Proof.
  intros serveDemo replies.
  exact (requests_served_in_order _ _ "demo" (JArray []) anyTool nat
           demoTools demoStringify (demoParse demoCorpus) (fun _ _ => 0)
           demoSyntaxError demoStack demoRequests (Buffer_from "Content-")
           0 demoRequests_wellFormed).
Defined.

Lemma tool_exception_is_reported_witness :
  let msg := request 2 "tools/call" [("name", JString "boom")] in
  let replies :=
    [errorResponse (Some (JNumber 2)) (-32000) "Error: boom"
                   (Some (JObject []))] in
  respond "demo" (JArray []) anyTool demoTools demoStack msg 0
  = (replies, 1)
  /\ loop "demo" (JArray []) anyTool demoTools (demoParse demoCorpus)
          (fun _ _ => 0) demoSyntaxError demoStack
          (writeMessage demoStringify msg
           ++ writeMessage demoStringify (request 3 "ping" []))%list 0
     = match loop "demo" (JArray []) anyTool demoTools
                  (demoParse demoCorpus) (fun _ _ => 0) demoSyntaxError
                  demoStack
                  (writeMessage demoStringify (request 3 "ping" [])) 1 with
       | Some later =>
           Some (mkServed (replies ++ written later)%list
                          (world later) (unread later))
       | None => None
       end
  /\ forall response,
       In response replies ->
       Json.get "id" response = Some (JNumber 2)
       /\ Json.get "result" response = None
       /\ exists error,
            Json.get "error" response = Some error
            /\ Json.get "code" error = Some (JNumber (-32000))
            /\ Json.get "message" error = Some (JString "Error: boom")
            /\ Json.get "data" error = Some (JObject []).
Proof.
  intros msg replies.
  refine (tool_exception_is_reported _ _ "demo" (JArray []) anyTool nat
            demoTools demoStringify (demoParse demoCorpus) (fun _ _ => 0)
            demoSyntaxError demoStack msg
            (writeMessage demoStringify (request 3 "ping" [])) 0 1
            "Error: boom" _ eq_refl _ eq_refl).
  - repeat split. discriminate.
  - discriminate.
Defined.


End ServerFacts.

(* ================================================================== *)
(** * More on the model gateway                                        *)
(* ================================================================== *)

Module RouterFacts.

Import ModelRouter Observe.

(** ** URLs *)

Lemma hex_digit_safe n : n < 16 -> uriSafe (hex_digit n) = true.
Proof.
  intros H. do 16 (destruct n as [|n]; [reflexivity|]). lia.
Qed.

Lemma encodeURIComponent_safe s :
  allChars uriSafe (encodeURIComponent s) = true.
Proof.
  induction s as [|c s IH]; [reflexivity|].
  cbn [encodeURIComponent].
  destruct (uri_unreserved c) eqn:Ec.
  - cbn [allChars]. rewrite IH. unfold uriSafe. now rewrite Ec.
  - cbn [allChars]. rewrite IH, !hex_digit_safe.
    + reflexivity.
    + apply Nat.mod_upper_bound. discriminate.
    + apply Nat.Div0.div_lt_upper_bound.
      pose proof (nat_ascii_bounded c). lia.
Qed.

Lemma strip_last s :
  stripTrailingSlashes s = ""
  \/ exists t c, stripTrailingSlashes s = t ++ String c "" /\ c <> "/"%char.
Proof.
  induction s as [|c s IH]; [now left|].
  cbn [stripTrailingSlashes].
  destruct (stripTrailingSlashes s) as [|d u] eqn:E.
  - destruct (Ascii.eqb_spec c "/"); [now left|].
    right. exists "", c. auto.
  - right. destruct IH as [IH|(t & e & IH & He)]; [discriminate|].
    exists (String c t), e. rewrite IH. auto.
Qed.

Lemma strip_split s :
  exists t, s = stripTrailingSlashes s ++ t
            /\ allChars (Ascii.eqb "/") t = true.
Proof.
  induction s as [|c s (t & Hs & Ht)]; [now exists ""|].
  cbn [stripTrailingSlashes].
  destruct (stripTrailingSlashes s) as [|d u] eqn:E.
  - destruct (Ascii.eqb_spec c "/") as [->|Hc].
    + exists (String "/" t). simpl in Hs. subst t. split; [reflexivity|].
      simpl. exact Ht.
    + exists t. simpl in *. now subst t.
  - exists t. split; [|assumption]. cbn [append] in *. now rewrite <- Hs.
Qed.

Lemma strip_fixed : forall u,
  (u = "" \/ exists t c, u = t ++ String c "" /\ c <> "/"%char) ->
  stripTrailingSlashes u = u.
Proof.
  induction u as [|a u IH]; [reflexivity|].
  intros [H|(t & c & H & Hc)]; [discriminate|].
  cbn [stripTrailingSlashes].
  destruct t as [|b t]; simpl in H.
  - injection H as -> ->. simpl.
    apply Ascii.eqb_neq in Hc. now rewrite Hc.
  - injection H as -> ->.
    rewrite IH by (right; now exists t, c).
    now destruct t.
Qed.

(** X8.  Where the API key goes.  For [openai], [anthropic] and
    [custom], and for [gemini] with an [api_url], the URL and the body
    of the request do not depend on the API key: the key travels in a
    header only ([Authorization], [x-api-key], [x-goog-api-key]).  The
    one exception is [gemini] without an [api_url]: there the request
    has no header of the caller's, and its URL carries the model name
    and the key, both percent-encoded, so that neither holds a
    character that structures a URL. *)
Theorem api_key_stays_in_headers :
  forall (rt : Runtime) (spec : ModelSpec) (key1 key2 prompt : string)
         (timeoutSec : Z) (temperature : Q) (maxTokens : Z),
    nonEmpty key1 = true -> nonEmpty key2 = true ->
    let request key :=
      firstEvent (callModel rt (withKey spec key) prompt timeoutSec
                            temperature maxTokens) in
    (isProvider spec "gemini" && negb (nonEmpty (api_url spec)) = false ->
     option_map req_url (request key1) = option_map req_url (request key2)
     /\ option_map req_payload (request key1)
        = option_map req_payload (request key2))
    /\ (isProvider spec "gemini" && negb (nonEmpty (api_url spec)) = true ->
        option_map req_url (request key1)
        = Some ("https://generativelanguage.googleapis.com/v1beta/models/"
                  ++ encodeURIComponent (model spec)
                  ++ ":generateContent?key=" ++ encodeURIComponent key1)
        /\ option_map req_headers (request key1) = Some [])
    /\ allChars uriSafe (encodeURIComponent (model spec)) = true
    /\ allChars uriSafe (encodeURIComponent key1) = true
    /\ forallb (fun c => negb (uriSafe c))
               ["/"; "?"; "&"; "#"; "="; ":"; " "; "+"]%char = true.
Proof.
  intros rt spec key1 key2 prompt timeoutSec temperature maxTokens
         Hk1 Hk2 request.
  split; [|split; [|repeat split; apply encodeURIComponent_safe]].
  all: subst request; unfold callModel, buildRequest, isProvider, withKey.
  all: cbn [provider api_key api_url model system_prompt id].
  all: rewrite ?Hk1, ?Hk2; cbn [negb].
  all: destruct (String.eqb_spec (provider spec) "openai") as [e|_];
    [rewrite e; cbn; auto; discriminate|].
  all: destruct (String.eqb_spec (provider spec) "anthropic") as [e|_];
    [rewrite e; cbn; auto; discriminate|].
  all: destruct (String.eqb_spec (provider spec) "gemini") as [e|_];
    [cbn [andb]; destruct (nonEmpty (api_url spec)); cbn; auto;
     discriminate|].
  all: cbn [andb].
  all: destruct (String.eqb (provider spec) "custom");
    [destruct (nonEmpty (api_url spec))|]; cbn; auto; discriminate.
Qed.

Lemma api_key_stays_in_headers_witness :
  let spec := mkModelSpec "a" "anthropic" "claude" "" "" "" in
  let request key :=
    firstEvent (callModel demoRuntime (withKey spec key) "hello" 180
                          (2 # 10) 2048) in
  option_map req_url (request "key-one") = option_map req_url (request "key-two")
  /\ option_map req_payload (request "key-one")
     = option_map req_payload (request "key-two").
Proof.
  intros spec request.
  exact (proj1 (api_key_stays_in_headers demoRuntime spec "key-one"
                  "key-two" "hello" 180 (2 # 10) 2048 eq_refl eq_refl)
               eq_refl).
Defined.

(** X9.  Arguments that have no effect.  For [openai] and [custom] the
    whole call is the same whatever [maxTokens] is: [max_tokens] is not
    sent to these providers.  For [anthropic] the whole call is the same
    whatever [temperature] is. *)
Theorem unused_sampling_arguments :
  forall (rt : Runtime) (spec : ModelSpec) (prompt : string)
         (timeoutSec : Z) (temperature temperature' : Q)
         (maxTokens maxTokens' : Z),
    (isProvider spec "openai" || isProvider spec "custom" = true ->
     callModel rt spec prompt timeoutSec temperature maxTokens
     = callModel rt spec prompt timeoutSec temperature maxTokens')
    /\ (isProvider spec "anthropic" = true ->
        callModel rt spec prompt timeoutSec temperature maxTokens
        = callModel rt spec prompt timeoutSec temperature' maxTokens).
Proof.
  intros rt spec prompt timeoutSec temperature temperature' maxTokens
         maxTokens'.
  unfold callModel, buildRequest, isProvider.
  destruct (String.eqb_spec (provider spec) "openai") as [e|_].
  { rewrite e. cbn. split; [reflexivity|discriminate]. }
  destruct (String.eqb_spec (provider spec) "anthropic") as [e|_].
  { rewrite e. cbn. split; [discriminate|reflexivity]. }
  destruct (String.eqb_spec (provider spec) "gemini") as [e|_].
  { rewrite e. cbn. split; discriminate. }
  destruct (String.eqb (provider spec) "custom");
    cbn; split; reflexivity || discriminate.
Qed.

(** X10.  Trailing slashes of a base URL.  [replace(/\/+$/g, "")]
    removes exactly the slashes at the end: what it returns does not end
    in a slash, the input is the result followed by slashes only, and
    applying it again changes nothing.  So the [openai] URL has one
    slash before [chat/completions] however many the configured base
    ends in, and the [anthropic] URL ends in none. *)
Theorem base_url_loses_trailing_slashes :
  forall (rt : Runtime) (base : string),
    endsWith (stripTrailingSlashes base) "/" = false
    /\ (exists slashes,
          base = stripTrailingSlashes base ++ slashes
          /\ allChars (Ascii.eqb "/") slashes = true)
    /\ stripTrailingSlashes (stripTrailingSlashes base)
       = stripTrailingSlashes base
    /\ forall (id model system prompt : string) (k : ascii) (key : string)
              (timeoutSec : Z) (temperature : Q) (maxTokens : Z),
         option_map req_url
           (firstEvent
              (callModel rt (mkModelSpec id "openai" model base
                                         (String k key) system)
                         prompt timeoutSec temperature maxTokens))
         = Some (stripTrailingSlashes
                   (orElse base "https://api.openai.com/v1")
                 ++ "/chat/completions")
         /\ option_map req_url
              (firstEvent
                 (callModel rt (mkModelSpec id "anthropic" model base
                                            (String k key) system)
                            prompt timeoutSec temperature maxTokens))
            = Some (stripTrailingSlashes
                      (orElse base "https://api.anthropic.com/v1/messages")).
Proof.
  intros rt base. split.
  { destruct (strip_last base) as [->|(t & c & -> & Hc)]; [reflexivity|].
    now apply (TransportFacts.endsWith_last t c "" "/"%char). }
  split; [apply strip_split|].
  split; [apply strip_fixed, strip_last|].
  intros. split; reflexivity.
Qed.

End RouterFacts.

(* ================================================================== *)
(** * HTTP replies and their text                                      *)
(* ================================================================== *)

Module ReplyFacts.

Import ModelRouter ModelRouterServer.

(** ** [httpPostJson] *)

Section Http.
Variable JSON_parse : string -> option json.
Variable timeoutSec : Z.

Lemma http_data : forall chunks s statusCode,
  forallb isResData chunks = true ->
  hs_response s = Some statusCode ->
  fold_left (httpStep JSON_parse timeoutSec) chunks s
  = mkHttpState (hs_response s)
      (hs_chunks s
       ++ flat_map (fun ev => match ev with ResData c => [c] | _ => [] end)
                   chunks)
      (hs_destroyed s) (hs_settled s).
Proof.
  induction chunks as [|ev chunks IH]; intros s statusCode Hd Hr.
  - simpl. rewrite app_nil_r. now destruct s.
  - cbn [forallb] in Hd. apply andb_true_iff in Hd as [Hev Hd].
    destruct ev; try discriminate.
    cbn [fold_left flat_map].
    assert (Es : httpStep JSON_parse timeoutSec s (ResData chunk)
                 = mkHttpState (hs_response s) (hs_chunks s ++ [chunk])
                               (hs_destroyed s) (hs_settled s)).
    { unfold httpStep. now rewrite Hr. }
    rewrite Es, (IH _ statusCode Hd) by exact Hr.
    cbn [hs_response hs_chunks hs_destroyed hs_settled].
    now rewrite <- app_assoc.
Qed.

Lemma http_settled_step s ev r :
  hs_settled s = Some r ->
  hs_settled (httpStep JSON_parse timeoutSec s ev) = Some r.
Proof.
  intros H. destruct ev; simpl; try assumption.
  - now destruct (hs_response s).
  - destruct (hs_response s); [|assumption]. simpl. now rewrite H.
  - now rewrite H.
Qed.

Lemma http_settled_stays : forall more s r,
  hs_settled s = Some r ->
  hs_settled (fold_left (httpStep JSON_parse timeoutSec) more s) = Some r.
Proof.
  induction more as [|ev more IH]; intros s r H; simpl; [assumption|].
  apply IH. now apply http_settled_step.
Qed.

End Http.

(** X11.  [httpPostJson], callback by callback.  [chunks] are [data]
    events of the response.  When the response ends, the promise
    resolves to the status code (0 when there is none), the body
    received, and the body parsed, where an empty body and a body that
    is not JSON both count as the empty object.  An [error] event of
    the request, before or after the response began, resolves it to
    status 0 with the error's message as body: once the request is
    created the promise never rejects.  The idle timeout destroys the
    request with the error [Request timed out after <n>s] and settles
    nothing by itself; the [error] event carrying that error does.  A
    settled promise never changes. *)
Theorem httpPostJson_settles :
  forall (JSON_parse : string -> option json) (timeoutSec : Z)
         (statusCode : option Z) (chunks : list HttpEvent) (err : JsError),
    forallb isResData chunks = true ->
    let post := httpPostJson JSON_parse timeoutSec in
    let failed :=
      mkHttpResult 0%Z (JObject [])
                   (orElse (e_message err) (String_error err)) in
    hs_settled (post (ResponseArrives statusCode :: chunks ++ [ResEnd])%list)
    = Some (mkHttpResult (Number_or statusCode 0)
                         (parsedOf JSON_parse (bodyOf chunks))
                         (bodyOf chunks))
    /\ (parsedOf JSON_parse "" = JObject []
        /\ forall raw, JSON_parse raw = None ->
                       parsedOf JSON_parse raw = JObject [])
    /\ hs_settled (post [ReqError err]) = Some failed
    /\ hs_settled (post (ResponseArrives statusCode :: chunks
                         ++ [ReqError err])%list) = Some failed
    /\ (hs_destroyed (post (ResponseArrives statusCode :: chunks
                            ++ [IdleTimeout])%list)
        = Some (timedOutError timeoutSec)
        /\ hs_settled (post (ResponseArrives statusCode :: chunks
                             ++ [IdleTimeout])%list) = None
        /\ hs_settled (post (ResponseArrives statusCode :: chunks
                             ++ [IdleTimeout;
                                 ReqError (timedOutError timeoutSec)])%list)
           = Some (mkHttpResult 0%Z (JObject [])
                     ("Request timed out after " ++ String_Z timeoutSec
                                                 ++ "s")))
    /\ forall events r more,
         hs_settled (post events) = Some r ->
         hs_settled (post (events ++ more)%list) = Some r.
Proof.
  intros JSON_parse timeoutSec statusCode chunks err Hd post failed.
  subst post failed. unfold httpPostJson.
  cbn [fold_left]. rewrite !fold_left_app.
  rewrite (http_data JSON_parse timeoutSec chunks
             (httpStep JSON_parse timeoutSec requested
                       (ResponseArrives statusCode))
             statusCode Hd eq_refl).
  cbn [fold_left httpStep hs_response hs_chunks hs_destroyed hs_settled
       requested resolveWith app].
  split; [reflexivity|].
  split.
  { split; [reflexivity|]. intros raw H. unfold parsedOf. rewrite H.
    now destruct (nonEmpty raw). }
  split; [reflexivity|]. split; [reflexivity|].
  split; [repeat split|].
  intros events r more H. rewrite fold_left_app.
  now apply http_settled_stays.
Qed.

Lemma httpPostJson_settles_witness :
  let parse := fun s : string =>
                 if String.eqb s "{}" then Some (JObject []) else None in
  let post := httpPostJson parse 180 in
  let chunks := [ResData "{"; ResData "}"] in
  let err := mkJsError "Error" "connect ECONNREFUSED" in
  hs_settled (post (ResponseArrives (Some 200%Z) :: chunks ++ [ResEnd])%list)
  = Some (mkHttpResult 200%Z (JObject []) "{}")
  /\ hs_settled (post (ResponseArrives (Some 200%Z) :: chunks
                       ++ [ReqError err])%list)
     = Some (mkHttpResult 0%Z (JObject []) "connect ECONNREFUSED")
  /\ hs_settled (post (ResponseArrives (Some 200%Z) :: chunks
                       ++ [IdleTimeout;
                           ReqError (timedOutError 180)])%list)
     = Some (mkHttpResult 0%Z (JObject [])
                          "Request timed out after 180s").
Proof.
  intros parse post chunks err.
  destruct (httpPostJson_settles parse 180 (Some 200%Z) chunks err eq_refl)
    as (H1 & _ & _ & H2 & (_ & _ & H3) & _).
  split; [exact H1|]. split; [exact H2|exact H3].
Defined.

(** ** The text of a reply *)







(** X13.  Replies that are not in the expected form.  Each of the
    three extractors raises (a [TypeError]) on the reply [null] and on
    no other reply.  A reply without the array the provider's format
    has ([choices], [content], [candidates]), or with an empty one, is
    handed back as its JSON text. *)
Theorem reply_text_fallback :
  forall (stringify : json -> string) (resp : json),
    (extractOpenAIText stringify resp = None <-> resp = JNull)
    /\ (extractAnthropicText stringify resp = None <-> resp = JNull)
    /\ (extractGeminiText stringify resp = None <-> resp = JNull)
    /\ (resp <> JNull ->
        (Json.arrayOrEmpty (Json.get "choices" resp) = [] ->
         extractOpenAIText stringify resp = Some (stringify resp))
        /\ (Json.arrayOrEmpty (Json.get "content" resp) = [] ->
            extractAnthropicText stringify resp = Some (stringify resp))
        /\ (Json.arrayOrEmpty (Json.get "candidates" resp) = [] ->
            extractGeminiText stringify resp = Some (stringify resp))).
Proof.
  intros stringify resp.
  assert (Ho : resp <> JNull ->
               extractOpenAIText stringify resp <> None).
  { intros Hn. unfold extractOpenAIText.
    destruct resp; try (now elim Hn);
      (destruct (Json.arrayOrEmpty _) as [|first rest]; [discriminate|]);
      (destruct (Json.isObjectLike first); [|discriminate]);
      repeat match goal with
             | |- context [match ?x with _ => _ end] => destruct x
             end; discriminate. }
  assert (Hg : resp <> JNull ->
               extractGeminiText stringify resp <> None).
  { intros Hn. unfold extractGeminiText.
    destruct resp; try (now elim Hn);
      (destruct (Json.arrayOrEmpty _) as [|first rest]; [discriminate|]);
      destruct (Json.isObjectLike first); discriminate. }
  split; [|split; [|split]].
  - split; [|now intros ->].
    intros H. destruct resp; try reflexivity; now elim Ho.
  - split; [|now intros ->].
    now destruct resp.
  - split; [|now intros ->].
    intros H. destruct resp; try reflexivity; now elim Hg.
  - intros Hn. repeat split; intros H.
    + unfold extractOpenAIText. rewrite H. now destruct resp.
    + unfold extractAnthropicText. rewrite H. now destruct resp.
    + unfold extractGeminiText. rewrite H. now destruct resp.
Qed.




Lemma extractOpenAIText_first (stringify : json -> string) resp first rest :
  resp <> JNull ->
  Json.get "choices" resp = Some (JArray (first :: rest)) ->
  Json.isObjectLike first = true ->
  extractOpenAIText stringify resp
  = let content :=
      match Json.get "message" first with
      | None | Some JNull => None
      | Some m => Json.get "content" m
      end in
    match content with
    | Some (JString text) => Some text
    | Some (JArray items) => Some (join LFs (flat_map textChunk items))
    | _ => Some (contentToString content)
    end.
Proof.
  intros Hn Hc Ho. unfold extractOpenAIText. rewrite Hc.
  cbn [Json.arrayOrEmpty]. rewrite Ho.
  destruct resp; try reflexivity. now elim Hn.
Qed.

(** X15.  The text of an OpenAI reply is that of its first choice.
    When the first element of [choices] is an object, the text depends
    on nothing else in the reply.  A string [content] is handed back
    unchanged (not trimmed); an array [content] gives the [text] of its
    parts joined by line feeds; a missing message, a [null] message and
    a missing or [null] content give the empty text. *)
Theorem openai_text_is_first_choice :
  forall (stringify : json -> string) (resp resp' first : json)
         (rest rest' : list json),
    resp <> JNull -> resp' <> JNull ->
    Json.get "choices" resp = Some (JArray (first :: rest)) ->
    Json.get "choices" resp' = Some (JArray (first :: rest')) ->
    Json.isObjectLike first = true ->
    extractOpenAIText stringify resp = extractOpenAIText stringify resp'
    /\ (forall message text,
          Json.get "message" first = Some message ->
          Json.get "content" message = Some (JString text) ->
          extractOpenAIText stringify resp = Some text)
    /\ (forall message items,
          Json.get "message" first = Some message ->
          Json.get "content" message = Some (JArray items) ->
          extractOpenAIText stringify resp
          = Some (join LFs (flat_map textChunk items)))
    /\ (Json.get "message" first = None
        \/ (exists message,
              Json.get "message" first = Some message
              /\ (Json.get "content" message = None
                  \/ Json.get "content" message = Some JNull)) ->
        extractOpenAIText stringify resp = Some "").
Proof.
  intros stringify resp resp' first rest rest' Hn Hn' Hc Hc' Ho.
  rewrite (extractOpenAIText_first stringify resp first rest Hn Hc Ho).
  rewrite (extractOpenAIText_first stringify resp' first rest' Hn' Hc' Ho).
  split; [reflexivity|]. cbv zeta.
  split; [|split].
  - intros message text Hm Ht. rewrite Hm.
    destruct message; try discriminate Ht; now rewrite Ht.
  - intros message items Hm Hi. rewrite Hm.
    destruct message; try discriminate Hi; now rewrite Hi.
  - intros [Hm|(message & Hm & [Hx|Hx])]; rewrite Hm; try reflexivity;
      destruct message; try reflexivity; now rewrite Hx.
Qed.

Lemma openai_text_is_first_choice_witness :
  let first :=
    JObject [("message", JObject [("content", JString " hi ")])] in
  let resp := JObject [("choices", JArray [first; JNull])] in
  let resp' :=
    JObject [("id", JString "r2"); ("choices", JArray [first])] in
  extractOpenAIText Rpc.print resp = extractOpenAIText Rpc.print resp'
  /\ extractOpenAIText Rpc.print resp = Some " hi ".
Proof.
  intros first resp resp'.
  destruct (openai_text_is_first_choice Rpc.print resp resp' first
              [JNull] [])
    as (H1 & H2 & _); try reflexivity; try discriminate.
  split; [exact H1|].
  exact (H2 (JObject [("content", JString " hi ")]) " hi " eq_refl eq_refl).
Defined.

End ReplyFacts.

(* ================================================================== *)
(** * More on the orchestration                                        *)
(* ================================================================== *)

Module BrainstormFacts.

Import ModelRouter Observe OrchestrationFacts.

Lemma failures_app tr1 tr2 :
  failures (tr1 ++ tr2) = (failures tr1 ++ failures tr2)%list.
Proof. unfold failures. apply filter_app. Qed.

Lemma settleAll_count label : forall ps (calls : list GatewayCall) answers out errors,
  List.length answers = List.length ps ->
  List.length calls = List.length ps ->
  List.length (snd (settleAll label ps answers out errors))
  = List.length errors + List.length (failures (combine calls answers)).
Proof.
  induction ps as [|m ps IH]; intros calls answers out errors Ha Hc.
  - destruct calls; [|discriminate]. simpl. lia.
  - destruct answers as [|a answers]; [discriminate|].
    destruct calls as [|c calls]; [discriminate|].
    cbn [settleAll combine].
    destruct (settle label m a out errors) as [out' errors'] eqn:E.
    rewrite (IH calls) by (simpl in *; lia).
    assert (E' : errors' = snd (settle label m a out errors))
      by now rewrite E.
    rewrite settle_errors in E'. subst errors'.
    unfold failures at 2. cbn [filter fst snd].
    fold (failures (combine calls answers)).
    destruct (negb (fst a =? 0)%Z).
    + rewrite length_app. simpl. lia.
    + reflexivity.
Qed.

Section Count.

Variables (W : Type) (g : Gateway W) (rt : Runtime).
Variables (requirement : string) (timeoutSec : Z) (temperature : Q)
          (maxTokens : Z).

Lemma stage_count label promptOf ps out errors w tr :
  exists out' errors' w' added,
    run (recording g)
        (forEachParticipant timeoutSec temperature maxTokens label
                            promptOf ps out errors) (w, tr)
    = (inr (out', errors'), (w', (tr ++ added)%list))
    /\ List.length errors'
       = List.length errors + List.length (failures added).
Proof.
  destruct (forEachParticipant_run W g timeoutSec temperature maxTokens
              label promptOf ps out errors w tr)
    as (answers & w' & Hlen & Hrun).
  destruct (settleAll label ps answers out errors) as [out' errors'] eqn:E.
  exists out', errors', w'. eexists. split; [exact Hrun|].
  replace errors' with (snd (settleAll label ps answers out errors))
    by now rewrite E.
  apply settleAll_count; [assumption|now rewrite length_map].
Qed.

Lemma debateLoop_count ps : forall todo i latest debates errors w tr,
  exists debates' errors' w' added,
    run (recording g)
        (debateLoop rt requirement timeoutSec temperature maxTokens
                    todo i ps latest debates errors) (w, tr)
    = (inr (debates', errors'), (w', (tr ++ added)%list))
    /\ List.length errors'
       = List.length errors + List.length (failures added).
Proof.
  induction todo as [|todo IH]; intros i latest debates errors w tr.
  - exists debates, errors, w, []. simpl. rewrite app_nil_r. auto.
  - cbn [debateLoop]. rewrite run_bind. unfold debateRound.
    destruct (stage_count ("debate-r" ++ String_Z i)
                (fun m => debatePrompt rt requirement
                                       (othersOf latest (id m)))
                ps [] errors w tr)
      as (resp & errors1 & w1 & added1 & Hrun & Hcount).
    rewrite Hrun. cbv beta iota.
    destruct (IH (i + 1)%Z resp
                 (debates ++ [mkDebateRound i resp])%list errors1 w1
                 (tr ++ added1)%list)
      as (debates' & errors' & w' & added & Hrun' & Hcount').
    exists debates', errors', w', (added1 ++ added)%list.
    rewrite Hrun', app_assoc. split; [reflexivity|].
    rewrite failures_app, length_app. lia.
Qed.

End Count.

Section Tail.

Variables (W : Type) (g : Gateway W) (rt : Runtime) (args : Arguments_).

(** The end of a valid call: the synthesis call is the last one, and
    the report is built from its answer. *)
Lemma brainstorm_tail w first rest :
  nonEmpty (requirementOf args) = true ->
  participantsOf args = first :: rest ->
  let synth := synthModelOf args first (first :: rest) in
  exists proposals debates errors w2 tr2,
    let c := callOf args synth
                    (synthPrompt rt (requirementOf args) proposals debates) in
    let answer := fst (g c w2) in
    run (recording g) (brainstorm rt args) (w, [])
    = (inr (inr {|
         r_requirement := requirementOf args;
         r_participants := map id (first :: rest);
         r_debate_rounds := debateRoundsOf (arg_debate_rounds args);
         r_synthesis_by := id synth;
         r_proposals := proposals;
         r_debates := debates;
         r_synthesis := snd answer;
         r_errors :=
           if negb (fst answer =? 0)%Z
           then (errors ++ [errorLine "synthesis" synth (fst answer)])%list
           else errors |}),
       (snd (g c w2), (tr2 ++ [(c, answer)])%list))
    /\ List.length errors = List.length (failures tr2).
Proof.
  intros Hreq Hps synth. unfold brainstorm.
  rewrite Hreq, Hps. cbn [negb]. cbv iota.
  rewrite run_bind. unfold proposalStage.
  destruct (stage_count W g (timeoutSecOf args) (temperatureOf args)
              (maxTokensOf args) "proposal"
              (fun _ => proposalPrompt (requirementOf args))
              (first :: rest) [] [] w [])
    as (proposals & errors1 & w1 & added1 & Hrun1 & Hcount1).
  rewrite Hrun1. cbv beta iota.
  rewrite run_bind.
  destruct (debateLoop_count W g rt (requirementOf args)
              (timeoutSecOf args) (temperatureOf args) (maxTokensOf args)
              (first :: rest)
              (Z.to_nat (debateRoundsOf (arg_debate_rounds args))) 1%Z
              proposals [] errors1 w1 ([] ++ added1)%list)
    as (debates & errors2 & w2 & added2 & Hrun2 & Hcount2).
  rewrite Hrun2. cbv beta iota.
  rewrite run_bind, run_await. cbv beta iota.
  exists proposals, debates, errors2, w2, (([] ++ added1) ++ added2)%list.
  cbv zeta. split; [reflexivity|].
  rewrite failures_app, length_app. simpl in *. lia.
Qed.

End Tail.

(** X16.  No failed call goes unreported.  For a valid call and any
    gateway, the error log of [model.brainstorm] has exactly one line
    for every gateway call that was answered with a nonzero code, in
    whatever stage: proposal, debate or synthesis.  So the result has
    [isError] unset exactly when every call of the run was answered
    with code 0. *)
Theorem every_failure_is_logged :
  forall (rt : Runtime) (W : Type) (g : Gateway W) (args : Arguments_)
         (w : W) (first : ModelSpec) (rest : list ModelSpec),
    nonEmpty (requirementOf args) = true ->
    participantsOf args = first :: rest ->
    exists report w' tr,
      run (recording g) (brainstorm rt args) (w, [])
      = (inr (inr report), (w', tr))
      /\ List.length (r_errors report) = List.length (failures tr)
      /\ (isError (reportResult rt report) = false
          <-> Forall (fun entry => fst (snd entry) = 0%Z) tr).
Proof.
  intros rt W g args w first rest Hreq Hps.
  destruct (brainstorm_tail W g rt args w first rest Hreq Hps)
    as (proposals & debates & errors & w2 & tr2 & Hrun & Hcount).
  cbv zeta in Hrun.
  eexists _, _, _. split; [exact Hrun|].
  cbn [r_errors].
  match goal with
  | |- context [callOf args ?m ?p] => set (c := callOf args m p) in *
  end.
  assert (Hlen : List.length
                   (if negb (fst (fst (g c w2)) =? 0)%Z
                    then (errors ++ [errorLine "synthesis"
                            (synthModelOf args first (first :: rest))
                            (fst (fst (g c w2)))])%list
                    else errors)
                 = List.length (failures (tr2 ++ [(c, fst (g c w2))]))).
  { rewrite failures_app, length_app. unfold failures at 2.
    cbn [filter fst snd].
    destruct (negb (fst (fst (g c w2)) =? 0)%Z).
    - rewrite length_app. simpl. lia.
    - simpl. lia. }
  split; [exact Hlen|].
  unfold reportResult. cbn [isError r_errors]. rewrite Hlen.
  unfold failures. rewrite Nat.ltb_ge. split.
  - intros H. apply Forall_forall. intros entry Hin.
    destruct (Z.eqb_spec (fst (snd entry)) 0) as [e|n]; [assumption|].
    exfalso.
    assert (Hf : In entry (filter (fun entry => negb (fst (snd entry) =? 0)%Z)
                                  (tr2 ++ [(c, fst (g c w2))]))).
    { apply filter_In. split; [assumption|].
      apply negb_true_iff. now apply Z.eqb_neq. }
    destruct (filter _ _); [contradiction|simpl in H; lia].
  - intros H. rewrite Forall_forall in H.
    destruct (filter _ _) as [|entry l] eqn:E; [simpl; lia|].
    exfalso.
    assert (Hin : In entry (filter (fun entry => negb (fst (snd entry) =? 0)%Z)
                                   (tr2 ++ [(c, fst (g c w2))])))
      by (rewrite E; now left).
    apply filter_In in Hin as [Hin Hneg].
    apply negb_true_iff, Z.eqb_neq in Hneg. now apply Hneg, H.
Qed.



(** X18.  The sampling arguments reach every call, and 0 counts as
    absent.  Every gateway call of a run carries the same timeout,
    temperature and token limit, read once from the arguments with
    [Number(x || default)]: the value given, or the default (180, 0.2,
    2048) when it is absent or 0.  In particular a [temperature] of 0
    is replaced by 0.2. *)
Theorem arguments_reach_every_call :
  forall (rt : Runtime) (W : Type) (g : Gateway W) (args : Arguments_)
         (w : W) (first : ModelSpec) (rest : list ModelSpec),
    nonEmpty (requirementOf args) = true ->
    participantsOf args = first :: rest ->
    (exists report w' tr,
        run (recording g) (brainstorm rt args) (w, [])
        = (inr (inr report), (w', tr))
        /\ Forall (fun entry =>
                     gc_timeoutSec (fst entry) = timeoutSecOf args
                     /\ gc_temperature (fst entry) = temperatureOf args
                     /\ gc_maxTokens (fst entry) = maxTokensOf args) tr)
    /\ timeoutSecOf args
       = match arg_timeout_sec args with
         | None | Some 0%Z => 180%Z
         | Some z => z
         end
    /\ maxTokensOf args
       = match arg_max_tokens args with
         | None | Some 0%Z => 2048%Z
         | Some z => z
         end
    /\ temperatureOf args
       = match arg_temperature args with
         | None => (2 # 10)%Q
         | Some q => if Qeq_bool q 0 then (2 # 10)%Q else q
         end.
Proof.
  intros rt W g args w first rest Hreq Hps.
  split.
  { destruct (brainstorm_run W g rt args w first rest Hreq Hps)
      as (report & w' & answers & critiques & synth & extra & Hrun & Hlen
          & _ & _ & _ & Hcalls & _).
    eexists report, w', _. split; [exact Hrun|].
    assert (Hall : Forall (fun c =>
                             gc_timeoutSec c = timeoutSecOf args
                             /\ gc_temperature c = temperatureOf args
                             /\ gc_maxTokens c = maxTokensOf args)
                          (map fst (combine (proposalCalls args) answers
                                    ++ critiques
                                    ++ [(callOf args
                                           (synthModelOf args first
                                              (participantsOf args))
                                           (synthPrompt rt
                                              (requirementOf args)
                                              (r_proposals report)
                                              (r_debates report)),
                                         synth)])%list)).
    { rewrite !map_app, Hcalls.
      rewrite map_fst_combine
        by (unfold proposalCalls; now rewrite length_map).
      apply Forall_app. split; [|apply Forall_app; split].
      - unfold proposalCalls. apply Forall_forall. intros c Hc.
        apply in_map_iff in Hc as (m & <- & _). repeat split.
      - apply Forall_forall. intros c Hc.
        apply in_flat_map in Hc as (inputs & _ & Hc).
        unfold critiqueCalls in Hc.
        apply in_map_iff in Hc as (m & <- & _). repeat split.
      - repeat constructor. }
    rewrite Forall_map in Hall. exact Hall. }
  unfold timeoutSecOf, maxTokensOf, temperatureOf, Number_or,
    temperature_or.
  repeat split.
  - now destruct (arg_timeout_sec args) as [[| |]|].
  - now destruct (arg_max_tokens args) as [[| |]|].
Qed.

Lemma every_failure_is_logged_witness :
  exists report w' tr,
    run (recording demoGateway)
        (brainstorm demoRuntime
                    (demoArgs [participantA; participantB] (Some 1%Z)))
        (tt, [])
    = (inr (inr report), (w', tr))
    /\ List.length (r_errors report) = List.length (failures tr)
    /\ (isError (reportResult demoRuntime report) = false
        <-> Forall (fun entry => fst (snd entry) = 0%Z) tr).
Proof.
  exact (every_failure_is_logged demoRuntime unit demoGateway
           (demoArgs [participantA; participantB] (Some 1%Z)) tt _ _
           eq_refl eq_refl).
Defined.


Lemma arguments_reach_every_call_witness :
  let args :=
    mkArguments (JPrim PUndefined) PUndefined (PStr "build it")
                (Some [participantA; participantB]) (Some 1%Z)
                PUndefined (Some 60%Z) (Some 0%Q) None in
  exists report w' tr,
    run (recording demoGateway) (brainstorm demoRuntime args) (tt, [])
    = (inr (inr report), (w', tr))
    /\ Forall (fun entry =>
                 gc_timeoutSec (fst entry) = 60%Z
                 /\ gc_temperature (fst entry) = (2 # 10)%Q
                 /\ gc_maxTokens (fst entry) = 2048%Z) tr.
Proof.
  intros args.
  exact (proj1 (arguments_reach_every_call demoRuntime unit demoGateway
                  args tt _ _ eq_refl eq_refl)).
Defined.

(** X19.  The tools of [tools/list] are the tools of [tools/call].
    The model router advertises [model.one_shot] and [model.brainstorm],
    and [callTool] answers [Unknown tool: <name>] exactly for the names
    it does not advertise. *)
Theorem router_tools_are_dispatched :
  forall (rt : Runtime) (name : string) (args : Arguments_),
    Rpc.toolNames ModelRouterServer.TOOLS
    = ["model.one_shot"; "model.brainstorm"]
    /\ (callTool rt name args
        = Ret (textResult ("Unknown tool: " ++ name) true)
        <-> ~ In name (Rpc.toolNames ModelRouterServer.TOOLS)).
Proof.
  intros rt name args. split; [reflexivity|].
  change (Rpc.toolNames ModelRouterServer.TOOLS)
    with ["model.one_shot"; "model.brainstorm"].
  unfold callTool.
  destruct (String.eqb_spec name "model.one_shot") as [->|n1].
  { split; [|intros H; elim H; now left].
    intros H. exfalso.
    destruct (toModelSpec (arg_model args) "model_1");
      [destruct (negb (nonEmpty _))|]; discriminate H. }
  destruct (String.eqb_spec name "model.brainstorm") as [->|n2].
  { split; [|intros H; elim H; right; now left].
    intros H. exfalso. unfold runBrainstorm, brainstorm in H.
    destruct (negb (nonEmpty (requirementOf args))); [discriminate H|].
    destruct (participantsOf args) as [|first rest]; discriminate H. }
  split; [|reflexivity].
  intros _ [H|[H|[]]]; congruence.
Qed.

End BrainstormFacts.

(* ================================================================== *)
(** * The execution bridge: roots, context files and the subprocess     *)
(* ================================================================== *)

Module SandboxFacts.

Import Path ClaudeRunner Sandbox BridgeFacts OrchestrationFacts.

(** ** Splitting at a one-character separator *)

Lemma split1_cons sep cur c s :
  split_from (String sep "") 0 cur (String c s)
  = if Ascii.eqb sep c
    then cur :: split_from (String sep "") 0 "" s
    else split_from (String sep "") 0 (cur ++ String c "") s.
Proof.
  cbn [split_from String.prefix String.length Nat.sub].
  destruct (ascii_dec sep c) as [->|Hne].
  - rewrite Ascii.eqb_refl. now destruct s.
  - apply Ascii.eqb_neq in Hne. now rewrite Hne.
Qed.

Lemma split1_chars sep (P : ascii -> bool) : forall s cur,
  allChars P cur = true -> allChars P s = true ->
  Forall (fun piece =>
            allChars P piece = true
            /\ allChars (fun c => negb (Ascii.eqb c sep)) piece = true)
         (split_from (String sep "") 0 cur s)
  \/ allChars (fun c => negb (Ascii.eqb c sep)) cur = false.
Proof.
  induction s as [|c s IH]; intros cur Hcur Hs.
  - destruct (allChars (fun c => negb (Ascii.eqb c sep)) cur) eqn:E;
      [left|now right].
    simpl. constructor; [auto|constructor].
  - rewrite split1_cons. cbn [allChars] in Hs.
    apply andb_true_iff in Hs as [Hc Hs].
    destruct (allChars (fun c => negb (Ascii.eqb c sep)) cur) eqn:E;
      [left|now right].
    destruct (Ascii.eqb_spec sep c) as [->|Hne].
    + constructor; [auto|].
      destruct (IH "" eq_refl Hs) as [H|H]; [assumption|discriminate].
    + destruct (IH (cur ++ String c "")) as [H|H]; try assumption.
      * rewrite TransportFacts.allChars_app, Hcur. simpl. now rewrite Hc.
      * rewrite TransportFacts.allChars_app, E in H. simpl in H.
        apply Ascii.eqb_neq in Hne. rewrite Ascii.eqb_sym in Hne.
        rewrite Hne in H. discriminate.
Qed.

Lemma split1_pieces sep (P : ascii -> bool) s :
  allChars P s = true ->
  Forall (fun piece =>
            allChars P piece = true
            /\ allChars (fun c => negb (Ascii.eqb c sep)) piece = true)
         (split (String sep "") s).
Proof.
  intros H. destruct (split1_chars sep P s "" eq_refl H) as [H'|H'];
    [assumption|discriminate].
Qed.

(** ** [path.resolve] *)

Lemma plainSegment_intro seg :
  noSlash seg = true ->
  String.eqb seg "" || String.eqb seg "." = false ->
  String.eqb seg ".." = false ->
  plainSegment seg = true.
Proof.
  intros Hs He Hd. unfold plainSegment. apply orb_false_iff in He as [He1 He2].
  rewrite He2, Hd. fold (noSlash seg). rewrite Hs.
  now destruct seg.
Qed.

Lemma normalizeSegments_plain : forall segments stack,
  forallb plainSegment stack = true ->
  Forall (fun s => noSlash s = true) segments ->
  forallb plainSegment (normalizeSegments false stack segments) = true.
Proof.
  induction segments as [|seg segments IH]; intros stack Hst Hseg.
  - cbn [normalizeSegments]. rewrite forallb_forall in *.
    intros x Hx. apply Hst. now apply in_rev.
  - inversion Hseg as [|? ? Hs Hrest]; subst.
    cbn [normalizeSegments].
    destruct (String.eqb seg "" || String.eqb seg ".") eqn:E1;
      [now apply IH|].
    destruct (String.eqb seg "..") eqn:E2.
    + destruct stack as [|top below]; [now apply IH|].
      cbn [forallb] in Hst. apply andb_true_iff in Hst as [Htop Hbelow].
      destruct (String.eqb_spec top "..") as [->|_]; [discriminate Htop|].
      now apply IH.
    + apply IH; [|assumption]. cbn [forallb].
      now rewrite plainSegment_intro.
Qed.

Lemma isAbsolute_nonEmpty p : isAbsolute p = true -> nonEmpty p = true.
Proof. now destruct p. Qed.

Lemma resolveLoop_absolute pc :
  isAbsolute pc = true ->
  forall paths acc, snd (resolveLoop (paths ++ [pc]) acc) = true.
Proof.
  intros Hpc. induction paths as [|p paths IH]; intros acc.
  - destruct pc as [|c pc']; [discriminate Hpc|].
    cbn [Datatypes.app resolveLoop nonEmpty]. now rewrite Hpc.
  - cbn [Datatypes.app resolveLoop]. destruct (nonEmpty p); [|apply IH].
    destruct (isAbsolute p); [reflexivity|apply IH].
Qed.

Lemma resolve_canonical pc paths :
  isAbsolute pc = true -> canonical (resolve pc paths).
Proof.
  intros Hpc. unfold resolve.
  pose proof (resolveLoop_absolute pc Hpc (List.rev paths) "") as Habs.
  destruct (resolveLoop (List.rev paths ++ [pc]) "") as [rp abs].
  cbn [snd] in Habs. subst abs. cbn [negb].
  eexists. split; [reflexivity|].
  apply normalizeSegments_plain; [reflexivity|].
  pose proof (split1_pieces "/" (fun _ => true) rp) as H.
  assert (Ht : allChars (fun _ => true) rp = true)
    by (clear; induction rp; simpl; auto).
  specialize (H Ht). eapply Forall_impl; [|exact H].
  intros piece [_ Hp]. exact Hp.
Qed.

Lemma split1_sep sep cur rest :
  split_from (String sep "") 0 cur (String sep rest)
  = cur :: split_from (String sep "") 0 "" rest.
Proof. rewrite split1_cons. now rewrite Ascii.eqb_refl. Qed.

Lemma split_join_slash : forall segments cur,
  Forall (fun s => noSlash s = true) segments ->
  split_from "/" 0 cur (join "/" segments ++ "/")
  = match segments with
    | [] => [cur; ""]
    | h :: more => (cur ++ h) :: (more ++ [""])%list
    end.
Proof.
  induction segments as [|h more IH]; intros cur Hall.
  - reflexivity.
  - inversion Hall as [|? ? Hh Hmore]; subst.
    rewrite BridgeFacts.join_cons. destruct more as [|m more'].
    + rewrite (TransportFacts.split_from_plain "/"%char "" h cur "/" Hh).
      reflexivity.
    + rewrite !TransportFacts.append_assoc.
      rewrite (TransportFacts.split_from_plain "/"%char "" h cur _ Hh).
      change ("/" ++ join "/" (m :: more') ++ "/")
        with (String "/" (join "/" (m :: more') ++ "/")).
      rewrite split1_sep, (IH "" Hmore). reflexivity.
Qed.

Lemma plainSegment_noSlash s : plainSegment s = true -> noSlash s = true.
Proof.
  unfold plainSegment. intros H. now apply andb_true_iff in H as [_ H].
Qed.

Lemma normalizeSegments_id : forall segments stack,
  forallb plainSegment segments = true ->
  normalizeSegments false stack (segments ++ [""])
  = (List.rev stack ++ segments)%list.
Proof.
  induction segments as [|seg segments IH]; intros stack H.
  - cbn. now rewrite app_nil_r.
  - cbn [forallb] in H. apply andb_true_iff in H as [Hseg Hrest].
    cbn [Datatypes.app normalizeSegments].
    unfold plainSegment in Hseg.
    apply andb_true_iff in Hseg as [Hseg _].
    apply andb_true_iff in Hseg as [Hseg Hd2].
    apply andb_true_iff in Hseg as [Hne Hd1].
    apply negb_true_iff in Hd1, Hd2.
    assert (He : String.eqb seg "" = false) by now destruct seg.
    rewrite He, Hd1, Hd2. cbn [orb].
    rewrite IH by assumption. cbn [List.rev].
    now rewrite <- app_assoc.
Qed.

Lemma resolve_fixed pc p :
  canonical p -> resolve pc [p] = p.
Proof.
  intros (segments & -> & Hplain). unfold resolve.
  cbn [List.rev Datatypes.app resolveLoop nonEmpty append isAbsolute
       startsWith String.prefix].
  destruct (ascii_dec "/" "/") as [_|n]; [|now elim n].
  rewrite BridgeFacts.prefix_empty. cbn [negb].
  f_equal. f_equal.
  assert (Hns : Forall (fun s => noSlash s = true) segments).
  { apply Forall_forall. intros s Hs. apply plainSegment_noSlash.
    rewrite forallb_forall in Hplain. now apply Hplain. }
  unfold split.
  replace (join "/" segments ++ "/" ++ "") with (join "/" segments ++ "/")
    by reflexivity.
  rewrite split1_sep, (split_join_slash segments "" Hns).
  cbn [normalizeSegments String.eqb orb].
  destruct segments as [|h more]; [reflexivity|].
  change (("" ++ h) :: (more ++ [""])%list) with ((h :: more) ++ [""])%list.
  now rewrite normalizeSegments_id.
Qed.

(** ** The allowed roots *)

Lemma allChars_trimStart P s :
  allChars P s = true -> allChars P (trimStart s) = true.
Proof.
  induction s as [|c s IH]; [auto|]. intros H. cbn [trimStart].
  destruct (is_space c); [|assumption].
  cbn [allChars] in H. apply andb_true_iff in H as [_ H]. now apply IH.
Qed.

Lemma allChars_trimEnd P s :
  allChars P s = true -> allChars P (trimEnd s) = true.
Proof.
  induction s as [|c s IH]; [auto|]. intros H.
  cbn [allChars] in H. apply andb_true_iff in H as [Hc H].
  cbn [trimEnd]. specialize (IH H).
  destruct (trimEnd s) as [|d t].
  - destruct (is_space c); [reflexivity|]. simpl. now rewrite Hc.
  - cbn [allChars] in *. now rewrite Hc, IH.
Qed.

Lemma trim_spaces s : allChars is_space s = true -> trim s = "".
Proof.
  intros H. unfold trim.
  assert (E : trimStart s = "").
  { induction s as [|c s IH]; [reflexivity|].
    cbn [allChars] in H. apply andb_true_iff in H as [Hc H].
    cbn [trimStart]. rewrite Hc. now apply IH. }
  now rewrite E.
Qed.

Lemma isUnder_refl pc root : isUnder pc root root = true.
Proof.
  unfold isUnder, relative. now rewrite String.eqb_refl.
Qed.

(** X20.  The allowed roots.  When the process runs in an absolute
    directory, [parseAllowedRoots] never returns an empty list, and every
    root it returns is an absolute normalized path (a slash, then plain
    segments separated by single slashes) that [path.resolve] leaves as
    it is.  A variable that is unset, or holds only white space and
    commas, gives the single root [path.resolve(process.cwd())]; with the
    variable unset, a call without [cwd] is accepted there. *)
Theorem allowed_roots_are_canonical :
  forall (pc : string) (env : option string),
    isAbsolute pc = true ->
    parseAllowedRoots pc env <> []
    /\ Forall (fun root => canonical root /\ resolve pc [root] = root)
              (parseAllowedRoots pc env)
    /\ (allChars (fun c => is_space c || Ascii.eqb c ",")
                 (match env with Some v => v | None => "" end) = true ->
        parseAllowedRoots pc env = [resolve pc [pc]])
    /\ validateCwd pc None (parseAllowedRoots pc None)
       = inr (resolve pc [pc]).
Proof.
  intros pc env Hpc.
  assert (Hcan : forall x, canonical (resolve pc [x])
                           /\ resolve pc [resolve pc [x]] = resolve pc [x]).
  { intros x. split; [now apply resolve_canonical|].
    apply resolve_fixed. now apply resolve_canonical. }
  split; [|split; [|split]].
  - unfold parseAllowedRoots. now destruct (map _ _).
  - unfold parseAllowedRoots.
    destruct (map _ (filter _ _)) as [|r roots] eqn:E.
    + constructor; [apply Hcan|constructor].
    + rewrite <- E. apply Forall_forall. intros root Hin.
      apply in_map_iff in Hin as (x & <- & _). apply Hcan.
  - intros Hblank. unfold parseAllowedRoots.
    set (raw := trim _).
    assert (Hraw : allChars (fun c => is_space c || Ascii.eqb c ",") raw
                   = true).
    { unfold raw, trim. now apply allChars_trimEnd, allChars_trimStart. }
    assert (Hnone : filter nonEmpty (map trim (split "," raw)) = []).
    { pose proof (split1_pieces "," _ raw Hraw) as Hp.
      induction Hp as [|piece pieces [H1 H2] _ IH]; [reflexivity|].
      cbn [map filter]. rewrite trim_spaces; [exact IH|].
      clear - H1 H2. induction piece as [|c piece IH]; [reflexivity|].
      cbn [allChars] in *.
      apply andb_true_iff in H1 as [Hc H1].
      apply andb_true_iff in H2 as [Hn H2].
      rewrite (IH H1 H2), andb_true_r.
      apply negb_true_iff in Hn. now rewrite Hn, orb_false_r in Hc. }
    now rewrite Hnone.
  - unfold validateCwd, resolveCwd. cbn [orElse nonEmpty existsb].
    change (parseAllowedRoots pc None) with [resolve pc [pc]].
    cbn [existsb]. now rewrite isUnder_refl.
Qed.

Lemma allowed_roots_are_canonical_witness :
  isAbsolute "/srv/app" = true
  /\ parseAllowedRoots "/srv/app" (Some " /workspace , ,/data/../tmp/,rel")
     = ["/workspace"; "/tmp"; "/srv/app/rel"]
  /\ Forall (fun root => canonical root /\ resolve "/srv/app" [root] = root)
            ["/workspace"; "/tmp"; "/srv/app/rel"]
  /\ parseAllowedRoots "/srv/app" (Some " , ,") = ["/srv/app"].
Proof.
  split; [reflexivity|]. split; [reflexivity|]. split.
  - exact (proj1 (proj2 (allowed_roots_are_canonical "/srv/app"
                           (Some " /workspace , ,/data/../tmp/,rel")
                           eq_refl))).
  - exact (proj1 (proj2 (proj2 (allowed_roots_are_canonical "/srv/app"
                                  (Some " , ,") eq_refl)))
                 eq_refl).
Defined.

(** X21.  An accepted working directory.  When [validateCwd] accepts, the
    directory it returns is an absolute normalized path that
    [path.resolve] leaves as it is, it lies under one of the roots, and
    validating it again returns it again. *)
Theorem validated_cwd_is_canonical :
  forall (pc : string) (rawCwd : option string) (roots : list string)
         (cwd : string),
    isAbsolute pc = true ->
    validateCwd pc rawCwd roots = inr cwd ->
    canonical cwd
    /\ resolve pc [cwd] = cwd
    /\ validateCwd pc (Some cwd) roots = inr cwd
    /\ exists root, In root roots /\ isUnder pc root cwd = true.
Proof.
  intros pc rawCwd roots cwd Hpc H. unfold validateCwd in H.
  destruct (existsb _ roots) eqn:Ex; [|discriminate H].
  injection H as <-.
  assert (Hcan : canonical (resolveCwd pc rawCwd))
    by now apply resolve_canonical.
  assert (Hfix : resolve pc [resolveCwd pc rawCwd] = resolveCwd pc rawCwd)
    by now apply resolve_fixed.
  split; [assumption|]. split; [assumption|]. split.
  - unfold validateCwd.
    assert (E : resolveCwd pc (Some (resolveCwd pc rawCwd))
                = resolveCwd pc rawCwd).
    { unfold resolveCwd at 1.
      destruct Hcan as (segments & Hs & _).
      assert (Hne : nonEmpty (resolveCwd pc rawCwd) = true)
        by now rewrite Hs.
      unfold orElse. now rewrite Hne. }
    now rewrite E, Ex.
  - apply existsb_exists in Ex. exact Ex.
Qed.

Lemma validated_cwd_is_canonical_witness :
  validateCwd "/srv/app" (Some "/workspace/a/./b/../c/") ["/data"; "/workspace"]
  = inr "/workspace/a/c"
  /\ canonical "/workspace/a/c"
  /\ resolve "/srv/app" ["/workspace/a/c"] = "/workspace/a/c"
  /\ validateCwd "/srv/app" (Some "/workspace/a/c") ["/data"; "/workspace"]
     = inr "/workspace/a/c"
  /\ exists root,
       In root ["/data"; "/workspace"]
       /\ isUnder "/srv/app" root "/workspace/a/c" = true.
Proof.
  split; [reflexivity|].
  exact (validated_cwd_is_canonical "/srv/app" (Some "/workspace/a/./b/../c/")
           ["/data"; "/workspace"] "/workspace/a/c" eq_refl eq_refl).
Defined.

(** ** The subprocess once the timer is cleared *)


Lemma step_disarmed s ev :
  st_timerArmed s = false ->
  st_timerArmed (step s ev) = false
  /\ st_signals (step s ev) = st_signals s
  /\ st_timedOut (step s ev) = st_timedOut s.
Proof.
  intros H. destruct ev; simpl; try rewrite H; auto.
Qed.

Lemma run_disarmed : forall events s,
  st_timerArmed s = false ->
  st_signals (fold_left step events s) = st_signals s
  /\ st_timedOut (fold_left step events s) = st_timedOut s.
Proof.
  induction events as [|ev events IH]; intros s H; simpl; [auto|].
  destruct (step_disarmed s ev H) as (Ha & Hs & Ht).
  destruct (IH _ Ha) as [H1 H2]. now rewrite H1, H2, Hs, Ht.
Qed.

(** The events up to the first one that is not data. *)
Lemma first_settling : forall events,
  match find (fun ev => negb (isData ev)) events with
  | None => forallb isData events = true
  | Some ev =>
      isData ev = false
      /\ exists before after,
           events = (before ++ ev :: after)%list
           /\ forallb isData before = true
  end.
Proof.
  induction events as [|ev events IH]; [reflexivity|].
  cbn [find]. destruct (isData ev) eqn:E; cbn [negb].
  - destruct (find _ events) as [first|].
    + destruct IH as (Hf & before & after & -> & Hb).
      split; [assumption|]. exists (ev :: before), after.
      split; [reflexivity|]. cbn [forallb]. now rewrite E.
    + cbn [forallb]. now rewrite E.
  - split; [assumption|]. now exists [], events.
Qed.

Lemma find_settling before ev after :
  forallb isData before = true -> isData ev = false ->
  find (fun e => negb (isData e)) (before ++ ev :: after)%list = Some ev.
Proof.
  intros Hb He. induction before as [|b before IH]; cbn [Datatypes.app find].
  - now rewrite He.
  - cbn [forallb] in Hb. apply andb_true_iff in Hb as [H1 H2].
    rewrite H1. cbn [negb]. now apply IH.
Qed.

Lemma runClaude_split before ev after :
  forallb isData before = true ->
  runClaude (before ++ ev :: after)
  = fold_left step after
      (step (mkRunState false true []
               (flat_map (fun ev => match ev with
                                    | StdoutData c => [c] | _ => [] end)
                         before)
               (flat_map (fun ev => match ev with
                                    | StderrData c => [c] | _ => [] end)
                         before)
               None) ev).
Proof.
  intros Hb. unfold runClaude.
  rewrite fold_left_app. cbn [fold_left].
  now rewrite (run_data before spawned Hb).
Qed.

Lemma child_signals :
  forall (events : list ChildEvent),
    st_signals (runClaude events)
    = match find (fun ev => negb (isData ev)) events with
      | Some TimerFires => [SIGKILL]
      | _ => []
      end
    /\ st_timedOut (runClaude events)
       = match find (fun ev => negb (isData ev)) events with
         | Some TimerFires => true
         | _ => false
         end.
Proof.
  intros events. pose proof (first_settling events) as H.
  destruct (find _ events) as [first|].
  - destruct H as (Hf & before & after & -> & Hb).
    rewrite runClaude_split by assumption.
    destruct first; try discriminate Hf; cbn [step st_timerArmed];
      match goal with
      | |- context [fold_left step after ?s] =>
          destruct (run_disarmed after s eq_refl) as [-> ->]
      end; now split.
  - unfold runClaude. rewrite (run_data events spawned H). now split.
Qed.

(** X22.  The kill.  Whatever the order of the callbacks of [runClaude],
    the child is sent at most one signal.  SIGKILL is sent exactly when
    the timer fires before the child has closed or failed to start (only
    data on the pipes came earlier), and that is also exactly when
    [timedOut] is set: a timer that fires after [close] or [error] does
    nothing. *)
Theorem child_is_killed_at_most_once :
  forall (events : list ChildEvent),
    (st_signals (runClaude events) = []
     \/ st_signals (runClaude events) = [SIGKILL])
    /\ (st_signals (runClaude events) = [SIGKILL]
        <-> exists before after,
              events = (before ++ TimerFires :: after)%list
              /\ forallb isData before = true)
    /\ (st_timedOut (runClaude events) = true
        <-> st_signals (runClaude events) = [SIGKILL]).
Proof.
  intros events. destruct (child_signals events) as [Hs Ht].
  assert (Hfirst : find (fun ev => negb (isData ev)) events = Some TimerFires
                   <-> exists before after,
                         events = (before ++ TimerFires :: after)%list
                         /\ forallb isData before = true).
  { split.
    - intros H. pose proof (first_settling events) as Hf.
      rewrite H in Hf. now destruct Hf as (_ & Hex).
    - intros (before & after & -> & Hb). now apply find_settling. }
  rewrite Hs, Ht.
  destruct (find _ events) as [[| | | |]|]; split; auto;
    (split; [rewrite <- Hfirst|]; split; congruence).
Qed.

Lemma run_after_timeout : forall events s r,
  st_timedOut s = true ->
  (forall r0, st_settled s = Some r0 -> exitCode r0 <> 0%Z) ->
  st_settled (fold_left step events s) = Some r ->
  exitCode r <> 0%Z.
Proof.
  induction events as [|ev events IH]; intros s r Ht Hs Hr.
  - now apply Hs.
  - cbn [fold_left] in Hr. revert Hr. apply IH.
    + destruct ev; simpl; try assumption.
      now destruct (st_timerArmed s).
    + intros r0. destruct ev; simpl; try apply Hs.
      * destruct (st_timerArmed s); apply Hs.
      * rewrite Ht. destruct (st_settled s) as [first|] eqn:E; simpl.
        -- intros [= <-]. now apply Hs.
        -- intros [= <-]. discriminate.
      * destruct (st_settled s) as [first|] eqn:E; simpl.
        -- intros [= <-]. now apply Hs.
        -- intros [= <-]. discriminate.
Qed.

(** X23.  A successful run.  Whatever the order of the callbacks, when
    [runClaude] settles with exit code 0 then the child closed with code
    0 before the timer fired and before any [error] event: the result
    holds the data received until then, [timedOut] is false, no signal
    was ever sent, and no later event changes the result. *)
Theorem success_needs_a_clean_exit :
  forall (events : list ChildEvent) (r : WorkerResult),
    st_settled (runClaude events) = Some r ->
    exitCode r = 0%Z ->
    exists before after,
      events = (before ++ Close (Some 0%Z) :: after)%list
      /\ forallb isData before = true
      /\ r = mkWorkerResult 0 (stdoutOf before) (stderrOf before) false
      /\ st_signals (runClaude events) = []
      /\ forall more, st_settled (runClaude (events ++ more)) = Some r.
Proof.
  intros events r Hr Hz.
  assert (Hstay : forall more,
             st_settled (runClaude (events ++ more)) = Some r).
  { intros more. unfold runClaude. rewrite fold_left_app.
    now apply settled_stays. }
  pose proof (first_settling events) as H.
  destruct (find _ events) as [first|] eqn:Hfind.
  - destruct H as (Hf & before & after & E & Hb).
    assert (Hsig : st_signals (runClaude events)
                   = match first with TimerFires => [SIGKILL] | _ => [] end).
    { pose proof (child_signals events) as [Hs _].
      now rewrite Hfind in Hs. }
    subst events.
    rewrite runClaude_split in Hr by assumption.
    destruct first as [| | |code|message]; try discriminate Hf.
    + exfalso. cbn [step st_timerArmed] in Hr.
      revert Hz. eapply run_after_timeout; [| |exact Hr]; [reflexivity|].
      intros r0 H0. discriminate H0.
    + cbn [step st_timedOut st_settled resolveWith st_stdoutChunks
             st_stderrChunks] in Hr.
      erewrite settled_stays in Hr by reflexivity.
      injection Hr as <-. cbn [exitCode] in Hz.
      destruct code as [c|]; [|discriminate Hz]. cbn [codeOr1] in Hz.
      subst c. exists before, after.
      split; [reflexivity|]. split; [assumption|].
      split; [reflexivity|]. split; [exact Hsig|exact Hstay].
    + exfalso. cbn [step st_settled resolveWith] in Hr.
      erewrite settled_stays in Hr by reflexivity.
      injection Hr as <-. discriminate Hz.
  - exfalso. unfold runClaude in Hr.
    rewrite (run_data events spawned H) in Hr. discriminate Hr.
Qed.

Lemma success_needs_a_clean_exit_witness :
  let events := [StdoutData "ok"; Close (Some 0%Z); TimerFires;
                 Error "late"] in
  st_settled (runClaude events) = Some (mkWorkerResult 0 "ok" "" false)
  /\ exists before after,
       events = (before ++ Close (Some 0%Z) :: after)%list
       /\ forallb isData before = true
       /\ mkWorkerResult 0 "ok" "" false
          = mkWorkerResult 0 (stdoutOf before) (stderrOf before) false
       /\ st_signals (runClaude events) = []
       /\ forall more,
            st_settled (runClaude (events ++ more))
            = Some (mkWorkerResult 0 "ok" "" false).
Proof.
  intros events. split; [reflexivity|].
  exact (success_needs_a_clean_exit events (mkWorkerResult 0 "ok" "" false)
           eq_refl eq_refl).
Defined.

(** ** Context files and the tools *)



Section Files.

Variables (pc : string) (W : Type) (env : BridgeEnv W).
Variables (cwd : string) (maxChars : Z).





End Files.



Lemma everyEvent_appendFilesContext pc P prompt cwd files maxChars :
  (forall path, P (ExistsSync path)) -> (forall path, P (ReadFile path)) ->
  EveryEvent P (appendFilesContext pc prompt cwd files maxChars).
Proof.
  intros He Hr. destruct files as [|rel rest]; [constructor|].
  unfold appendFilesContext. apply everyEvent_bind.
  - now apply appendFiles_events.
  - intros chunks. constructor.
Qed.

(** X26.  Where the subprocess runs.  When the process runs in an
    absolute directory, every spawn that a tool call can issue, whatever
    the tool, the arguments and the answers of the file system, runs in
    the resolved working directory of the call, which is an absolute
    normalized path lying under one of the allowed roots, and with the
    timeout [Number(timeout_sec || 180)]: the bounds of the input schema
    are not applied to it. *)
Theorem spawn_is_confined :
  forall (pc name : string) (args : Arguments_) (roots : list string),
    isAbsolute pc = true ->
    EveryEvent (confinedSpawn pc roots args) (callTool pc name args roots).
Proof.
  intros pc name args roots Hpc.
  unfold callTool.
  destruct (validateCwd pc (rawCwdOf args) roots) as [error|cwd] eqn:Hv;
    [constructor|].
  assert (Hcwd : cwd = resolveCwd pc (rawCwdOf args)).
  { unfold validateCwd in Hv. destruct (existsb _ roots); [|discriminate Hv].
    now injection Hv as <-. }
  assert (Hcan : canonical cwd).
  { rewrite Hcwd. now apply resolve_canonical. }
  assert (Hroot : exists root, In root roots /\ isUnder pc root cwd = true).
  { unfold validateCwd in Hv.
    destruct (existsb _ roots) eqn:Ex; [|discriminate Hv].
    injection Hv as <-. now apply existsb_exists in Ex. }
  assert (Hrun : forall prompt,
             EveryEvent (confinedSpawn pc roots args)
               (runAndFormat prompt cwd
                  (Number_or (arg_timeout_sec args) DEFAULT_TIMEOUT_SEC))).
  { intros prompt. unfold runAndFormat, call. cbn [bind].
    constructor; [now repeat split|]. intros r. constructor. }
  destruct (String.eqb name "claude.one_shot").
  { destruct (negb (nonEmpty _)); [constructor|].
    apply everyEvent_bind; [|intros; apply Hrun].
    now apply everyEvent_appendFilesContext. }
  destruct (String.eqb name "claude.review_diff").
  { destruct (negb (nonEmpty _)); [constructor|apply Hrun]. }
  destruct (String.eqb name "claude.generate_patch").
  { destruct (negb (nonEmpty _) || _); [constructor|apply Hrun]. }
  constructor.
Qed.

Lemma spawn_is_confined_witness :
  isAbsolute "/srv/app" = true
  /\ EveryEvent (confinedSpawn "/srv/app" ["/workspace"] passwdArgs)
                (callTool "/srv/app" "claude.one_shot" passwdArgs
                          ["/workspace"]).
Proof.
  split; [reflexivity|].
  exact (spawn_is_confined "/srv/app" "claude.one_shot" passwdArgs
                           ["/workspace"] eq_refl).
Defined.

Lemma appendFiles_listed pc cwd maxChars listed :
  forall files chunks,
    (forall rel, In rel files -> In rel listed) ->
    EveryEvent (readsListed pc cwd listed)
               (appendFiles pc cwd files maxChars chunks).
Proof.
  induction files as [|rel files IH]; intros chunks Hin.
  - constructor.
  - assert (Hrel : exists r, In r listed /\ resolve pc [cwd; rel]
                                            = resolve pc [cwd; r]).
    { exists rel. split; [apply Hin; now left|reflexivity]. }
    assert (Hrest : forall r, In r files -> In r listed).
    { intros r Hr. apply Hin. now right. }
    cbn [appendFiles]. unfold call. cbn [bind].
    constructor; [exact Hrel|]. intros present.
    destruct present; cbn [negb].
    + constructor; [exact Hrel|]. intros read. now apply IH.
    + now apply IH.
Qed.

(** X27.  Context files are not held to the roots.  In an accepted
    [claude.one_shot] call with a prompt, the first thing the bridge does
    is to look up the first listed file, at [path.resolve(cwd, file)];
    for an absolute file name that is the file itself, wherever it lies:
    the allowed roots bound the working directory, not the files read
    into the prompt.  The only paths the call looks up or reads are those
    of the listed files. *)
Theorem context_files_are_not_confined :
  forall (pc : string) (args : Arguments_) (roots : list string)
         (cwd : string) (first : jsprim) (more : list jsprim),
    validateCwd pc (rawCwdOf args) roots = inr cwd ->
    nonEmpty (textOf (arg_prompt args)) = true ->
    arg_context_files args = Some (first :: more) ->
    Observe.firstEvent (callTool pc "claude.one_shot" args roots)
    = Some (ExistsSync (resolve pc [cwd; String_ first]))
    /\ (isAbsolute (String_ first) = true ->
        resolve pc [cwd; String_ first] = resolve pc [String_ first])
    /\ EveryEvent (readsListed pc cwd (map String_ (first :: more)))
                  (callTool pc "claude.one_shot" args roots).
Proof.
  intros pc args roots cwd first more Hv Hp Hf.
  split; [|split].
  - unfold callTool. rewrite Hv. cbn [String.eqb Ascii.eqb Bool.eqb].
    rewrite Hp, Hf. reflexivity.
  - intros Ha. unfold resolve. cbn [List.rev Datatypes.app resolveLoop].
    assert (Hne : nonEmpty (String_ first) = true).
    { destruct (String_ first); [discriminate Ha|reflexivity]. }
    now rewrite Hne, Ha.
  - unfold callTool. rewrite Hv. cbn [String.eqb Ascii.eqb Bool.eqb].
    rewrite Hp, Hf. cbn [negb].
    apply everyEvent_bind.
    + unfold appendFilesContext. cbn [map].
      apply everyEvent_bind; [|intros; constructor].
      apply appendFiles_listed. auto.
    + intros fullPrompt. unfold runAndFormat, call. cbn [bind].
      constructor; [exact I|]. intros r. constructor.
Qed.

Lemma context_files_are_not_confined_witness :
  validateCwd "/srv/app" (rawCwdOf passwdArgs) ["/workspace"]
  = inr "/workspace"
  /\ isUnder "/srv/app" "/workspace" "/etc/passwd" = false
  /\ Observe.firstEvent (callTool "/srv/app" "claude.one_shot" passwdArgs
                                  ["/workspace"])
     = Some (ExistsSync "/etc/passwd")
  /\ snd (snd (run (recordingEnv demoEnv)
                   (callTool "/srv/app" "claude.one_shot" passwdArgs
                             ["/workspace"]) (tt, [])))
     = [ExistsSync "/etc/passwd"; ReadFile "/etc/passwd";
        RunClaude
          (join (String LF "")
                ["summarise"; ""; "Context files:";
                 fileHeader "/etc/passwd"; "root:x:0:0"])
          "/workspace" 180].
Proof.
  split; [reflexivity|]. split; [reflexivity|]. split; [|reflexivity].
  exact (proj1 (context_files_are_not_confined "/srv/app" passwdArgs
                  ["/workspace"] "/workspace" (PStr "/etc/passwd") []
                  eq_refl eq_refl eq_refl)).
Defined.

(** X28.  The tools of [tools/list] are the tools of [tools/call].  The
    bridge advertises [claude.one_shot], [claude.review_diff] and
    [claude.generate_patch], and for an accepted working directory
    [callTool] answers [Unknown tool: <name>] exactly for the names it
    does not advertise. *)
Theorem runner_tools_are_dispatched :
  forall (pc name : string) (args : Arguments_) (roots : list string)
         (cwd : string),
    Rpc.toolNames ClaudeRunnerServer.TOOLS
    = ["claude.one_shot"; "claude.review_diff"; "claude.generate_patch"]
    /\ (validateCwd pc (rawCwdOf args) roots = inr cwd ->
        (callTool pc name args roots
         = Ret (textResult ("Unknown tool: " ++ name) true)
         <-> ~ In name (Rpc.toolNames ClaudeRunnerServer.TOOLS))).
Proof.
  intros pc name args roots cwd. split; [reflexivity|]. intros Hv.
  change (Rpc.toolNames ClaudeRunnerServer.TOOLS)
    with ["claude.one_shot"; "claude.review_diff"; "claude.generate_patch"].
  unfold callTool. rewrite Hv.
  destruct (String.eqb_spec name "claude.one_shot") as [->|n1].
  { split; [|intros H; elim H; now left].
    intros H. exfalso.
    destruct (negb (nonEmpty _)); [discriminate H|].
    destruct (arg_context_files args) as [[|f l]|]; discriminate H. }
  destruct (String.eqb_spec name "claude.review_diff") as [->|n2].
  { split; [|intros H; elim H; right; now left].
    intros H. exfalso. destruct (negb (nonEmpty _)); discriminate H. }
  destruct (String.eqb_spec name "claude.generate_patch") as [->|n3].
  { split; [|intros H; elim H; right; right; now left].
    intros H. exfalso. destruct (negb (nonEmpty _) || _); discriminate H. }
  split; [|reflexivity].
  intros _ [H|[H|[H|[]]]]; congruence.
Qed.

Lemma runner_tools_are_dispatched_witness :
  validateCwd "/srv/app" (rawCwdOf passwdArgs) ["/workspace"]
  = inr "/workspace"
  /\ callTool "/srv/app" "claude.plan" passwdArgs ["/workspace"]
     = Ret (textResult "Unknown tool: claude.plan" true).
Proof.
  split; [reflexivity|].
  refine (proj2 (proj2 (runner_tools_are_dispatched "/srv/app" "claude.plan"
                          passwdArgs ["/workspace"] "/workspace")
                       eq_refl) _).
  intros [H|[H|[H|[]]]]; discriminate H.
Defined.

End SandboxFacts.
